(** * seo_link_analyzer: crawl, validate, sitemap and metadata passes

    A shallow embedding of [seo_link_analyzer.py].  The network, the HTML/XML
    parser and [urllib.parse] are outside the program: a response is given by
    the views the program takes of it (the [href]s of its anchors, its title,
    its JSON-LD blocks, ...), and [urlparse(..).netloc], [urlparse(..).path]
    and [urljoin] are parameters of the development.  Every [requests.get] is
    threaded through an explicit network state and recorded, with the call
    site that issued it, in a trace.

    The program is given twice.  [Analyzer] is the program on the inputs on
    which [urlparse] and [urljoin] raise nothing, with these two as total
    functions.  [Raising] is the program on every input, with their
    [ValueError], which the program never catches.  A run of the second
    that does not end with [ValueError] is a run of the first.  A text is
    the list of the bytes of its UTF-8 encoding, and [len] counts
    characters. *)

From Stdlib Require Import Ascii.
From stdpp Require Import gmap strings list pretty.

Local Open Scope Z_scope.
Set Warnings "-clear-no-such-hyp".

(** ** Data *)

(** What [json.loads] returns.  Numbers are integers; a [dict] is the list of
    its items in insertion order (its keys are distinct). *)
#[warnings="-register-all"]
Inductive json :=
| JNull
| JBool (b : bool)
| JInt (z : Z)
| JStr (s : string)
| JArr (l : list json)
| JObj (kv : list (string * json)).

(** One [<script type="application/ld+json">]: [script.string] is [None], or
    a text that [json.loads] rejects, or a text that it parses. *)
Inductive ld_script :=
| LdNoString
| LdMalformed
| LdJson (v : json).

(** One [<li>] of an HTML breadcrumb container: its first [<a>], if any, with
    the stripped text and the [href] attribute, and the stripped text of the
    item itself. *)
Record crumb_li := {
  li_anchor : option (string * option string);
  li_text : string
}.

(** A response body, as the views the program takes of it. *)
Record document := {
  doc_hrefs : list string;
  doc_title : option string;
  doc_meta_description : option (option string);
  doc_h1 : option string;
  doc_canonical : option (option string);
  doc_json_ld : list ld_script;
  doc_breadcrumb_items : option (list crumb_li);
  doc_sitemap_locs : list (option string)
}.

(** The outcome of one [requests.get]: a response with its status code, or a
    [requests.RequestException] with its text. *)
Inductive response :=
| Response (status_code : Z) (doc : document)
| ConnectionFailed (msg : string).

(** The call sites of [requests.get]. *)
Inductive site := SeedProbe | Traverse | Validate | Sitemap | Metadata.

#[global] Instance site_eq_dec : EqDecision site.
Proof. solve_decision. Defined.

Abbreviation event := (site * string * response)%type.

Definition event_site (e : event) : site := e.1.1.
Definition event_url (e : event) : string := e.1.2.
Definition event_response (e : event) : response := e.2.

(** The requests of one call site, in the order they were made. *)
Definition requests_at (c : site) (tr : list event) : list event :=
  filter (λ e, event_site e = c) tr.

Inductive exn :=
| RequestException (msg : string)
| AttributeError
| KeyError
| TypeError.

Inductive result (A : Type) :=
| Ok (a : A)
| Raise (e : exn).
Arguments Ok {A} a.
Arguments Raise {A} e.

Abbreviation edge := (string * string)%type.

Inductive status_outcome :=
| StatusCode (code : Z)
| RequestError (text : string).

Abbreviation broken_link := (string * string * status_outcome)%type.

(** The seven values [get_meta_data] returns. *)
Record meta_data := {
  md_title : option string;
  md_title_length : nat;
  md_meta_description : option string;
  md_meta_description_length : nat;
  md_h1_title : option string;
  md_canonical_url : option string;
  md_breadcrumbs : option string
}.

(** One value of the [results] dict. *)
Record page_row := {
  link : string;
  title : option string;
  title_length : nat;
  meta_description : option string;
  meta_description_length : nat;
  h1_title : option string;
  canonical_url : option string;
  breadcrumbs : option string;
  in_sitemap : bool
}.

(** What [scan_and_check_links] gives its caller: the pair of the rows and
    the broken links, or an error text, or an exception it does not catch. *)
Inductive outcome :=
| Report (rows : list page_row) (broken : list broken_link)
| ErrorText (text : string)
| Uncaught (e : exn).

(** ["#" in link] *)
Fixpoint contains_hash (s : string) : bool :=
  match s with
  | EmptyString => false
  | String c rest => if Ascii.eqb c "#"%char then true else contains_hash rest
  end.

(** A text is held as its UTF-8 encoding, one [ascii] per byte.  A byte
    [10xxxxxx] continues a character; any other byte starts one. *)
Definition is_continuation (c : ascii) : bool :=
  match c with
  | Ascii _ _ _ _ _ _ b6 b7 => b7 && negb b6
  end.

(** [len(s)]: the number of characters of the text. *)
Fixpoint py_len (s : string) : nat :=
  match s with
  | EmptyString => 0%nat
  | String c rest => if is_continuation c then py_len rest else S (py_len rest)
  end.

(** [len(x) if x else 0] *)
Definition len_or_zero (x : option string) : nat :=
  match x with
  | Some s => if String.eqb s "" then 0%nat else py_len s
  | None => 0%nat
  end.

(** [sep.join(parts)] *)
Fixpoint join (sep : string) (parts : list string) : string :=
  match parts with
  | [] => ""
  | [p] => p
  | p :: rest => p +:+ sep +:+ join sep rest
  end.

Definition sitemap_paths : list string :=
  ["/sitemap.xml"; "/en/sitemap.xml"; "/es/sitemap.xml"].

Section Analyzer.

(** The network: a state and what one GET does to it. *)
Variable W : Type.
Variable http_get : string → W → response * W.

(** [urllib.parse]: [urlparse(u).netloc], [urlparse(u).path], [urljoin],
    on the inputs on which they return. *)
Variable netloc : string → string.
Variable url_path : string → string.
Variable urljoin : string → string → string.

(** [str(v)] for a list or a dict. *)
Variable repr_composite : json → string.

Record net := { world : W; trace : list event }.

Definition requests_get (c : site) (url : string) (n : net) : response * net :=
  let (r, w) := http_get url (world n) in
  (r, {| world := w; trace := trace n ++ [(c, url, r)] |}).

(** *** extract_clickable_links_recursive *)

(** The loop over [soup.find_all('a', href=True)]. *)
Fixpoint page_links (base_url base_domain : string) (visited : gset string)
    (hrefs : list string) : list edge :=
  match hrefs with
  | [] => []
  | link :: rest =>
      if contains_hash link then page_links base_url base_domain visited rest
      else
        let full_link := urljoin base_url link in
        let link_domain := netloc full_link in
        if bool_decide (link_domain = base_domain)
           && bool_decide (full_link ∉ visited)
        then (full_link, base_url) :: page_links base_url base_domain visited rest
        else page_links base_url base_domain visited rest
  end.

(** The loop over [links.copy()]: the visited set is shared by all calls. *)
Fixpoint expand (rec : string → gset string → net → list edge * gset string * net)
    (todo : list edge) (visited : gset string) (n : net)
    : list edge * gset string * net :=
  match todo with
  | [] => ([], visited, n)
  | (internal_link, _) :: rest =>
      let '(more_links, visited1, n1) := rec internal_link visited n in
      let '(later, visited2, n2) := expand rec rest visited1 n1 in
      (more_links ++ later, visited2, n2)
  end.

(** The result is the returned list together with the visited set and the
    network as the call leaves them.  [depth] only feeds a commented-out
    print and is left out. *)
Fixpoint extract_clickable_links_recursive (max_depth : nat) (base_url : string)
    (visited : gset string) (n : net) : list edge * gset string * net :=
  let base_domain := netloc base_url in
  if bool_decide (base_url ∈ visited) then ([], visited, n)
  else
    let visited := {[base_url]} ∪ visited in
    let (r, n) := requests_get Traverse base_url n in
    match r with
    | ConnectionFailed _ => ([], visited, n)
    | Response status_code doc =>
        if negb (status_code =? 200) then ([], visited, n)
        else
          let links := page_links base_url base_domain visited (doc_hrefs doc) in
          match max_depth with
          | O => (links, visited, n)
          | S d =>
              let '(more, visited, n) :=
                expand (extract_clickable_links_recursive d) links visited n in
              (links ++ more, visited, n)
          end
    end.

(** *** check_for_error_links *)

Fixpoint check_for_error_links (links : list edge) (n : net)
    : list broken_link * net :=
  match links with
  | [] => ([], n)
  | (link, parent_url) :: rest =>
      let (r, n1) := requests_get Validate link n in
      let found :=
        match r with
        | Response status_code _ =>
            if status_code =? 404 then [(link, parent_url, StatusCode 404)]
            else if negb (status_code =? 200)
                 then [(link, parent_url, StatusCode status_code)]
                 else []
        | ConnectionFailed e =>
            [(link, parent_url, RequestError ("Request error: " +:+ e))]
        end in
      let (later, n2) := check_for_error_links rest n1 in
      (found ++ later, n2)
  end.

(** *** get_sitemap_urls *)

(** The loop over [soup.find_all("url")]; [url.loc] is [None] for an entry
    without a [<loc>], and [None.get_text()] raises. *)
Fixpoint sitemap_entries (base_url : string) (entries : list (option string))
    (urls : gset string) : result (gset string) :=
  match entries with
  | [] => Ok urls
  | None :: _ => Raise AttributeError
  | Some loc :: rest =>
      let full_url := urljoin base_url loc in
      sitemap_entries base_url rest ({[full_url]} ∪ urls)
  end.

Fixpoint probe_sitemaps (base_url : string) (paths : list string)
    (all_urls : gset string) (n : net) : result (gset string) * net :=
  match paths with
  | [] => (Ok all_urls, n)
  | sitemap_path :: rest =>
      let sitemap_url := urljoin base_url sitemap_path in
      let (r, n1) := requests_get Sitemap sitemap_url n in
      match r with
      | ConnectionFailed _ => probe_sitemaps base_url rest all_urls n1
      | Response status_code doc =>
          if negb (status_code =? 200) then probe_sitemaps base_url rest all_urls n1
          else
            match sitemap_entries base_url (doc_sitemap_locs doc) ∅ with
            | Raise e => (Raise e, n1)
            | Ok urls => probe_sitemaps base_url rest (all_urls ∪ urls) n1
            end
      end
  end.

Definition get_sitemap_urls (base_url : string) (n : net)
    : result (gset string) * net :=
  probe_sitemaps base_url sitemap_paths ∅ n.

(** *** get_meta_data *)

(** [d.get(key)] on a parsed dict. *)
Fixpoint dict_get (key : string) (kv : list (string * json)) : option json :=
  match kv with
  | [] => None
  | (k, v) :: rest => if String.eqb k key then Some v else dict_get key rest
  end.

(** [str(x)] inside an f-string, for [x] the result of [item.get(..)]. *)
Definition py_str (x : option json) : string :=
  match x with
  | None | Some JNull => "None"
  | Some (JBool true) => "True"
  | Some (JBool false) => "False"
  | Some (JInt z) => pretty z
  | Some (JStr s) => s
  | Some v => repr_composite v
  end.

Fixpoint chars (s : string) : list json :=
  match s with
  | EmptyString => []
  | String c rest => JStr (String c EmptyString) :: chars rest
  end.

(** What [for item in v] ranges over. *)
Definition py_iter (v : json) : result (list json) :=
  match v with
  | JArr l => Ok l
  | JObj kv => Ok (JStr <$> kv.*1)
  | JStr s => Ok (chars s)
  | _ => Raise TypeError
  end.

(** The loop over [json_ld_data["itemListElement"]]. *)
Fixpoint breadcrumb_items (items : list json) (breadcrumbs : list string)
    : result (list string) :=
  match items with
  | [] => Ok breadcrumbs
  | JObj item :: rest =>
      let position := dict_get "position" item in
      let name := dict_get "name" item in
      let url := dict_get "item" item in
      breadcrumb_items rest
        (breadcrumbs ++
           [py_str position +:+ ": " +:+ py_str name +:+ " (" +:+ py_str url +:+ ")"])
  | _ :: _ => Raise AttributeError
  end.

(** The loop over the JSON-LD scripts: only [json.JSONDecodeError] is caught. *)
Fixpoint json_ld_breadcrumbs (scripts : list ld_script) (breadcrumbs : list string)
    : result (list string) :=
  match scripts with
  | [] => Ok breadcrumbs
  | LdNoString :: _ => Raise TypeError
  | LdMalformed :: rest => json_ld_breadcrumbs rest breadcrumbs
  | LdJson (JObj json_ld_data) :: rest =>
      match dict_get "@type" json_ld_data with
      | Some (JStr ty) =>
          if String.eqb ty "BreadcrumbList" then
            match dict_get "itemListElement" json_ld_data with
            | None => Raise KeyError
            | Some v =>
                match py_iter v with
                | Raise e => Raise e
                | Ok items =>
                    match breadcrumb_items items breadcrumbs with
                    | Raise e => Raise e
                    | Ok breadcrumbs => json_ld_breadcrumbs rest breadcrumbs
                    end
                end
            end
          else json_ld_breadcrumbs rest breadcrumbs
      | _ => json_ld_breadcrumbs rest breadcrumbs
      end
  | LdJson _ :: _ => Raise AttributeError
  end.

(** The fallback loop, [enumerate(breadcrumb_items, 1)]. *)
Fixpoint html_breadcrumbs (index : nat) (items : list crumb_li) : list string :=
  match items with
  | [] => []
  | item :: rest =>
      let '(breadcrumb_name, breadcrumb_url) :=
        match li_anchor item with
        | Some (text, href) => (text, href)
        | None => (li_text item, None)
        end in
      let shown :=
        match breadcrumb_url with
        | Some u => if String.eqb u "" then "No URL" else u
        | None => "No URL"
        end in
      (pretty index +:+ ": " +:+ breadcrumb_name +:+ " (" +:+ shown +:+ ")")
        :: html_breadcrumbs (S index) rest
  end.

(** The part of [get_meta_data] after the page is fetched and parsed. *)
Definition extract_meta (doc : document) : result meta_data :=
  let title := doc_title doc in
  let title_length := len_or_zero title in
  let meta_description := mjoin (doc_meta_description doc) in
  let meta_description_length := len_or_zero meta_description in
  let h1_title := doc_h1 doc in
  let canonical_url := mjoin (doc_canonical doc) in
  match json_ld_breadcrumbs (doc_json_ld doc) [] with
  | Raise e => Raise e
  | Ok breadcrumbs =>
      let breadcrumbs :=
        match breadcrumbs with
        | [] =>
            match doc_breadcrumb_items doc with
            | Some items => html_breadcrumbs 1 items
            | None => []
            end
        | _ => breadcrumbs
        end in
      let breadcrumbs_text :=
        match breadcrumbs with
        | [] => None
        | _ => Some (join " > " breadcrumbs)
        end in
      Ok {| md_title := title; md_title_length := title_length;
            md_meta_description := meta_description;
            md_meta_description_length := meta_description_length;
            md_h1_title := h1_title; md_canonical_url := canonical_url;
            md_breadcrumbs := breadcrumbs_text |}
  end.

(** [requests.get(link)] is outside any [try]: its exception leaves the
    function.  The status code is not looked at. *)
Definition get_meta_data (link : string) (n : net) : result meta_data * net :=
  let (r, n1) := requests_get Metadata link n in
  match r with
  | ConnectionFailed e => (Raise (RequestException e), n1)
  | Response _ doc => (extract_meta doc, n1)
  end.

(** *** scan_and_check_links *)

Definition make_row (url : string) (m : meta_data) (flag : bool) : page_row :=
  {| link := url; title := md_title m; title_length := md_title_length m;
     meta_description := md_meta_description m;
     meta_description_length := md_meta_description_length m;
     h1_title := md_h1_title m; canonical_url := md_canonical_url m;
     breadcrumbs := md_breadcrumbs m; in_sitemap := flag |}.

(** The loop over [clickable_links]; [results] is the dict, as the list of
    its items in insertion order. *)
Fixpoint collect_rows (sitemap_relative_paths : gset string)
    (clickable_links : list edge) (results : list (string * page_row)) (n : net)
    : result (list (string * page_row)) * net :=
  match clickable_links with
  | [] => (Ok results, n)
  | link_tuple :: rest =>
      let link := link_tuple.1 in
      if bool_decide (link ∉ results.*1) then
        let (m, n1) := get_meta_data link n in
        match m with
        | Raise e => (Raise e, n1)
        | Ok m =>
            let link_path := url_path link in
            collect_rows sitemap_relative_paths rest
              (results ++
                 [(link, make_row link m
                           (bool_decide (link_path ∈ sitemap_relative_paths)))])
              n1
        end
      else collect_rows sitemap_relative_paths rest results n
  end.

(** [except requests.exceptions.RequestException as e: return f"Error: {e}"];
    any other exception passes through. *)
Definition top_level (e : exn) : outcome :=
  match e with
  | RequestException msg => ErrorText ("Error: " +:+ msg)
  | _ => Uncaught e
  end.

Definition scan_and_check_links (url : string) (max_depth : nat) (n : net)
    : outcome * net :=
  let (r, n) := requests_get SeedProbe url n in
  match r with
  | ConnectionFailed e => (top_level (RequestException e), n)
  | Response status_code _ =>
      if negb (status_code =? 200)
      then (ErrorText ("Error: Unable to access " +:+ url), n)
      else
        let '(clickable_links, _, n) :=
          extract_clickable_links_recursive max_depth url ∅ n in
        let (broken_links, n) := check_for_error_links clickable_links n in
        let (sitemap_urls, n) := get_sitemap_urls url n in
        match sitemap_urls with
        | Raise e => (top_level e, n)
        | Ok sitemap_urls =>
            let main_url_path := url_path url in
            let sitemap_relative_paths : gset string :=
              set_map url_path sitemap_urls in
            let (m, n) := get_meta_data url n in
            match m with
            | Raise e => (top_level e, n)
            | Ok m =>
                let results :=
                  [(url, make_row url m
                           (bool_decide (main_url_path ∈ sitemap_relative_paths)))] in
                let (results, n) :=
                  collect_rows sitemap_relative_paths clickable_links results n in
                match results with
                | Raise e => (top_level e, n)
                | Ok results => (Report results.*2 broken_links, n)
                end
            end
        end
  end.

End Analyzer.

Arguments world {W} n.
Arguments trace {W} n.

(** ** The program when [urllib.parse] raises

    [urlparse] and [urljoin] raise [ValueError] on malformed input (an
    unmatched bracket in the host, for one), and the program catches only
    [requests.RequestException].  The definitions above are the program
    on the inputs on which neither raises.  Those below are the program
    on every input: two more parameters say where [urlparse] and [urljoin]
    raise, and [netloc], [url_path] and [urljoin] are what they return
    elsewhere.  The functions that do not call [urllib.parse]
    ([check_for_error_links], [get_meta_data]) are the ones above. *)
Module Raising.

Inductive error :=
| ValueError
| Other (e : exn).

Inductive attempt (A : Type) :=
| Returns (a : A)
| Raises (e : error).
Arguments Returns {A} a.
Arguments Raises {A} e.

(** What [scan_and_check_links] does: it returns the pair of the rows and
    the broken links, or an error text, or lets an exception through. *)
Inductive run :=
| Reported (rows : list page_row) (broken : list broken_link)
| ErrorReturned (text : string)
| Escapes (e : error).

Section Program.

Variable W : Type.
Variable http_get : string → W → response * W.
Variable netloc : string → string.
Variable url_path : string → string.
Variable urljoin : string → string → string.
Variable repr_composite : json → string.

(** [urlparse(u)] raises [ValueError]; [urljoin(base, ref)] raises
    [ValueError]. *)
Variable urlparse_raises : string → bool.
Variable urljoin_raises : string → string → bool.

(** *** extract_clickable_links_recursive *)

(** The loop over [soup.find_all('a', href=True)]. *)
Fixpoint page_links (base_url base_domain : string) (visited : gset string)
    (hrefs : list string) : attempt (list edge) :=
  match hrefs with
  | [] => Returns []
  | link :: rest =>
      if contains_hash link then page_links base_url base_domain visited rest
      else if urljoin_raises base_url link then Raises ValueError
      else
        let full_link := urljoin base_url link in
        if urlparse_raises full_link then Raises ValueError
        else
          let link_domain := netloc full_link in
          match page_links base_url base_domain visited rest with
          | Raises e => Raises e
          | Returns links =>
              if bool_decide (link_domain = base_domain)
                 && bool_decide (full_link ∉ visited)
              then Returns ((full_link, base_url) :: links)
              else Returns links
          end
  end.

(** The loop over [links.copy()]; an exception of a recursive call ends it. *)
Fixpoint expand
    (rec : string → gset string → net W → attempt (list edge) * gset string * net W)
    (todo : list edge) (visited : gset string) (n : net W)
    : attempt (list edge) * gset string * net W :=
  match todo with
  | [] => (Returns [], visited, n)
  | (internal_link, _) :: rest =>
      let '(more_links, visited1, n1) := rec internal_link visited n in
      match more_links with
      | Raises e => (Raises e, visited1, n1)
      | Returns more_links =>
          let '(later, visited2, n2) := expand rec rest visited1 n1 in
          match later with
          | Raises e => (Raises e, visited2, n2)
          | Returns later => (Returns (more_links ++ later), visited2, n2)
          end
      end
  end.

(** [urlparse(base_url)] comes first, before the visited set is looked at.
    With the list or the exception come the visited set and the network as
    the call leaves them. *)
Fixpoint extract_clickable_links_recursive (max_depth : nat) (base_url : string)
    (visited : gset string) (n : net W)
    : attempt (list edge) * gset string * net W :=
  if urlparse_raises base_url then (Raises ValueError, visited, n)
  else
    let base_domain := netloc base_url in
    if bool_decide (base_url ∈ visited) then (Returns [], visited, n)
    else
      let visited := {[base_url]} ∪ visited in
      let (r, n) := requests_get W http_get Traverse base_url n in
      match r with
      | ConnectionFailed _ => (Returns [], visited, n)
      | Response status_code doc =>
          if negb (status_code =? 200) then (Returns [], visited, n)
          else
            match page_links base_url base_domain visited (doc_hrefs doc) with
            | Raises e => (Raises e, visited, n)
            | Returns links =>
                match max_depth with
                | O => (Returns links, visited, n)
                | S d =>
                    let '(more, visited, n) :=
                      expand (extract_clickable_links_recursive d) links visited n in
                    match more with
                    | Raises e => (Raises e, visited, n)
                    | Returns more => (Returns (links ++ more), visited, n)
                    end
                end
            end
      end.

(** *** get_sitemap_urls *)

(** The loop over [soup.find_all("url")]. *)
Fixpoint sitemap_entries (base_url : string) (entries : list (option string))
    (urls : gset string) : attempt (gset string) :=
  match entries with
  | [] => Returns urls
  | None :: _ => Raises (Other AttributeError)
  | Some loc :: rest =>
      if urljoin_raises base_url loc then Raises ValueError
      else
        let full_url := urljoin base_url loc in
        sitemap_entries base_url rest ({[full_url]} ∪ urls)
  end.

(** [urljoin(base_url, sitemap_path)] is outside the [try]. *)
Fixpoint probe_sitemaps (base_url : string) (paths : list string)
    (all_urls : gset string) (n : net W) : attempt (gset string) * net W :=
  match paths with
  | [] => (Returns all_urls, n)
  | sitemap_path :: rest =>
      if urljoin_raises base_url sitemap_path then (Raises ValueError, n)
      else
        let sitemap_url := urljoin base_url sitemap_path in
        let (r, n1) := requests_get W http_get Sitemap sitemap_url n in
        match r with
        | ConnectionFailed _ => probe_sitemaps base_url rest all_urls n1
        | Response status_code doc =>
            if negb (status_code =? 200)
            then probe_sitemaps base_url rest all_urls n1
            else
              match sitemap_entries base_url (doc_sitemap_locs doc) ∅ with
              | Raises e => (Raises e, n1)
              | Returns urls => probe_sitemaps base_url rest (all_urls ∪ urls) n1
              end
        end
  end.

Definition get_sitemap_urls (base_url : string) (n : net W)
    : attempt (gset string) * net W :=
  probe_sitemaps base_url sitemap_paths ∅ n.

(** *** scan_and_check_links *)

(** The loop over [clickable_links]: [urlparse(link).path] follows
    [get_meta_data(link)]. *)
Fixpoint collect_rows (sitemap_relative_paths : gset string)
    (clickable_links : list edge) (results : list (string * page_row)) (n : net W)
    : attempt (list (string * page_row)) * net W :=
  match clickable_links with
  | [] => (Returns results, n)
  | link_tuple :: rest =>
      let link := link_tuple.1 in
      if bool_decide (link ∉ results.*1) then
        let (m, n1) := get_meta_data W http_get repr_composite link n in
        match m with
        | Raise e => (Raises (Other e), n1)
        | Ok m =>
            if urlparse_raises link then (Raises ValueError, n1)
            else
              let link_path := url_path link in
              collect_rows sitemap_relative_paths rest
                (results ++
                   [(link, make_row link m
                             (bool_decide (link_path ∈ sitemap_relative_paths)))])
                n1
        end
      else collect_rows sitemap_relative_paths rest results n
  end.

(** [except requests.exceptions.RequestException as e: return f"Error: {e}"] *)
Definition top_level (e : error) : run :=
  match e with
  | Other (RequestException msg) => ErrorReturned ("Error: " +:+ msg)
  | _ => Escapes e
  end.

Definition scan_and_check_links (url : string) (max_depth : nat) (n : net W)
    : run * net W :=
  let (r, n) := requests_get W http_get SeedProbe url n in
  match r with
  | ConnectionFailed e => (top_level (Other (RequestException e)), n)
  | Response status_code _ =>
      if negb (status_code =? 200)
      then (ErrorReturned ("Error: Unable to access " +:+ url), n)
      else
        let '(clickable_links, _, n) :=
          extract_clickable_links_recursive max_depth url ∅ n in
        match clickable_links with
        | Raises e => (top_level e, n)
        | Returns clickable_links =>
            let (broken_links, n) :=
              check_for_error_links W http_get clickable_links n in
            let (sitemap_urls, n) := get_sitemap_urls url n in
            match sitemap_urls with
            | Raises e => (top_level e, n)
            | Returns sitemap_urls =>
                if urlparse_raises url then (top_level ValueError, n)
                else
                  let main_url_path := url_path url in
                  if bool_decide
                       (set_Exists (λ sitemap_url, urlparse_raises sitemap_url = true)
                                   sitemap_urls)
                  then (top_level ValueError, n)
                  else
                    let sitemap_relative_paths : gset string :=
                      set_map url_path sitemap_urls in
                    let (m, n) := get_meta_data W http_get repr_composite url n in
                    match m with
                    | Raise e => (top_level (Other e), n)
                    | Ok m =>
                        let results :=
                          [(url, make_row url m
                                   (bool_decide
                                      (main_url_path ∈ sitemap_relative_paths)))] in
                        let (results, n) :=
                          collect_rows sitemap_relative_paths clickable_links
                                       results n in
                        match results with
                        | Raises e => (top_level e, n)
                        | Returns results => (Reported results.*2 broken_links, n)
                        end
                    end
            end
        end
  end.

End Program.

(** The entry of a sitemap at which its loop raises, and with what: the
    first entry without [<loc>] or with a [<loc>] that [urljoin] rejects. *)
Fixpoint entry_failure (urljoin_raises : string → string → bool)
    (base_url : string) (entries : list (option string)) : option error :=
  match entries with
  | [] => None
  | None :: _ => Some (Other AttributeError)
  | Some loc :: rest =>
      if urljoin_raises base_url loc then Some ValueError
      else entry_failure urljoin_raises base_url rest
  end.

(** A hyperlink on which the loop over the hyperlinks of the page at
    [base_url] raises: it has no [#], and [urljoin] rejects it or [urlparse]
    rejects what it resolves to. *)
Definition rejected (urljoin : string → string → string)
    (urlparse_raises : string → bool) (urljoin_raises : string → string → bool)
    (base_url href : string) : bool :=
  negb (contains_hash href)
  && (urljoin_raises base_url href || urlparse_raises (urljoin base_url href)).

(** The list a call has returned; none when it raised. *)
Definition returned {A : Type} (a : attempt (list A)) : list A :=
  match a with
  | Returns l => l
  | Raises _ => []
  end.

(** The same result in the program written without [ValueError], when
    there is one. *)
Definition plain {A : Type} (a : attempt A) : option (result A) :=
  match a with
  | Returns a => Some (Ok a)
  | Raises (Other e) => Some (Raise e)
  | Raises ValueError => None
  end.

Definition plain_run (o : run) : option outcome :=
  match o with
  | Reported rows broken => Some (Report rows broken)
  | ErrorReturned text => Some (ErrorText text)
  | Escapes (Other e) => Some (Uncaught e)
  | Escapes ValueError => None
  end.

End Raising.

(** ** Concrete sites

    Worlds that answer every GET from a fixed table, with URLs of the one
    shape [http://host/path], on which the functions below are what
    [urllib.parse] computes. *)
Module Sites.

(** The text after [http://], split at its first [/]. *)
Fixpoint split_slash (s : string) : string * string :=
  match s with
  | EmptyString => ("", "")
  | String c rest =>
      if Ascii.eqb c "/"%char then ("", s)
      else let (h, p) := split_slash rest in (String c h, p)
  end.

Definition after_scheme (u : string) : string :=
  match u with
  | String "h" (String "t" (String "t" (String "p" (String ":" (String "/" (String "/" rest)))))) => rest
  | _ => ""
  end.

Definition netloc (u : string) : string := (split_slash (after_scheme u)).1.
Definition url_path (u : string) : string := (split_slash (after_scheme u)).2.

(** [urljoin(base, ref)] for an absolute [ref], and for a [ref] that is an
    absolute path. *)
Definition urljoin (base ref : string) : string :=
  match ref with
  | String "/" _ => "http://" +:+ netloc base +:+ ref
  | _ => ref
  end.

Definition repr_composite (_ : json) : string := "".

Definition page (hrefs : list string) : document :=
  {| doc_hrefs := hrefs; doc_title := None; doc_meta_description := None;
     doc_h1 := None; doc_canonical := None; doc_json_ld := [];
     doc_breadcrumb_items := None; doc_sitemap_locs := [] |}.

Definition not_found : response := Response 404 (page []).

(** A world without state: the same table answers every request. *)
Definition static (table : string → response) (u : string) (w : unit)
    : response * unit := (table u, w).

Definition start : net unit := {| world := tt; trace := [] |}.

Definition crawl (table : string → response) :=
  extract_clickable_links_recursive unit (static table) netloc urljoin.

Definition validate (table : string → response) :=
  check_for_error_links unit (static table).

Definition scan (table : string → response) :=
  scan_and_check_links unit (static table) netloc url_path urljoin repr_composite.

(** A → B → A *)
Definition cycle (u : string) : response :=
  if String.eqb u "http://x/a" then Response 200 (page ["http://x/b"])
  else if String.eqb u "http://x/b" then Response 200 (page ["http://x/a"])
  else not_found.

(** A seed whose page carries the same hyperlink twice. *)
Definition twice (u : string) : response :=
  if String.eqb u "http://x/"
  then Response 200 (page ["http://x/b"; "http://x/b"])
  else if String.eqb u "http://x/b" then Response 200 (page [])
  else not_found.

(** A seed with one link, to a host that does not answer. *)
Definition dead_link (u : string) : response :=
  if String.eqb u "http://x/" then Response 200 (page ["http://x/b"])
  else if String.eqb u "http://x/b" then ConnectionFailed "unreachable"
  else not_found.

Definition sitemap (locs : list (option string)) : document :=
  {| doc_hrefs := []; doc_title := None; doc_meta_description := None;
     doc_h1 := None; doc_canonical := None; doc_json_ld := [];
     doc_breadcrumb_items := None; doc_sitemap_locs := locs |}.

(** A seed with one link and a root sitemap that declares the linked page
    only; the two other sitemap locations are missing. *)
Definition with_sitemap (u : string) : response :=
  if String.eqb u "http://x/" then Response 200 (page ["http://x/b"])
  else if String.eqb u "http://x/b" then Response 200 (page [])
  else if String.eqb u "http://x/sitemap.xml"
       then Response 200 (sitemap [Some "http://x/b"])
  else not_found.

Definition with_sitemap_rows : list page_row :=
  Eval vm_compute in
    match (scan with_sitemap "http://x/" 2 start).1 with
    | Report rows _ => rows
    | _ => []
    end.

Definition list_item (position : Z) (name url : string) : list (string * json) :=
  [("@type", JStr "ListItem"); ("position", JInt position);
   ("name", JStr name); ("item", JStr url)].

Definition breadcrumb_list (items : list (list (string * json))) : ld_script :=
  LdJson (JObj [("@context", JStr "https://schema.org");
                ("@type", JStr "BreadcrumbList");
                ("itemListElement", JArr (JObj <$> items))]).

Definition with_json_ld (scripts : list ld_script) : document :=
  {| doc_hrefs := []; doc_title := None; doc_meta_description := None;
     doc_h1 := None; doc_canonical := None; doc_json_ld := scripts;
     doc_breadcrumb_items := None; doc_sitemap_locs := [] |}.

Definition items_in_order : list (list (string * json)) :=
  [list_item 1 "A" "urlA"; list_item 2 "B" "urlB"; list_item 3 "C" "urlC"].

(** The same three items, the array not in the order of the positions. *)
Definition items_out_of_order : list (list (string * json)) :=
  [list_item 2 "B" "urlB"; list_item 1 "A" "urlA"; list_item 3 "C" "urlC"].


(** A page with a title of four characters, five bytes in UTF-8, a
    description tag without [content], a canonical link and one JSON-LD
    text that does not parse. *)
Definition landing : document :=
  {| doc_hrefs := []; doc_title := Some "Café";
     doc_meta_description := Some None; doc_h1 := None;
     doc_canonical := Some (Some "http://x/"); doc_json_ld := [LdMalformed];
     doc_breadcrumb_items := None; doc_sitemap_locs := [] |}.

(** A page without JSON-LD whose breadcrumb container has a linked item
    and a plain one. *)
Definition with_html_breadcrumbs : document :=
  {| doc_hrefs := []; doc_title := None; doc_meta_description := None;
     doc_h1 := None; doc_canonical := None; doc_json_ld := [];
     doc_breadcrumb_items :=
       Some [ {| li_anchor := Some ("Home", Some "http://x/"); li_text := "Home" |};
              {| li_anchor := None; li_text := "Current Page" |} ];
     doc_sitemap_locs := [] |}.

(** A page whose second JSON-LD script is an array of objects. *)
Definition with_json_ld_array : document :=
  with_json_ld [LdMalformed; LdJson (JArr [JObj [("@type", JStr "WebSite")]])].

(** The site with a root sitemap, one of whose entries has no [<loc>]. *)
Definition with_bad_sitemap (u : string) : response :=
  if String.eqb u "http://x/sitemap.xml"
  then Response 200 (sitemap [Some "http://x/b"; None])
  else with_sitemap u.

(** A seed that links to [b] and to [c]; [b] links to [c]; [c] is missing. *)
Definition with_missing_page (u : string) : response :=
  if String.eqb u "http://x/"
  then Response 200 (page ["http://x/b"; "http://x/c"])
  else if String.eqb u "http://x/b" then Response 200 (page ["http://x/c"])
  else not_found.

Definition with_missing_page_rows : list page_row :=
  Eval vm_compute in
    match (scan with_missing_page "http://x/" 2 start).1 with
    | Report rows _ => rows
    | _ => []
    end.

Definition with_missing_page_broken : list broken_link :=
  Eval vm_compute in
    match (scan with_missing_page "http://x/" 2 start).1 with
    | Report _ broken => broken
    | _ => []
    end.

Fixpoint has_char (c : ascii) (s : string) : bool :=
  match s with
  | EmptyString => false
  | String c' rest => Ascii.eqb c c' || has_char c rest
  end.

(** [urlparse] rejects a URL whose host has one square bracket without the
    other, as [http://[] has. *)
Definition urlparse_raises (u : string) : bool :=
  xorb (has_char "[" (netloc u)) (has_char "]" (netloc u)).

(** [urljoin] parses both its arguments, unless one of them is empty. *)
Definition urljoin_raises (base ref : string) : bool :=
  match base, ref with
  | EmptyString, _ | _, EmptyString => false
  | _, _ => urlparse_raises base || urlparse_raises ref
  end.

Definition checked_crawl (table : string → response) :=
  Raising.extract_clickable_links_recursive unit (static table) netloc urljoin
    urlparse_raises urljoin_raises.

Definition checked_sitemaps (table : string → response) :=
  Raising.get_sitemap_urls unit (static table) urljoin urljoin_raises.

Definition checked_scan (table : string → response) :=
  Raising.scan_and_check_links unit (static table) netloc url_path urljoin
    repr_composite urlparse_raises urljoin_raises.

(** A seed whose page links to [b] and carries a hyperlink with an
    unmatched bracket. *)
Definition with_bad_href (u : string) : response :=
  if String.eqb u "http://x/" then Response 200 (page ["http://x/b"; "http://["])
  else if String.eqb u "http://x/b" then Response 200 (page [])
  else not_found.

(** The site whose third sitemap has an entry without [<loc>]. *)
Definition with_bad_last_sitemap (u : string) : response :=
  if String.eqb u "http://x/es/sitemap.xml"
  then Response 200 (sitemap [None])
  else with_sitemap u.

(** The site with a root sitemap whose first [<loc>] has an unmatched
    bracket and whose second entry has no [<loc>]. *)
Definition with_bad_loc (u : string) : response :=
  if String.eqb u "http://x/sitemap.xml"
  then Response 200 (sitemap [Some "http://["; None])
  else with_sitemap u.

End Sites.

(** ** The spreadsheet export and the command line

    The parts of [create_google_spreadsheet] and of the main block that
    compute: the values written to the two sheets, the formatting
    requests, the normalisation of the URL typed in, and what the main
    block does with the result of [scan_and_check_links].  The calls to
    the Sheets and Drive services are not modelled. *)

(** A cell value: a string, an integer or [None]. *)
Inductive cell :=
| CStr (s : string)
| CInt (z : Z)
| CNone.

Definition opt_cell (x : option string) : cell :=
  match x with
  | Some s => CStr s
  | None => CNone
  end.

(** [column_config], the items of the dict in insertion order. *)
Definition column_config : list (string * Z) :=
  [("Link", 250); ("Title", 250); ("Title Characters", 100);
   ("Meta Description", 300); ("Meta Description Characters", 100);
   ("H1 Title", 300); ("Canonical URL", 250); ("Breadcrumbs", 300);
   ("In Sitemap", 100)].

Record dimension_range := {
  dr_sheetId : Z;
  dr_dimension : string;
  dr_startIndex : nat;
  dr_endIndex : nat
}.

Record grid_range := {
  gr_sheetId : Z;
  gr_startRowIndex : nat;
  gr_endRowIndex : nat;
  gr_startColumnIndex : nat;
  gr_endColumnIndex : nat
}.

(** The two [userEnteredFormat] values of the program: wrapped text, and
    the centred bold header on a grey background. *)
Inductive cell_format := WrapText | HeaderStyle.

(** The request bodies the program builds. *)
Inductive sheets_request :=
| UpdateDimensionProperties (range : dimension_range) (pixelSize : Z) (fields : string)
| RepeatCell (range : grid_range) (format : cell_format) (fields : string)
| FreezePanes (sheetId : Z) (frozenColumnCount frozenRowCount : nat) (fields : string).

(** The loop over [enumerate(column_config.items())], from [index] on. *)
Fixpoint column_width_requests_from (index : nat) (items : list (string * Z))
    : list sheets_request :=
  match items with
  | [] => []
  | (column_name, width) :: rest =>
      UpdateDimensionProperties
        {| dr_sheetId := 0; dr_dimension := "COLUMNS";
           dr_startIndex := index; dr_endIndex := index + 1 |}
        width "pixelSize"
      :: column_width_requests_from (S index) rest
  end.

Definition create_column_width_requests (column_config : list (string * Z))
    : list sheets_request :=
  column_width_requests_from 0 column_config.

(** [sheet_data] of [create_google_spreadsheet]. *)
Definition seo_sheet_data (data : list page_row) : list (list cell) :=
  [CStr "Link"; CStr "Title"; CStr "Title Characters"; CStr "Meta Description";
   CStr "Meta Description Characters"; CStr "H1 Title"; CStr "Canonical URL";
   CStr "Breadcrumbs"; CStr "In Sitemap"]
  :: ((λ result,
         [CStr (link result); opt_cell (title result);
          CInt (Z.of_nat (title_length result));
          opt_cell (meta_description result);
          CInt (Z.of_nat (meta_description_length result));
          opt_cell (h1_title result); opt_cell (canonical_url result);
          opt_cell (breadcrumbs result);
          CStr (if in_sitemap result then "Yes" else "No")]) <$> data).

(** [broken_links_data] of [create_google_spreadsheet]. *)
Definition broken_links_sheet_data (broken_links : list broken_link)
    : list (list cell) :=
  [CStr "Broken Link"; CStr "Parent URL"; CStr "Status"]
  :: ((λ b : broken_link,
         [CStr b.1.1; CStr b.1.2;
          match b.2 with
          | StatusCode code => CInt code
          | RequestError text => CStr text
          end]) <$> broken_links).

(** The [requests] of the last [batchUpdate] of
    [create_google_spreadsheet], for the ids the service gave the two
    sheets. *)
Definition format_requests (meta_data_sheet_id broken_links_sheet_id : Z)
    (sheet_data broken_links_data : list (list cell)) : list sheets_request :=
  create_column_width_requests column_config
  ++ [RepeatCell
        {| gr_sheetId := meta_data_sheet_id;
           gr_startRowIndex := 0; gr_endRowIndex := length sheet_data;
           gr_startColumnIndex := 0; gr_endColumnIndex := length column_config |}
        WrapText "userEnteredFormat.wrapStrategy"]
  ++ [RepeatCell
        {| gr_sheetId := broken_links_sheet_id;
           gr_startRowIndex := 0; gr_endRowIndex := length broken_links_data;
           gr_startColumnIndex := 0; gr_endColumnIndex := 3 |}
        WrapText "userEnteredFormat.wrapStrategy"]
  ++ ((λ sheet_id,
         RepeatCell
           {| gr_sheetId := sheet_id;
              gr_startRowIndex := 0; gr_endRowIndex := 1;
              gr_startColumnIndex := 0;
              gr_endColumnIndex :=
                if sheet_id =? meta_data_sheet_id then 9%nat else 3%nat |}
           HeaderStyle
           "userEnteredFormat(textFormat,horizontalAlignment,backgroundColor)")
        <$> [meta_data_sheet_id; broken_links_sheet_id])
  ++ ((λ sheet_id,
         FreezePanes sheet_id 1 1
           "gridProperties.frozenColumnCount,gridProperties.frozenRowCount")
        <$> [meta_data_sheet_id]).

(** [s.startswith(prefix)] *)
Definition startswith (s pre : string) : bool := String.prefix pre s.

(** The main block's treatment of the URL typed in, after [strip()]. *)
Definition normalize_url (url : string) : string :=
  if String.eqb url "" then "http://127.0.0.1:5000"
  else if startswith url "www." then "https://" +:+ url
  else if negb (startswith url "http://" || startswith url "https://")
       then "https://" +:+ url
  else url.

Inductive main_error :=
| ValueError
| Escaped (e : exn).

(** How the main block ends: with the call of [create_google_spreadsheet],
    with a printed text, or with an exception. *)
Inductive main_end :=
| SpreadsheetFor (data : list page_row) (broken : list broken_link) (email : string)
| Printed (text : string)
| Dies (e : main_error).

(** [link_results, broken_links = scan_and_check_links(url)] and the
    [isinstance] test that follows.  A returned text is unpacked
    character by character: two characters bind the two names, any other
    length raises [ValueError]. *)
Definition after_scan (result : outcome) (email_to_share_with : string)
    : main_end :=
  match result with
  | Report link_results broken_links =>
      SpreadsheetFor link_results broken_links email_to_share_with
  | ErrorText (String link_results (String _ EmptyString)) =>
      Printed (String link_results EmptyString)
  | ErrorText _ => Dies ValueError
  | Uncaught e => Dies (Escaped e)
  end.

(** ** Plain notions *)

(** One breadcrumb of the HTML fallback, numbered [k]. *)
Definition html_crumb (k : nat) (item : crumb_li) : string :=
  pretty k +:+ ": " +:+
  match li_anchor item with
  | Some (text, Some href) =>
      text +:+ " (" +:+ (if String.eqb href "" then "No URL" else href) +:+ ")"
  | Some (text, None) => text +:+ " (No URL)"
  | None => li_text item +:+ " (No URL)"
  end.

(** [l] without the elements of [seen] and without repetitions, each
    element at the place of its first occurrence. *)
Fixpoint first_occurrences (seen l : list string) : list string :=
  match l with
  | [] => []
  | x :: l =>
      if bool_decide (x ∈ seen) then first_occurrences seen l
      else x :: first_occurrences (seen ++ [x]) l
  end.

(** ** Notions used by the statements *)

Section Notions.

Context {W : Type}.
Variable http_get : string → W → response * W.
Variable netloc : string → string.
Variable url_path : string → string.
Variable urljoin : string → string → string.
Variable repr_composite : json → string.

(** [u] can be reached from [seed] by following links the traversal would
    follow: links without [#], to the host of the page that carries them,
    on a page that some state of the network serves with status 200. *)
Inductive reachable (seed : string) : string → Prop :=
| reach_seed : reachable seed seed
| reach_link u w doc href :
    reachable seed u →
    (http_get u w).1 = Response 200 doc →
    href ∈ doc_hrefs doc →
    contains_hash href = false →
    netloc (urljoin u href) = netloc u →
    reachable seed (urljoin u href).

(** What one call of the traversal, or one run of its loop over the links
    of a page, does: [roots] are the URLs it is started on, [v] the visited
    set it finds, [seen] a set no recorded target belongs to. *)
Definition traversal_step (roots : list string) (v seen : gset string)
    (n : net W) (res : list edge * gset string * net W) : Prop :=
  ∃ new : list event,
    trace res.2 = trace n ++ new ∧
    Forall (λ e, event_site e = Traverse) new ∧
    NoDup (event_url <$> new) ∧
    res.1.2 = v ∪ list_to_set (event_url <$> new) ∧
    (∀ u, u ∈ event_url <$> new → (u ∉ v) ∧ ∃ r, r ∈ roots ∧ reachable r u) ∧
    Forall (λ e : edge,
              (∃ r, r ∈ roots ∧ netloc e.1 = netloc r ∧ netloc e.2 = netloc r)
              ∧ e.1 ∉ seen) res.1.1.

(** Row [row] is what one metadata request [e] produced: the request was
    for the row's URL, it was answered, extraction succeeded on the answer,
    and the row holds the extracted values and the sitemap flag of its
    path. *)
Definition row_from (paths : gset string) (e : event) (row : page_row) : Prop :=
  event_site e = Metadata ∧ event_url e = link row ∧
  ∃ status doc m,
    event_response e = Response status doc ∧
    extract_meta repr_composite doc = Ok m ∧
    row = make_row (link row) m (bool_decide (url_path (link row) ∈ paths)).

(** One breadcrumb, as [get_meta_data] formats it. *)
Definition crumb (item : list (string * json)) : string :=
  py_str repr_composite (dict_get "position" item) +:+ ": " +:+
  py_str repr_composite (dict_get "name" item) +:+ " (" +:+
  py_str repr_composite (dict_get "item" item) +:+ ")".

(** The items a JSON-LD script contributes: none when its text does not
    parse or when it is an object of another type, the elements of its
    [itemListElement] array when it is a [BreadcrumbList]. *)
Inductive script_items : ld_script → list (list (string * json)) → Prop :=
| items_malformed : script_items LdMalformed []
| items_other kv :
    dict_get "@type" kv ≠ Some (JStr "BreadcrumbList") →
    script_items (LdJson (JObj kv)) []
| items_breadcrumbs kv items :
    dict_get "@type" kv = Some (JStr "BreadcrumbList") →
    dict_get "itemListElement" kv = Some (JArr (JObj <$> items)) →
    script_items (LdJson (JObj kv)) items.

(** Edge [e] was recorded on a page requested in [tr]: the traversal got
    the parent with status 200, and the target is the resolution of one of
    its hyperlinks without [#]. *)
Definition recorded_on (tr : list event) (e : edge) : Prop :=
  ∃ doc href,
    (Traverse, e.2, Response 200 doc) ∈ tr ∧
    href ∈ doc_hrefs doc ∧
    contains_hash href = false ∧
    e.1 = urljoin e.2 href.

(** Where the edges come from, and which pages are requested. *)
Definition provenance (roots : list string) (n : net W)
    (res : list edge * gset string * net W) : Prop :=
  ∃ new : list event,
    trace res.2 = trace n ++ new ∧
    Forall (recorded_on new) res.1.1 ∧
    Forall (λ e : edge, e.1 ≠ e.2) res.1.1 ∧
    ∀ u, u ∈ event_url <$> new → u ∈ roots ∨ u ∈ res.1.1.*1.

(** What [get_meta_data] makes of the answer to its request. *)
Definition meta_result (r : response) : result meta_data :=
  match r with
  | ConnectionFailed e => Raise (RequestException e)
  | Response _ doc => extract_meta repr_composite doc
  end.

(** The JSON-LD scripts on which [get_meta_data] raises: a script without
    text; a text that parses to something other than an object; a
    [BreadcrumbList] without [itemListElement], with one that cannot be
    iterated, or with an array that holds something other than an object
    after [good] well-formed items. *)
Inductive script_raises : ld_script → exn → Prop :=
| raises_no_string : script_raises LdNoString TypeError
| raises_not_object v :
    (∀ kv, v ≠ JObj kv) → script_raises (LdJson v) AttributeError
| raises_no_items kv :
    dict_get "@type" kv = Some (JStr "BreadcrumbList") →
    dict_get "itemListElement" kv = None →
    script_raises (LdJson (JObj kv)) KeyError
| raises_not_iterable kv v :
    dict_get "@type" kv = Some (JStr "BreadcrumbList") →
    dict_get "itemListElement" kv = Some v →
    v = JNull ∨ (∃ b, v = JBool b) ∨ (∃ z, v = JInt z) →
    script_raises (LdJson (JObj kv)) TypeError
| raises_item_not_object kv good bad more :
    dict_get "@type" kv = Some (JStr "BreadcrumbList") →
    dict_get "itemListElement" kv
      = Some (JArr ((JObj <$> good) ++ bad :: more)) →
    (∀ item, bad ≠ JObj item) →
    script_raises (LdJson (JObj kv)) AttributeError.

(** [u] is at most [k] links away from [seed], along links the traversal
    would follow. *)
Inductive within (seed : string) : nat → string → Prop :=
| within_seed k : within seed k seed
| within_link k u w doc href :
    within seed k u →
    (http_get u w).1 = Response 200 doc →
    href ∈ doc_hrefs doc →
    contains_hash href = false →
    netloc (urljoin u href) = netloc u →
    within seed (S k) (urljoin u href).

End Notions.

(** The state a run starts in: nothing requested yet. *)
Definition fresh {W : Type} (w : W) : net W := {| world := w; trace := [] |}.

(** The classification of one validated target, in the words of the
    specification: nothing for status 200; the code for 404 and for any
    other status; a diagnostic text for a transport failure. *)
Definition link_outcome (r : response) : option status_outcome :=
  match r with
  | Response 200 _ => None
  | Response 404 _ => Some (StatusCode 404)
  | Response code _ => Some (StatusCode code)
  | ConnectionFailed e => Some (RequestError ("Request error: " +:+ e))
  end.

Definition broken_record (er : edge * response) : option broken_link :=
  (λ o, (er.1.1, er.1.2, o)) <$> link_outcome er.2.

Definition record_edge (b : broken_link) : edge := (b.1.1, b.1.2).

(** The answers of the network to requests for [urls], made one after the
    other from the state [w], and the state they leave. *)
Fixpoint answers {W : Type} (http_get : string → W → response * W)
    (urls : list string) (w : W) : list response * W :=
  match urls with
  | [] => ([], w)
  | u :: urls =>
      let (r, w1) := http_get u w in
      let (rs, w2) := answers http_get urls w1 in
      (r :: rs, w2)
  end.

(** ** Properties *)

Section Properties.

Set Default Proof Using "Type".

Context {W : Type}.
Variable http_get : string → W → response * W.
Variable netloc : string → string.
Variable url_path : string → string.
Variable urljoin : string → string → string.
Variable repr_composite : json → string.

(** Drop the parameters a statement does not mention before automation
    can pick them up. *)
Local Ltac tidy :=
  try clear url_path; try clear repr_composite; try clear netloc;
  try clear urljoin; try clear http_get; try clear W.

Local Abbreviation crawl := (extract_clickable_links_recursive W http_get netloc urljoin).
Local Abbreviation links_of := (page_links netloc urljoin).
Local Abbreviation get := (requests_get W http_get).
Local Abbreviation validate := (check_for_error_links W http_get).
Local Abbreviation sitemaps := (get_sitemap_urls W http_get urljoin).
Local Abbreviation meta_of := (get_meta_data W http_get repr_composite).
Local Abbreviation reachable := (reachable http_get netloc urljoin).
Local Abbreviation traversal_step := (traversal_step http_get netloc urljoin).
Local Abbreviation row_from := (row_from url_path repr_composite).
Local Abbreviation crumb := (crumb repr_composite).
Local Abbreviation scan :=
  (scan_and_check_links W http_get netloc url_path urljoin repr_composite).

Lemma reachable_trans a b c : reachable a b → reachable b c → reachable a c.
Proof.
  intros Hab Hbc. induction Hbc as [|u w doc href _ IH Hget Hin Hhash Hdom].
  - exact Hab.
  - eapply reach_link; eauto.
Qed.

Lemma requests_get_spec c u (n : net W) r n' :
  get c u n = (r, n') →
  trace n' = trace n ++ [(c, u, r)] ∧ (http_get u (world n)).1 = r.
Proof.
  unfold requests_get. destruct (http_get u (world n)) as [r0 w0].
  intros [= <- <-]. done.
Qed.

Lemma elem_of_page_links base v hrefs t p :
  (t, p) ∈ links_of base (netloc base) v hrefs ↔
  p = base ∧ (t ∉ v) ∧ netloc t = netloc base ∧
  ∃ href, href ∈ hrefs ∧ contains_hash href = false ∧ t = urljoin base href.
Proof.
  induction hrefs as [|h hrefs IH]; simpl.
  - split; [by intros ?%elem_of_nil | by intros (_ & _ & _ & ? & ?%elem_of_nil & _)].
  - destruct (contains_hash h) eqn:Hh.
    + rewrite IH. split.
      * intros (-> & ? & ? & href & ? & ? & ->). repeat split; try done.
        exists href. by rewrite elem_of_cons; auto.
      * intros (-> & ? & ? & href & [->|?]%elem_of_cons & ? & ->); [congruence|].
        repeat split; try done. by exists href.
    + destruct (bool_decide (netloc (urljoin base h) = netloc base)
                && bool_decide (urljoin base h ∉ v)) eqn:Hk.
      * apply andb_true_iff in Hk as [Hd%bool_decide_eq_true Hv%bool_decide_eq_true].
        rewrite elem_of_cons, IH. split.
        -- intros [[= -> ->] | (-> & ? & ? & href & ? & ? & ->)].
           ++ repeat split; try done. exists h. by rewrite elem_of_cons; auto.
           ++ repeat split; try done. exists href. by rewrite elem_of_cons; auto.
        -- intros (-> & ? & ? & href & [->|?]%elem_of_cons & ? & ->); [by left|].
           right. repeat split; try done. by exists href.
      * rewrite IH. split.
        -- intros (-> & ? & ? & href & ? & ? & ->). repeat split; try done.
           exists href. by rewrite elem_of_cons; auto.
        -- intros (-> & Hv & Hd & href & [->|?]%elem_of_cons & ? & ->).
           ++ apply andb_false_iff in Hk as [Hk%bool_decide_eq_false
                                            | Hk%bool_decide_eq_false]; done.
           ++ repeat split; try done. by exists href.
Qed.

Lemma crawl_unfold d base v (n : net W) :
  crawl d base v n =
  if bool_decide (base ∈ v) then ([], v, n)
  else
    let (r, n1) := get Traverse base n in
    match r with
    | ConnectionFailed _ => ([], {[base]} ∪ v, n1)
    | Response status_code doc =>
        if negb (status_code =? 200) then ([], {[base]} ∪ v, n1)
        else
          let links := links_of base (netloc base) ({[base]} ∪ v) (doc_hrefs doc) in
          match d with
          | O => (links, {[base]} ∪ v, n1)
          | S d' =>
              let '(more, v2, n2) := expand W (crawl d') links ({[base]} ∪ v) n1 in
              (links ++ more, v2, n2)
          end
    end.
Proof. destruct d; reflexivity. Qed.

Lemma expand_step rec todo v (n : net W) :
  (∀ base v n, traversal_step [base] v ({[base]} ∪ v) n (rec base v n)) →
  traversal_step todo.*1 v v n (expand W rec todo v n).
Proof.
  tidy.
  intros Hrec. revert v n. induction todo as [|[t p] todo IH]; intros v n; simpl.
  - exists []. simpl. rewrite app_nil_r.
    split_and!; [done | constructor | constructor | by rewrite (right_id_L ∅ (∪)) | | constructor].
    by intros u ?%elem_of_nil.
  - specialize (Hrec t v n). destruct (rec t v n) as [[more v1] n1].
    specialize (IH v1 n1). destruct (expand W rec todo v1 n1) as [[later v2] n2].
    destruct Hrec as (new1 & Htr1 & Hs1 & Hnd1 & Hv1 & Hu1 & He1).
    destruct IH as (new2 & Htr2 & Hs2 & Hnd2 & Hv2 & Hu2 & He2).
    simpl in *. exists (new1 ++ new2). simpl. split_and!.
    + by rewrite Htr2, Htr1, app_assoc.
    + by apply Forall_app.
    + rewrite fmap_app. apply NoDup_app. split_and!; try done.
      intros u Hin1 Hin2. apply Hu2 in Hin2 as [Hn _]. apply Hn.
      rewrite Hv1. set_solver.
    + rewrite Hv2, Hv1, fmap_app, list_to_set_app_L. set_solver.
    + intros u. rewrite fmap_app, elem_of_app. intros [Hin|Hin].
      * apply Hu1 in Hin as [? (r & ->%list_elem_of_singleton & ?)].
        split; [done|]. exists t. by rewrite elem_of_cons; auto.
      * apply Hu2 in Hin as [? (r & ? & ?)].
        split; [set_solver|]. exists r. by rewrite elem_of_cons; auto.
    + apply Forall_app. split.
      * eapply Forall_impl; [exact He1|]. simpl.
        intros e [(r & ->%list_elem_of_singleton & ?) ?]. split; [|set_solver].
        exists t. by rewrite elem_of_cons; auto.
      * eapply Forall_impl; [exact He2|]. simpl.
        intros e [(r & ? & ?) ?]. split; [|set_solver].
        exists r. by rewrite elem_of_cons; auto.
Qed.

Lemma crawl_step d : ∀ base v (n : net W),
  traversal_step [base] v ({[base]} ∪ v) n (crawl d base v n).
Proof.
  tidy.
  assert (Hstop : ∀ base v (n n1 : net W) r,
    base ∉ v → get Traverse base n = (r, n1) →
    traversal_step [base] v ({[base]} ∪ v) n ([], {[base]} ∪ v, n1)).
  { intros base v n n1 r Hv [Htr _]%requests_get_spec.
    exists [(Traverse, base, r)]. simpl. split_and!; try done.
    - by repeat constructor.
    - apply NoDup_singleton.
    - set_solver.
    - intros u ->%list_elem_of_singleton. split; [done|].
      exists base. split; [by apply list_elem_of_singleton | constructor]. }
  induction d as [|d IH]; intros base v n; rewrite crawl_unfold;
    case_bool_decide as Hv.
  - exists []. simpl. rewrite app_nil_r.
    split_and!; [done | constructor | constructor | by rewrite (right_id_L ∅ (∪)) | | constructor].
    by intros u ?%elem_of_nil.
  - destruct (get Traverse base n) as [r n1] eqn:Hget.
    destruct r as [st doc|msg]; [|by eapply Hstop].
    destruct (st =? 200) eqn:Hst; simpl; [|by eapply Hstop].
    apply Z.eqb_eq in Hst as ->.
    destruct (Hstop base v n n1 _ Hv Hget) as (new & Htr & Hs & Hnd & Hv' & Hu & _).
    exists new. simpl. split_and!; try done.
    apply Forall_forall. intros [t p] (-> & ? & ? & _)%elem_of_page_links.
    simpl. split; [|done]. exists base. by rewrite list_elem_of_singleton.
  - exists []. simpl. rewrite app_nil_r.
    split_and!; [done | constructor | constructor | by rewrite (right_id_L ∅ (∪)) | | constructor].
    by intros u ?%elem_of_nil.
  - destruct (get Traverse base n) as [r n1] eqn:Hget.
    destruct r as [st doc|msg]; [|by eapply Hstop].
    destruct (st =? 200) eqn:Hst; simpl; [|by eapply Hstop].
    apply Z.eqb_eq in Hst as ->.
    pose proof (requests_get_spec _ _ _ _ _ Hget) as [Htr Hresp].
    set (links := links_of base (netloc base) ({[base]} ∪ v) (doc_hrefs doc)).
    pose proof (expand_step (crawl d) links ({[base]} ∪ v) n1 IH) as Hexp.
    destruct (expand W (crawl d) links ({[base]} ∪ v) n1) as [[more v2] n2].
    destruct Hexp as (new & Htr2 & Hs2 & Hnd2 & Hv2 & Hu2 & He2). simpl in *.
    assert (Hlinks : ∀ t, t ∈ links.*1 →
              netloc t = netloc base ∧ (t ∉ {[base]} ∪ v) ∧ reachable base t).
    { intros t ([t' p] & -> & Hin)%list_elem_of_fmap. simpl.
      apply elem_of_page_links in Hin as (-> & ? & ? & href & ? & ? & ->).
      split_and!; try done.
      eapply reach_link; eauto using reach_seed. }
    exists ((Traverse, base, Response 200 doc) :: new). simpl. split_and!.
    + by rewrite Htr2, Htr, <- app_assoc.
    + by constructor.
    + constructor; [|done]. intros Hin. apply Hu2 in Hin as [Hn _]. set_solver.
    + rewrite Hv2. set_solver.
    + intros u [->|Hin]%elem_of_cons.
      * split; [done|]. exists base. split; [by apply list_elem_of_singleton
                                            | constructor].
      * apply Hu2 in Hin as [Hn (r & Hr & Hreach)]. split; [set_solver|].
        exists base. split; [by apply list_elem_of_singleton|].
        eapply reachable_trans; [|exact Hreach]. by apply Hlinks.
    + apply Forall_app. split.
      * apply Forall_forall. intros [t p] Hin.
        apply elem_of_page_links in Hin as (-> & ? & ? & _).
        simpl. split; [|done]. exists base. by rewrite list_elem_of_singleton.
      * eapply Forall_impl; [exact He2|]. simpl.
        intros e [(r & Hr & Ht & Hp) ?]. split; [|done].
        apply Hlinks in Hr as [Hr _]. exists base.
        rewrite list_elem_of_singleton. by rewrite Ht, Hp, Hr.
Qed.

(** *** The crawl engine *)

(** C2. Every edge the traversal returns has a target and a parent on the
    host of the URL the traversal was started on, whatever the depth. *)
Theorem edges_stay_on_seed_host d seed visited (n : net W) :
  Forall (λ e : edge, netloc e.1 = netloc seed ∧ netloc e.2 = netloc seed)
         (crawl d seed visited n).1.1.
Proof.
  destruct (crawl_step d seed visited n) as (_ & _ & _ & _ & _ & _ & He).
  eapply Forall_impl; [exact He|]. simpl.
  by intros e [(r & ->%list_elem_of_singleton & ? & ?) _].
Qed.

(** No edge returned by a traversal started on [seed] has [seed], or a URL
    visited before the start, as its target. *)
Lemma no_edge_targets_seed d seed visited (n : net W) :
  Forall (λ e : edge, e.1 ≠ seed ∧ e.1 ∉ visited) (crawl d seed visited n).1.1.
Proof.
  tidy.
  destruct (crawl_step d seed visited n) as (_ & _ & _ & _ & _ & _ & He).
  eapply Forall_impl; [exact He|]. simpl. intros e [_ ?]. set_solver.
Qed.

(** *** The link validator *)

Lemma link_outcome_code st doc :
  st ≠ 200 → link_outcome (Response st doc) = Some (StatusCode st).
Proof.
  intros Hst. unfold link_outcome. destruct st as [|q|q]; try done.
  repeat (destruct q as [q|q|]; try done).
Qed.

(** The requests of the validator: the targets of the edges, in order. *)
Lemma validate_trace links (n : net W) :
  ∃ rs : list response,
    trace (validate links n).2
      = trace n ++ zip_with (λ (e : edge) r, (Validate, e.1, r)) links rs.
Proof.
  revert n. induction links as [|[t p] links IH]; intros n.
  - exists []. simpl. by rewrite app_nil_r.
  - cbn [check_for_error_links].
    destruct (get Validate t n) as [r n1] eqn:Hget.
    apply requests_get_spec in Hget as [Htr _].
    destruct (IH n1) as (rs & Htr2). destruct (validate links n1) as [later n2].
    exists (r :: rs). simpl in *. by rewrite Htr2, Htr, <- app_assoc.
Qed.

(** C6. The validator requests the target of every edge once, in order,
    each request in the state of the network the one before has left.
    With [rs] the answers of the network to these requests, its output is,
    in the order of the edges, one record for each edge whose answer is
    not a 200: [StatusCode 404] for a 404, the status code for any other
    status, the text of the failure for a transport failure.  The edges of
    the records are a sublist of the input. *)
Theorem validator_records_each_failure links (n : net W) :
  let res := validate links n in
  let rs := (answers http_get links.*1 (world n)).1 in
  length rs = length links ∧
  world res.2 = (answers http_get links.*1 (world n)).2 ∧
  trace res.2 = trace n ++ zip_with (λ e r, (Validate, e.1, r)) links rs ∧
  res.1 = omap broken_record (zip links rs) ∧
  sublist (record_edge <$> res.1) links.
Proof.
  cbv zeta. revert n. induction links as [|[t p] links IH]; intros n.
  - simpl. rewrite app_nil_r. split_and!; try done.
  - cbn [check_for_error_links answers fmap list_fmap fst].
    unfold requests_get.
    destruct (http_get t (world n)) as [r w1].
    specialize (IH {| world := w1; trace := trace n ++ [(Validate, t, r)] |}).
    destruct (validate links {| world := w1; trace := trace n ++ [(Validate, t, r)] |})
      as [later n2].
    cbn [world trace] in IH.
    destruct (answers http_get links.*1 w1) as [rs w2].
    destruct IH as (Hlen & Hw & Htr2 & Hres & Hsub). simpl in *.
    split_and!.
    + by rewrite Hlen.
    + exact Hw.
    + by rewrite Htr2, <- app_assoc.
    + rewrite Hres.
      change (zip ((t, p) :: links) (r :: rs)) with ((t, p, r) :: zip links rs).
      cbn [omap list_omap]. unfold broken_record at 2. cbn [fst snd].
      destruct r as [st doc|msg]; [|done].
      destruct (st =? 404) eqn:H404.
      { apply Z.eqb_eq in H404 as ->. done. }
      destruct (st =? 200) eqn:H200.
      { apply Z.eqb_eq in H200 as ->. done. }
      apply Z.eqb_neq in H200. by rewrite link_outcome_code.
    + destruct r as [st doc|msg]; simpl.
      * destruct (st =? 404); [by constructor|].
        destruct (negb (st =? 200)); simpl; by constructor.
      * by constructor.
Qed.

Lemma validate_events (links : list edge) (rs : list response) :
  Forall (λ e, event_site e = Validate ∧ event_url e ∈ links.*1)
         (zip_with (λ (e : edge) r, (Validate, e.1, r)) links rs).
Proof.
  revert rs. induction links as [|[t p] links IH]; intros [|r rs]; simpl;
    try constructor.
  - split; [done|]. left.
  - eapply Forall_impl; [apply IH|]. simpl. intros e [? ?]. split; [done|by right].
Qed.

(** *** The sitemap resolver *)

Lemma sitemap_entries_spec base entries acc :
  match sitemap_entries urljoin base entries acc with
  | Ok urls =>
      ∀ u, u ∈ urls ↔ u ∈ acc ∨ ∃ loc, Some loc ∈ entries ∧ u = urljoin base loc
  | Raise _ => None ∈ entries
  end.
Proof.
  tidy.
  revert acc. induction entries as [|[loc|] entries IH]; intros acc; simpl.
  - intros u. split; [by left|]. by intros [?|(? & ?%elem_of_nil & _)].
  - specialize (IH ({[urljoin base loc]} ∪ acc)).
    destruct (sitemap_entries urljoin base entries _) as [urls|e].
    + intros u. rewrite IH. split.
      * intros [[->%elem_of_singleton|?]%elem_of_union | (l & ? & ->)].
        -- right. exists loc. split; [left|done].
        -- by left.
        -- right. exists l. split; [by right|done].
      * intros [?|(l & [[= ->]|?]%elem_of_cons & ->)].
        -- left. set_solver.
        -- left. set_solver.
        -- right. by exists l.
    + by right.
  - left.
Qed.

Lemma response_200_or_not (r : response) :
  (∃ doc, r = Response 200 doc) ∨ (∀ doc, r ≠ Response 200 doc).
Proof.
  destruct r as [st doc|msg]; [|by right].
  destruct (decide (st = 200)) as [->|Hne]; [left; by exists doc|].
  right. by intros doc' [= ? _].
Qed.

Lemma probe_sitemaps_spec base paths acc (n : net W) :
  let res := probe_sitemaps W http_get urljoin base paths acc n in
  ∃ new : list event,
    trace res.2 = trace n ++ new ∧
    Forall (λ e, event_site e = Sitemap ∧
                 ∃ sp, sp ∈ paths ∧ event_url e = urljoin base sp) new ∧
    match res.1 with
    | Ok urls =>
        ∀ u, u ∈ urls ↔
          u ∈ acc ∨ ∃ e doc loc, e ∈ new ∧ event_response e = Response 200 doc ∧
                                 Some loc ∈ doc_sitemap_locs doc ∧
                                 u = urljoin base loc
    | Raise _ =>
        ∃ e doc, e ∈ new ∧ event_response e = Response 200 doc ∧
                 None ∈ doc_sitemap_locs doc
    end.
Proof.
  tidy.
  cbv zeta. revert acc n. induction paths as [|sp paths IH]; intros acc n.
  - exists []. simpl. rewrite app_nil_r. split_and!; [done|constructor|].
    intros u. split; [by left|]. by intros [?|(? & ? & ? & ?%elem_of_nil & _)].
  - cbn [probe_sitemaps].
    destruct (get Sitemap (urljoin base sp) n) as [r n1] eqn:Hget.
    apply requests_get_spec in Hget as [Htr _].
    assert (Hskip : ∀ acc',
      (∀ doc, r = Response 200 doc →
         ∀ u, u ∈ acc' ↔ u ∈ acc ∨ ∃ loc, Some loc ∈ doc_sitemap_locs doc ∧
                                          u = urljoin base loc) →
      ((∀ doc, r ≠ Response 200 doc) → acc' = acc) →
      let res := probe_sitemaps W http_get urljoin base paths acc' n1 in
      ∃ new : list event,
        trace res.2 = trace n ++ new ∧
        Forall (λ e, event_site e = Sitemap ∧
                     ∃ sp', sp' ∈ sp :: paths ∧ event_url e = urljoin base sp') new ∧
        match res.1 with
        | Ok urls =>
            ∀ u, u ∈ urls ↔
              u ∈ acc ∨ ∃ e doc loc, e ∈ new ∧ event_response e = Response 200 doc ∧
                                     Some loc ∈ doc_sitemap_locs doc ∧
                                     u = urljoin base loc
        | Raise _ =>
            ∃ e doc, e ∈ new ∧ event_response e = Response 200 doc ∧
                     None ∈ doc_sitemap_locs doc
        end).
    { intros acc' Hacc Hsame. cbv zeta. specialize (IH acc' n1).
      destruct (probe_sitemaps W http_get urljoin base paths acc' n1) as [res n2].
      destruct IH as (new & Htr2 & Hs & Hres). simpl in *.
      exists ((Sitemap, urljoin base sp, r) :: new). split_and!.
      - by rewrite Htr2, Htr, <- app_assoc.
      - constructor.
        + split; [done|]. exists sp. split; [left|done].
        + eapply Forall_impl; [exact Hs|]. simpl. intros e [? (sp' & ? & ?)].
          split; [done|]. exists sp'. split; [by right|done].
      - destruct res as [urls|e].
        + intros u. rewrite Hres. split.
          * intros [Hin|(e & doc & loc & ? & ? & ? & ->)].
            -- destruct (response_200_or_not r) as [[doc ->]|Hno].
               ++ apply (Hacc doc eq_refl) in Hin as [?|(loc & ? & ->)]; [by left|].
                  right. exists (Sitemap, urljoin base sp, Response 200 doc), doc, loc.
                  split_and!; try done. left.
               ++ left. by rewrite Hsame in Hin.
            -- right. exists e, doc, loc. split_and!; try done. by right.
          * intros [Hin|(e & doc & loc & [->|?]%elem_of_cons & Hr & ? & ->)].
            -- left. destruct (response_200_or_not r) as [[doc ->]|Hno].
               ++ apply (Hacc doc eq_refl). by left.
               ++ by rewrite Hsame.
            -- left. simpl in Hr. apply (Hacc doc Hr). right. by exists loc.
            -- right. by exists e, doc, loc.
        + destruct Hres as (e' & doc & ? & ? & ?). exists e', doc.
          split_and!; try done. by right. }
    destruct r as [st doc|msg].
    + destruct (st =? 200) eqn:Hst; simpl.
      * apply Z.eqb_eq in Hst as ->.
        pose proof (sitemap_entries_spec base (doc_sitemap_locs doc) ∅) as Hent.
        destruct (sitemap_entries urljoin base (doc_sitemap_locs doc) ∅) as [urls|e].
        -- apply Hskip.
           ++ intros doc' [= <-] u. rewrite elem_of_union, Hent. set_solver.
           ++ intros Hno. by destruct (Hno doc).
        -- exists [(Sitemap, urljoin base sp, Response 200 doc)]. simpl.
           split_and!; [done| |].
           ++ constructor; [|constructor]. split; [done|].
              exists sp. split; [left|done].
           ++ exists (Sitemap, urljoin base sp, Response 200 doc), doc.
              split_and!; try done. left.
      * apply Z.eqb_neq in Hst. apply Hskip; [|done]. by intros doc' [= ? _].
    + apply Hskip; [|done]. by intros doc' [=].
Qed.

(** *** The metadata pass and the report *)

Lemma get_meta_data_spec u (n : net W) :
  ∃ r, trace (meta_of u n).2 = trace n ++ [(Metadata, u, r)] ∧
       (meta_of u n).1 =
         match r with
         | ConnectionFailed e => Raise (RequestException e)
         | Response _ doc => extract_meta repr_composite doc
         end.
Proof.
  unfold get_meta_data. destruct (get Metadata u n) as [r n1] eqn:Hget.
  apply requests_get_spec in Hget as [Htr _]. exists r. by destruct r.
Qed.

Lemma collect_rows_spec paths links results (n : net W) :
  let res := collect_rows W http_get url_path repr_composite paths links results n in
  NoDup results.*1 →
  ∃ new : list event,
    trace res.2 = trace n ++ new ∧
    Forall (λ e, event_site e = Metadata) new ∧
    ∀ results', res.1 = Ok results' →
      ∃ added : list (string * page_row),
        results' = results ++ added ∧
        NoDup results'.*1 ∧
        (∀ u, u ∈ added.*1 ↔ (u ∉ results.*1) ∧ u ∈ links.*1) ∧
        added.*1 = link <$> added.*2 ∧
        Forall2 (row_from paths) new added.*2.
Proof.
  tidy.
  cbv zeta. revert results n.
  induction links as [|[t p] links IH]; intros results n Hnd.
  - exists []. simpl. rewrite app_nil_r. split_and!; [done|constructor|].
    intros ? [= <-]. exists []. rewrite app_nil_r.
    split_and!; try done; try constructor.
    all: try by intros ?%elem_of_nil.
    all: by intros [_ ?%elem_of_nil].
  - cbn [collect_rows fst]. case_bool_decide as Hin.
    + destruct (get_meta_data_spec t n) as (r & Htr & Hm).
      destruct (meta_of t n) as [m n1]. simpl in Htr, Hm.
      destruct m as [m|e].
      * set (row := make_row t m (bool_decide (url_path t ∈ paths))).
        assert (Hnd' : NoDup (results ++ [(t, row)]).*1).
        { rewrite fmap_app. apply NoDup_app. split_and!; [done| |apply NoDup_singleton].
          by intros u ? ->%list_elem_of_singleton. }
        destruct (IH (results ++ [(t, row)]) n1 Hnd') as (new & Htr2 & Hs & Hok).
        exists ((Metadata, t, r) :: new). split_and!.
        -- by rewrite Htr2, Htr, <- app_assoc.
        -- by constructor.
        -- intros results' Hres. destruct (Hok results' Hres)
             as (added & -> & Hnd2 & Hmem & Hkeys & Hrows).
           exists ((t, row) :: added). split_and!.
           ++ by rewrite <- app_assoc.
           ++ done.
           ++ intros u. rewrite fmap_cons, elem_of_cons, Hmem, fmap_app, elem_of_app.
              simpl. rewrite list_elem_of_singleton, elem_of_cons.
              destruct (decide (u = t)) as [->|]; naive_solver.
           ++ rewrite !fmap_cons. simpl. by rewrite Hkeys.
           ++ rewrite fmap_cons. constructor; [|done].
              split_and!; try done. destruct r as [st doc|msg]; [|done].
              by exists st, doc, m.
      * exists [(Metadata, t, r)]. split_and!; [done|by repeat constructor|done].
    + destruct (IH results n Hnd) as (new & Htr2 & Hs & Hok).
      exists new. split_and!; try done.
      intros results' Hres. destruct (Hok results' Hres)
        as (added & -> & Hnd2 & Hmem & Hkeys & Hrows).
      exists added. split_and!; try done.
      intros u. rewrite Hmem, fmap_cons, elem_of_cons. simpl. naive_solver.
Qed.

Lemma top_level_no_report e rows broken : top_level e ≠ Report rows broken.
Proof. by destruct e. Qed.

Local Ltac trace_eq :=
  simpl;
  repeat match goal with H : trace _ = _ |- _ => rewrite H; clear H end;
  rewrite ?app_nil_r, <- ?app_assoc; reflexivity.

(** The requests of a whole run, by phase, and what a report is made of. *)
Lemma scan_spec url d (n : net W) :
  let res := scan url d n in
  let edges := (crawl d url ∅ (get SeedProbe url n).2).1.1 in
  ∃ r0 tC tV tS tM,
    trace res.2 = trace n ++ (SeedProbe, url, r0) :: tC ++ tV ++ tS ++ tM ∧
    Forall (λ e, event_site e = Traverse) tC ∧
    Forall (λ e, event_site e = Validate ∧ event_url e ∈ edges.*1) tV ∧
    Forall (λ e, event_site e = Sitemap ∧
                 ∃ sp, sp ∈ sitemap_paths ∧ event_url e = urljoin url sp) tS ∧
    Forall (λ e, event_site e = Metadata) tM ∧
    ((∀ doc, r0 ≠ Response 200 doc) →
       tC ++ tV ++ tS ++ tM = [] ∧ ∃ text, res.1 = ErrorText text) ∧
    ∀ rows broken, res.1 = Report rows broken →
      ∃ urls : gset string,
        (∀ u, u ∈ urls ↔
           ∃ e doc loc, e ∈ tS ∧ event_response e = Response 200 doc ∧
                        Some loc ∈ doc_sitemap_locs doc ∧ u = urljoin url loc) ∧
        Forall2 (row_from (set_map url_path urls)) tM rows ∧
        NoDup (link <$> rows) ∧
        (∀ u, u ∈ link <$> rows ↔ u = url ∨ u ∈ edges.*1).
Proof.
  cbv zeta. unfold scan_and_check_links.
  destruct (get SeedProbe url n) as [r0 n1] eqn:Hget.
  apply requests_get_spec in Hget as [Htr0 _]. cbn [snd].
  assert (Hfail : ∀ text,
    (∀ doc, r0 ≠ Response 200 doc) →
    ∃ r0 tC tV tS tM,
      trace (ErrorText text, n1).2 =
        trace n ++ (SeedProbe, url, r0) :: tC ++ tV ++ tS ++ tM ∧
      Forall (λ e, event_site e = Traverse) tC ∧
      Forall (λ e, event_site e = Validate ∧
                   event_url e ∈ (crawl d url ∅ n1).1.1.*1) tV ∧
      Forall (λ e, event_site e = Sitemap ∧
                   ∃ sp, sp ∈ sitemap_paths ∧ event_url e = urljoin url sp) tS ∧
      Forall (λ e, event_site e = Metadata) tM ∧
      ((∀ doc, r0 ≠ Response 200 doc) →
         tC ++ tV ++ tS ++ tM = [] ∧ ∃ text', (ErrorText text, n1).1 = ErrorText text') ∧
      ∀ rows broken, (ErrorText text, n1).1 = Report rows broken →
        ∃ urls : gset string,
          (∀ u, u ∈ urls ↔
             ∃ e doc loc, e ∈ tS ∧ event_response e = Response 200 doc ∧
                          Some loc ∈ doc_sitemap_locs doc ∧ u = urljoin url loc) ∧
          Forall2 (row_from (set_map url_path urls)) tM rows ∧
          NoDup (link <$> rows) ∧
          (∀ u, u ∈ link <$> rows ↔ u = url ∨ u ∈ (crawl d url ∅ n1).1.1.*1)).
  { intros text Hno. exists r0, [], [], [], [].
    split_and!; try constructor; try done. by exists text. }
  destruct r0 as [st doc0|msg]; [|by apply Hfail].
  destruct (st =? 200) eqn:Hst; simpl negb; cbv iota;
    [|apply Z.eqb_neq in Hst; apply Hfail; by intros doc' [= ? _]].
  apply Z.eqb_eq in Hst as ->. clear Hfail.
  destruct (crawl_step d url ∅ n1) as (tC & HtrC & HsC & _).
  destruct (crawl d url ∅ n1) as [[edges v] n2]. cbn [fst snd] in *.
  destruct (validate_trace edges n2) as (rs & HtrV).
  pose proof (validate_events edges rs) as HsV.
  set (tV := zip_with (λ (e : edge) r, (Validate, e.1, r)) edges rs) in *.
  destruct (validate edges n2) as [broken n3]. cbn [fst snd] in *.
  destruct (probe_sitemaps_spec url sitemap_paths ∅ n3) as (tS & HtrS & HsS & Hurls).
  unfold get_sitemap_urls.
  destruct (probe_sitemaps W http_get urljoin url sitemap_paths ∅ n3) as [sm n4].
  cbn [fst snd] in *.
  destruct sm as [urls|e].
  2:{ exists (Response 200 doc0), tC, tV, tS, [].
      split_and!; try done; try (by repeat constructor); try trace_eq.
      - intros Hno. by destruct (Hno doc0).
      - intros rows b Hrep. by apply top_level_no_report in Hrep. }
  set (paths := set_map url_path urls : gset string).
  destruct (get_meta_data_spec url n4) as (r & HtrM & Hm).
  destruct (meta_of url n4) as [m n5]. cbn [fst snd] in *.
  destruct m as [m|e].
  2:{ exists (Response 200 doc0), tC, tV, tS, [(Metadata, url, r)].
      split_and!; try done; try (by repeat constructor); try trace_eq.
      - intros Hno. by destruct (Hno doc0).
      - intros rows b Hrep. by apply top_level_no_report in Hrep. }
  set (row0 := make_row url m (bool_decide (url_path url ∈ paths))).
  destruct (collect_rows_spec paths edges [(url, row0)] n5)
    as (tM & HtrR & HsM & Hok); [apply NoDup_singleton|].
  destruct (collect_rows W http_get url_path repr_composite paths edges
              [(url, row0)] n5) as [results n6]. cbn [fst snd] in *.
  exists (Response 200 doc0), tC, tV, tS, ((Metadata, url, r) :: tM).
  split_and!; try done; try (by repeat constructor);
    try (destruct results; trace_eq).
  - intros Hno. by destruct (Hno doc0).
  - intros rows b Hrep. destruct results as [results|e];
      [|by apply top_level_no_report in Hrep].
    injection Hrep as <- <-.
    destruct (Hok results eq_refl) as (added & -> & Hnd & Hmem & Hkeys & Hrows).
    exists urls. split_and!.
    + intros u. rewrite Hurls. set_solver.
    + rewrite fmap_app. simpl. constructor; [|done].
      split_and!; try done. destruct r as [st doc|msg]; [|done].
      by exists st, doc, m.
    + assert ((link <$> ([(url, row0)] ++ added).*2) = ([(url, row0)] ++ added).*1)
        as ->; [|done].
      rewrite !fmap_app, Hkeys. done.
    + intros u. rewrite !fmap_app, elem_of_app, <- Hkeys, Hmem. simpl.
      rewrite !list_elem_of_singleton.
      destruct (decide (u = url)); naive_solver.
Qed.

Lemma requests_at_same c (l : list event) :
  Forall (λ e, event_site e = c) l → requests_at c l = l.
Proof.
  unfold requests_at. induction 1 as [|e l He _ IH]; [done|].
  by rewrite filter_cons_True, IH.
Qed.

Lemma requests_at_other c c' (l : list event) :
  c ≠ c' → Forall (λ e, event_site e = c') l → requests_at c l = [].
Proof.
  unfold requests_at. intros Hne. induction 1 as [|e l He _ IH]; [done|].
  rewrite filter_cons_False; [done|]. congruence.
Qed.

Lemma phases_split url r0 (tC tV tS tM : list event) :
  Forall (λ e, event_site e = Traverse) tC →
  Forall (λ e, event_site e = Validate) tV →
  Forall (λ e, event_site e = Sitemap) tS →
  Forall (λ e, event_site e = Metadata) tM →
  requests_at Validate ((SeedProbe, url, r0) :: tC ++ tV ++ tS ++ tM) = tV ∧
  requests_at Sitemap ((SeedProbe, url, r0) :: tC ++ tV ++ tS ++ tM) = tS ∧
  requests_at Metadata ((SeedProbe, url, r0) :: tC ++ tV ++ tS ++ tM) = tM.
Proof.
  intros HC HV HS HM. unfold requests_at.
  rewrite !filter_cons_False by done. rewrite !filter_app.
  fold (requests_at Validate tC) (requests_at Validate tV)
       (requests_at Validate tS) (requests_at Validate tM)
       (requests_at Sitemap tC) (requests_at Sitemap tV)
       (requests_at Sitemap tS) (requests_at Sitemap tM)
       (requests_at Metadata tC) (requests_at Metadata tV)
       (requests_at Metadata tS) (requests_at Metadata tM).
  rewrite (requests_at_same _ _ HV), (requests_at_same _ _ HS),
    (requests_at_same _ _ HM).
  rewrite (requests_at_other Validate Traverse tC),
    (requests_at_other Validate Sitemap tS),
    (requests_at_other Validate Metadata tM),
    (requests_at_other Sitemap Traverse tC),
    (requests_at_other Sitemap Validate tV),
    (requests_at_other Sitemap Metadata tM),
    (requests_at_other Metadata Traverse tC),
    (requests_at_other Metadata Validate tV),
    (requests_at_other Metadata Sitemap tS) by done.
  by rewrite !app_nil_r.
Qed.

(** The phases of a run that starts with an empty trace. *)
Lemma fresh_run url d (w : W) :
  let res := scan url d (fresh w) in
  let edges := (crawl d url ∅ (get SeedProbe url (fresh w)).2).1.1 in
  let tr := trace res.2 in
  Forall (λ e, event_url e ∈ edges.*1) (requests_at Validate tr) ∧
  Forall (λ e, ∃ sp, sp ∈ sitemap_paths ∧ event_url e = urljoin url sp)
         (requests_at Sitemap tr) ∧
  ∀ rows broken, res.1 = Report rows broken →
    ∃ urls : gset string,
      (∀ u, u ∈ urls ↔
         ∃ e doc loc, e ∈ requests_at Sitemap tr ∧
                      event_response e = Response 200 doc ∧
                      Some loc ∈ doc_sitemap_locs doc ∧ u = urljoin url loc) ∧
      Forall2 (row_from (set_map url_path urls)) (requests_at Metadata tr) rows ∧
      NoDup (link <$> rows) ∧
      (∀ u, u ∈ link <$> rows ↔ u = url ∨ u ∈ edges.*1).
Proof.
  cbv zeta.
  destruct (scan_spec url d (fresh w))
    as (r0 & tC & tV & tS & tM & Htr & HC & HV & HS & HM & _ & Hrep).
  simpl in Htr. rewrite Htr.
  assert (HV' : Forall (λ e, event_site e = Validate) tV).
  { eapply Forall_impl; [exact HV|]. by intros e [? _]. }
  assert (HS' : Forall (λ e, event_site e = Sitemap) tS).
  { eapply Forall_impl; [exact HS|]. by intros e [? _]. }
  destruct (phases_split url r0 tC tV tS tM HC HV' HS' HM) as (EV & ES & EM).
  rewrite EV, ES, EM. split_and!.
  - eapply Forall_impl; [exact HV|]. by intros e [_ ?].
  - eapply Forall_impl; [exact HS|]. by intros e [_ ?].
  - exact Hrep.
Qed.

(** C8. In a report, a row is marked [in_sitemap] exactly when its path is
    the path of a location declared by a sitemap probe that was answered
    with status 200, the location being resolved against the seed.  The
    probes are the three fixed locations resolved against the seed.  When
    no probe is answered with 200, every row is marked [false]; and the
    resolver then returns the empty set without raising. *)
Theorem in_sitemap_iff_path_declared url d (w : W) rows broken :
  (scan url d (fresh w)).1 = Report rows broken →
  let probes := requests_at Sitemap (trace (scan url d (fresh w)).2) in
  Forall (λ e, ∃ sp, sp ∈ sitemap_paths ∧ event_url e = urljoin url sp) probes ∧
  (∀ row, row ∈ rows →
     in_sitemap row = true ↔
     ∃ e doc loc, e ∈ probes ∧ event_response e = Response 200 doc ∧
                  Some loc ∈ doc_sitemap_locs doc ∧
                  url_path (urljoin url loc) = url_path (link row)) ∧
  ((∀ e doc, e ∈ probes → event_response e ≠ Response 200 doc) →
     ∀ row, row ∈ rows → in_sitemap row = false) ∧
  (∀ w', let res := sitemaps url (fresh w') in
     (∀ e doc, e ∈ trace res.2 → event_response e ≠ Response 200 doc) →
     res.1 = Ok ∅).
Proof.
  intros Hrep. cbv zeta.
  destruct (fresh_run url d w) as (_ & Hprobes & Hrows).
  destruct (Hrows rows broken Hrep) as (urls & Hurls & Hfrom & _).
  assert (Hflag : ∀ row, row ∈ rows →
     in_sitemap row = true ↔
     ∃ e doc loc, e ∈ requests_at Sitemap (trace (scan url d (fresh w)).2) ∧
                  event_response e = Response 200 doc ∧
                  Some loc ∈ doc_sitemap_locs doc ∧
                  url_path (urljoin url loc) = url_path (link row)).
  { intros row [i Hi]%list_elem_of_lookup.
    destruct (Forall2_lookup_r _ _ _ _ _ Hfrom Hi)
      as (e & _ & _ & _ & st & doc & m & _ & _ & Hrow).
    rewrite Hrow at 1. simpl. rewrite bool_decide_eq_true, elem_of_map. split.
    - intros (u & Hp & (e' & doc' & loc & ? & ? & ? & ->)%Hurls).
      by exists e', doc', loc.
    - intros (e' & doc' & loc & ? & ? & ? & Hp).
      exists (urljoin url loc). split; [done|]. apply Hurls.
      by exists e', doc', loc. }
  split_and!; [done|done| |].
  - intros Hnone row Hin. apply not_true_is_false. intros Ht.
    apply (Hflag row Hin) in Ht as (e & doc & loc & He & Hr & _).
    by apply (Hnone e doc).
  - intros w' Hnone.
    destruct (probe_sitemaps_spec url sitemap_paths ∅ (fresh w'))
      as (new & Htr & _ & Hres).
    unfold get_sitemap_urls in *.
    change (trace (fresh w') ++ new) with new in Htr. rewrite Htr in Hnone.
    destruct (probe_sitemaps W http_get urljoin url sitemap_paths ∅ (fresh w')).1
      as [urls'|e].
    + f_equal. apply set_eq. intros u. rewrite Hres. split; [|set_solver].
      intros [?|(e & doc & loc & He & Hr & _)]; [done|].
      by destruct (Hnone e doc).
    + destruct Hres as (e' & doc & He & Hr & _). by destruct (Hnone e' doc).
Qed.

(** C9. A report has one row per URL among the seed and the targets of
    the edges, and no URL twice; the metadata requests of the run are, in
    the order of the rows, one request per row, for the row's URL, and the
    row holds what was extracted from the answer to that request. *)
Theorem one_row_per_url url d (w : W) rows broken :
  (scan url d (fresh w)).1 = Report rows broken →
  let edges := (crawl d url ∅ (get SeedProbe url (fresh w)).2).1.1 in
  let extractions := requests_at Metadata (trace (scan url d (fresh w)).2) in
  NoDup (link <$> rows) ∧
  (∀ u, u ∈ link <$> rows ↔ u = url ∨ u ∈ edges.*1) ∧
  event_url <$> extractions = link <$> rows ∧
  ∃ paths, Forall2 (row_from paths) extractions rows.
Proof.
  intros Hrep. cbv zeta.
  destruct (fresh_run url d w) as (_ & _ & Hrows).
  destruct (Hrows rows broken Hrep) as (urls & _ & Hfrom & Hnd & Hmem).
  split_and!; [done|done| |by eexists].
  clear -Hfrom. induction Hfrom as [|e row tM rows' (_ & Hu & _) _ IH]; [done|].
  rewrite !fmap_cons. by rewrite Hu, IH.
Qed.

(** C10. The traversal of a run records no edge whose target is the seed,
    and the validator never requests the seed. *)
Theorem seed_is_never_a_target url d (w : W) :
  Forall (λ e : edge, e.1 ≠ url)
         (crawl d url ∅ (get SeedProbe url (fresh w)).2).1.1 ∧
  Forall (λ e, event_url e ≠ url)
         (requests_at Validate (trace (scan url d (fresh w)).2)).
Proof.
  assert (Hedges : Forall (λ e : edge, e.1 ≠ url)
            (crawl d url ∅ (get SeedProbe url (fresh w)).2).1.1).
  { eapply Forall_impl; [apply no_edge_targets_seed|]. by intros e [? _]. }
  split; [done|].
  destruct (fresh_run url d w) as (HV & _).
  eapply Forall_impl; [exact HV|]. simpl.
  intros e ([t p] & -> & Hin)%list_elem_of_fmap Heq.
  rewrite Forall_forall in Hedges. by apply (Hedges _ Hin).
Qed.

(** When the first request to the seed is not answered with status 200,
    the run makes no other request and its outcome is an error text. *)
Lemma unreachable_seed_is_one_failure url d (w : W) :
  (∀ doc, (http_get url w).1 ≠ Response 200 doc) →
  trace (scan url d (fresh w)).2 = [(SeedProbe, url, (http_get url w).1)] ∧
  ∃ text, (scan url d (fresh w)).1 = ErrorText text.
Proof.
  intros Hno. unfold scan_and_check_links, requests_get. simpl.
  destruct (http_get url w) as [r w1]. simpl in *.
  destruct r as [st doc|msg]; simpl; [|by eauto].
  destruct (st =? 200) eqn:Hst; simpl; [|by eauto].
  apply Z.eqb_eq in Hst as ->. by destruct (Hno doc).
Qed.

(** *** Breadcrumbs *)

Lemma breadcrumb_items_spec items acc :
  breadcrumb_items repr_composite (JObj <$> items) acc = Ok (acc ++ (crumb <$> items)).
Proof.
  revert acc. induction items as [|item items IH]; intros acc; simpl.
  - by rewrite app_nil_r.
  - rewrite IH. by rewrite <- app_assoc.
Qed.

Lemma json_ld_breadcrumbs_spec scripts blocks acc :
  Forall2 (script_items) scripts blocks →
  json_ld_breadcrumbs repr_composite scripts acc
    = Ok (acc ++ (crumb <$> concat blocks)).
Proof.
  intros H. revert acc.
  induction H as [|sc items scripts blocks Hsc _ IH]; intros acc; simpl.
  - by rewrite app_nil_r.
  - destruct Hsc as [|kv Hty|kv items Hty Hitems]; simpl.
    + apply IH.
    + destruct (dict_get "@type" kv) as [[| | |ty| |]|]; try apply IH.
      destruct (String.eqb ty "BreadcrumbList") eqn:Heq; [|apply IH].
      apply String.eqb_eq in Heq as ->. done.
    + rewrite Hty, Hitems. simpl. rewrite breadcrumb_items_spec, IH.
      by rewrite fmap_app, app_assoc.
Qed.

(** C3, as the code has it.  On a page whose JSON-LD scripts are
    malformed texts, objects of other types or breadcrumb lists whose
    [itemListElement] is an array of objects, and with at least one item
    in all, the trail is the items of all the breadcrumb lists in document
    order, each as [position: name (url)], joined with [" > "]. *)
Theorem breadcrumbs_in_document_order doc blocks :
  Forall2 script_items (doc_json_ld doc) blocks →
  concat blocks ≠ [] →
  ∃ m, extract_meta repr_composite doc = Ok m ∧
       md_breadcrumbs m = Some (join " > " (crumb <$> concat blocks)).
Proof.
  intros Hscripts Hne. unfold extract_meta.
  rewrite (json_ld_breadcrumbs_spec _ _ [] Hscripts). simpl.
  destruct (concat blocks) as [|item items]; [done|]. simpl.
  eexists. split; [reflexivity|]. done.
Qed.

(** *** More on the crawl engine *)

Lemma recorded_on_mono tr tr' e :
  tr ⊆ tr' → recorded_on urljoin tr e → recorded_on urljoin tr' e.
Proof.
  tidy. intros Hsub (doc & href & Hin & ?). exists doc, href.
  split; [by apply Hsub|done].
Qed.

Lemma expand_provenance rec todo v (n : net W) :
  (∀ base v n, provenance urljoin [base] n (rec base v n)) →
  provenance urljoin todo.*1 n (expand W rec todo v n).
Proof.
  tidy. intros Hrec. revert v n.
  induction todo as [|[t p] todo IH]; intros v n; simpl.
  - exists []. simpl. rewrite app_nil_r.
    split_and!; [done|constructor|constructor|]. by intros u ?%elem_of_nil.
  - specialize (Hrec t v n). destruct (rec t v n) as [[more v1] n1].
    specialize (IH v1 n1). destruct (expand W rec todo v1 n1) as [[later v2] n2].
    destruct Hrec as (new1 & Htr1 & Hr1 & Hl1 & Hu1).
    destruct IH as (new2 & Htr2 & Hr2 & Hl2 & Hu2).
    simpl in *. exists (new1 ++ new2). simpl. split_and!.
    + by rewrite Htr2, Htr1, app_assoc.
    + apply Forall_app. split.
      * eapply Forall_impl; [exact Hr1|]. intros e.
        apply recorded_on_mono. intros x ?. apply elem_of_app. by left.
      * eapply Forall_impl; [exact Hr2|]. intros e.
        apply recorded_on_mono. intros x ?. apply elem_of_app. by right.
    + by apply Forall_app.
    + intros u. rewrite !fmap_app, !elem_of_app, elem_of_cons.
      intros [[->%list_elem_of_singleton|?]%Hu1 | [?|?]%Hu2]; auto.
Qed.

Lemma crawl_provenance d : ∀ base v (n : net W),
  provenance urljoin [base] n (crawl d base v n).
Proof.
  tidy.
  assert (Hstop : ∀ base (n n1 : net W) r v',
    get Traverse base n = (r, n1) → provenance urljoin [base] n ([], v', n1)).
  { intros base n n1 r v' [Htr _]%requests_get_spec.
    exists [(Traverse, base, r)]. simpl. split_and!; [done|constructor|constructor|].
    intros u ->%list_elem_of_singleton. left. by apply list_elem_of_singleton. }
  assert (Hpage : ∀ base v doc,
    let links := links_of base (netloc base) ({[base]} ∪ v) (doc_hrefs doc) in
    Forall (recorded_on urljoin [(Traverse, base, Response 200 doc)]) links ∧
    Forall (λ e : edge, e.1 ≠ e.2) links).
  { intros base v doc. cbv zeta. split; apply Forall_forall; intros [t p] Hin;
      apply elem_of_page_links in Hin as (-> & Hv & _ & href & ? & ? & ->); simpl.
    - exists doc, href. split_and!; try done. by apply list_elem_of_singleton.
    - set_solver. }
  induction d as [|d IH]; intros base v n; rewrite crawl_unfold;
    case_bool_decide as Hv.
  - exists []. simpl. rewrite app_nil_r.
    split_and!; [done|constructor|constructor|]. by intros u ?%elem_of_nil.
  - destruct (get Traverse base n) as [r n1] eqn:Hget.
    destruct r as [st doc|msg]; [|by eapply Hstop].
    destruct (st =? 200) eqn:Hst; simpl; [|by eapply Hstop].
    apply Z.eqb_eq in Hst as ->.
    apply requests_get_spec in Hget as [Htr _].
    destruct (Hpage base v doc) as [Hrec Hloop].
    exists [(Traverse, base, Response 200 doc)]. simpl. split_and!; try done.
    intros u ->%list_elem_of_singleton. left. by apply list_elem_of_singleton.
  - exists []. simpl. rewrite app_nil_r.
    split_and!; [done|constructor|constructor|]. by intros u ?%elem_of_nil.
  - destruct (get Traverse base n) as [r n1] eqn:Hget.
    destruct r as [st doc|msg]; [|by eapply Hstop].
    destruct (st =? 200) eqn:Hst; simpl; [|by eapply Hstop].
    apply Z.eqb_eq in Hst as ->.
    apply requests_get_spec in Hget as [Htr _].
    destruct (Hpage base v doc) as [Hrec Hloop].
    set (links := links_of base (netloc base) ({[base]} ∪ v) (doc_hrefs doc)) in *.
    pose proof (expand_provenance (crawl d) links ({[base]} ∪ v) n1 IH) as Hexp.
    destruct (expand W (crawl d) links ({[base]} ∪ v) n1) as [[more v2] n2].
    destruct Hexp as (new & Htr2 & Hr2 & Hl2 & Hu2). simpl in *.
    exists ((Traverse, base, Response 200 doc) :: new). simpl. split_and!.
    + by rewrite Htr2, Htr, <- app_assoc.
    + apply Forall_app. split.
      * eapply Forall_impl; [exact Hrec|]. intros e.
        apply recorded_on_mono. intros x ->%list_elem_of_singleton. left.
      * eapply Forall_impl; [exact Hr2|]. intros e.
        apply recorded_on_mono. intros x ?. by right.
    + by apply Forall_app.
    + intros u [->|Hin]%elem_of_cons; [left; by apply list_elem_of_singleton|].
      right. rewrite fmap_app, elem_of_app. apply Hu2 in Hin as [?|?]; auto.
Qed.

(** X1. Every edge of a traversal comes from a hyperlink: its parent was
    requested by this traversal and answered with status 200, its target
    is the resolution of a hyperlink without [#] of that answer, and the
    target is not the parent. *)
Theorem edges_come_from_hyperlinks d base visited (n : net W) :
  let res := crawl d base visited n in
  ∃ new : list event,
    trace res.2 = trace n ++ new ∧
    Forall (λ e : edge,
              e.1 ≠ e.2 ∧
              ∃ doc href,
                (Traverse, e.2, Response 200 doc) ∈ new ∧
                href ∈ doc_hrefs doc ∧ contains_hash href = false ∧
                e.1 = urljoin e.2 href) res.1.1.
Proof.
  cbv zeta. destruct (crawl_provenance d base visited n) as (new & Htr & Hr & Hl & _).
  exists new. split; [done|].
  apply Forall_forall. intros e He. rewrite Forall_forall in Hr, Hl.
  split; [by apply Hl | by apply Hr].
Qed.

(** X2. A traversal requests only the URL it is started on and targets of
    the edges it returns. *)
Theorem only_seed_and_targets_are_requested d base visited (n : net W) :
  let res := crawl d base visited n in
  ∃ new : list event,
    trace res.2 = trace n ++ new ∧
    ∀ u, u ∈ event_url <$> new → u = base ∨ u ∈ res.1.1.*1.
Proof.
  cbv zeta. destruct (crawl_provenance d base visited n) as (new & Htr & _ & _ & Hu).
  exists new. split; [done|]. intros u [?%list_elem_of_singleton|?]%Hu; auto.
Qed.

(** X3. The edges of the depth-0 traversal, the direct links of the page,
    come first in the result of a traversal of any depth from the same
    state. *)
Theorem direct_links_come_first d base visited (n : net W) :
  (crawl 0 base visited n).1.1 `prefix_of` (crawl d base visited n).1.1.
Proof.
  tidy. rewrite !crawl_unfold. case_bool_decide; [done|].
  destruct (get Traverse base n) as [r n1].
  destruct r as [st doc|msg]; [|done].
  destruct (negb (st =? 200)); [done|].
  destruct d as [|d]; [done|]. cbv zeta.
  destruct (expand W (crawl d)
              (links_of base (netloc base) ({[base]} ∪ visited) (doc_hrefs doc))
              ({[base]} ∪ visited) n1) as [[more v2] n2].
  cbn [fst snd]. by apply prefix_app_r.
Qed.

(** X4. After a traversal the visited set holds the initial set, the start
    URL and every requested URL, and nothing else; started again on any
    URL of that set, with any depth and from any state of the network,
    the traversal returns no edge, makes no request and leaves the set as
    it is. *)
Theorem visited_urls_are_never_revisited d base visited (n : net W) :
  let res := crawl d base visited n in
  (∃ new : list event,
     trace res.2 = trace n ++ new ∧
     ∀ u, u ∈ res.1.2 ↔ u ∈ visited ∨ u ∈ event_url <$> new) ∧
  base ∈ res.1.2 ∧
  ∀ u d' (n' : net W), u ∈ res.1.2 → crawl d' u res.1.2 n' = ([], res.1.2, n').
Proof.
  tidy. cbv zeta. split_and!.
  - destruct (crawl_step d base visited n) as (new & Htr & _ & _ & Hv & _).
    exists new. split; [done|]. intros u. rewrite Hv. set_solver.
  - rewrite crawl_unfold. case_bool_decide; [done|].
    destruct (get Traverse base n) as [r n1].
    destruct r as [st doc|msg]; [|set_solver].
    destruct (negb (st =? 200)); [set_solver|].
    destruct d as [|d]; [set_solver|]. cbv zeta.
    pose proof (expand_step (crawl d)
      (links_of base (netloc base) ({[base]} ∪ visited) (doc_hrefs doc))
      ({[base]} ∪ visited) n1 (crawl_step d)) as (new & _ & _ & _ & Hv & _).
    destruct (expand W (crawl d)
                (links_of base (netloc base) ({[base]} ∪ visited) (doc_hrefs doc))
                ({[base]} ∪ visited) n1) as [[more v2] n2].
    simpl in *. rewrite Hv. set_solver.
  - intros u d' n' Hu. rewrite crawl_unfold. by rewrite bool_decide_eq_true_2.
Qed.

(** *** More on the link validator *)

(** X5. Validating a concatenation is validating its parts one after the
    other, the second from the state the first leaves. *)
Theorem validator_composes l1 l2 (n : net W) :
  validate (l1 ++ l2) n =
  let (b1, n1) := validate l1 n in
  let (b2, n2) := validate l2 n1 in
  (b1 ++ b2, n2).
Proof.
  tidy. revert n. induction l1 as [|[t p] l1 IH]; intros n.
  - simpl. by destruct (validate l2 n).
  - cbn [app check_for_error_links].
    destruct (get Validate t n) as [r n1]. rewrite IH.
    destruct (validate l1 n1) as [b1 n2]. destruct (validate l2 n2) as [b2 n3].
    by rewrite app_assoc.
Qed.

(** X6. The validator makes one request per edge, repeated edges included;
    it never records a status 200, and it records at most one link per
    edge. *)
Theorem validator_never_records_success links (n : net W) :
  let res := validate links n in
  (∃ new : list event,
     trace res.2 = trace n ++ new ∧ event_url <$> new = links.*1) ∧
  Forall (λ b : broken_link, b.2 ≠ StatusCode 200) res.1 ∧
  (length res.1 ≤ length links)%nat.
Proof.
  tidy. cbv zeta. revert n. induction links as [|[t p] links IH]; intros n.
  - split_and!; [|constructor|done]. exists []. simpl. by rewrite app_nil_r.
  - cbn [check_for_error_links].
    destruct (get Validate t n) as [r n1] eqn:Hget.
    apply requests_get_spec in Hget as [Htr _].
    destruct (IH n1) as ((new & Htr2 & Hurls) & Hok & Hlen).
    destruct (validate links n1) as [later n2]. simpl in *.
    assert (Hfound :
      ∃ found : list broken_link,
        match r with
        | Response status_code _ =>
            if status_code =? 404 then [(t, p, StatusCode 404)]
            else if negb (status_code =? 200)
                 then [(t, p, StatusCode status_code)] else []
        | ConnectionFailed e => [(t, p, RequestError ("Request error: " +:+ e))]
        end = found ∧
        Forall (λ b : broken_link, b.2 ≠ StatusCode 200) found ∧
        (length found ≤ 1)%nat).
    { destruct r as [st doc|msg].
      - destruct (st =? 404) eqn:H404.
        + eexists. split_and!; [done| |simpl; lia]. by repeat constructor.
        + destruct (st =? 200) eqn:H200; simpl.
          * eexists. split_and!; [done|constructor|simpl; lia].
          * apply Z.eqb_neq in H200. eexists. split_and!; [done| |simpl; lia].
            constructor; [|constructor]. simpl. congruence.
      - eexists. split_and!; [done| |simpl; lia]. by repeat constructor. }
    destruct Hfound as (found & -> & Hf & Hl). split_and!.
    + exists ((Validate, t, r) :: new). split.
      * by rewrite Htr2, Htr, <- app_assoc.
      * rewrite !fmap_cons. by rewrite Hurls.
    + by apply Forall_app.
    + rewrite length_app. lia.
Qed.

(** *** More on the sitemap resolver *)

Lemma sitemap_entries_raises base entries acc :
  (None ∈ entries →
   sitemap_entries urljoin base entries acc = Raise AttributeError) ∧
  (None ∉ entries → ∃ urls, sitemap_entries urljoin base entries acc = Ok urls).
Proof.
  tidy. revert acc. induction entries as [|[loc|] entries IH]; intros acc; simpl.
  - split; [by intros ?%elem_of_nil | by eauto].
  - destruct (IH ({[urljoin base loc]} ∪ acc)) as [Hr Ho]. split.
    + intros [[=]|?]%elem_of_cons. by apply Hr.
    + intros Hn. apply Ho. intros ?. apply Hn. by right.
  - split; [done|]. intros Hn. destruct Hn. left.
Qed.

Lemma probe_sitemaps_order base paths acc (n : net W) :
  let res := probe_sitemaps W http_get urljoin base paths acc n in
  ∃ new : list event,
    trace res.2 = trace n ++ new ∧
    event_url <$> new `prefix_of` (urljoin base <$> paths) ∧
    (∀ ev doc, ev ∈ new → event_response ev = Response 200 doc →
               None ∈ doc_sitemap_locs doc → res.1 = Raise AttributeError) ∧
    match res.1 with
    | Ok _ => event_url <$> new = urljoin base <$> paths
    | Raise e =>
        e = AttributeError ∧
        ∃ ev doc, last new = Some ev ∧ event_response ev = Response 200 doc ∧
                  None ∈ doc_sitemap_locs doc
    end.
Proof.
  tidy. cbv zeta. revert acc n. induction paths as [|sp paths IH]; intros acc n.
  - exists []. simpl. rewrite app_nil_r. split_and!; try done.
    by intros ev doc ?%elem_of_nil.
  - cbn [probe_sitemaps].
    destruct (get Sitemap (urljoin base sp) n) as [r n1] eqn:Hget.
    apply requests_get_spec in Hget as [Htr _].
    assert (Hskip : ∀ acc',
      (∀ doc, r = Response 200 doc → None ∉ doc_sitemap_locs doc) →
      let res := probe_sitemaps W http_get urljoin base paths acc' n1 in
      ∃ new : list event,
        trace res.2 = trace n ++ new ∧
        event_url <$> new `prefix_of` (urljoin base <$> sp :: paths) ∧
        (∀ ev doc, ev ∈ new → event_response ev = Response 200 doc →
                   None ∈ doc_sitemap_locs doc → res.1 = Raise AttributeError) ∧
        match res.1 with
        | Ok _ => event_url <$> new = urljoin base <$> sp :: paths
        | Raise e =>
            e = AttributeError ∧
            ∃ ev doc, last new = Some ev ∧ event_response ev = Response 200 doc ∧
                      None ∈ doc_sitemap_locs doc
        end).
    { intros acc' Hgood. cbv zeta. specialize (IH acc' n1).
      destruct (probe_sitemaps W http_get urljoin base paths acc' n1) as [res n2].
      destruct IH as (new & Htr2 & Hpre & Hbad & Hres). simpl in *.
      exists ((Sitemap, urljoin base sp, r) :: new). split_and!.
      - by rewrite Htr2, Htr, <- app_assoc.
      - rewrite !fmap_cons. by apply prefix_cons.
      - intros ev doc [->|Hin]%elem_of_cons Hr Hnone.
        + simpl in Hr. by destruct (Hgood doc Hr).
        + by eapply Hbad.
      - destruct res as [urls|e].
        + rewrite !fmap_cons. by rewrite Hres.
        + destruct Hres as (-> & ev & doc & Hlast & Hr & Hnone).
          split; [done|]. exists ev, doc. split_and!; try done.
          destruct new; [done|]. done. }
    destruct r as [st doc|msg].
    + destruct (st =? 200) eqn:Hst; simpl.
      * apply Z.eqb_eq in Hst as ->.
        destruct (sitemap_entries_raises base (doc_sitemap_locs doc) ∅) as [Hr Ho].
        destruct (decide (None ∈ doc_sitemap_locs doc)) as [Hnone|Hnone].
        -- rewrite (Hr Hnone).
           exists [(Sitemap, urljoin base sp, Response 200 doc)]. simpl.
           split_and!; try done.
           ++ by exists (urljoin base <$> paths).
           ++ by exists (Sitemap, urljoin base sp, Response 200 doc), doc.
        -- destruct (Ho Hnone) as (urls & ->). apply Hskip. by intros doc' [= <-].
      * apply Z.eqb_neq in Hst. apply Hskip. by intros doc' [= ? _].
    + apply Hskip. by intros doc' [=].
Qed.

(** *** More on metadata extraction *)

Lemma len_or_zero_length x : len_or_zero x = from_option py_len 0%nat x.
Proof.
  tidy. destruct x as [s|]; [|done]. simpl.
  destruct (String.eqb s "") eqn:Heq; [|done].
  by apply String.eqb_eq in Heq as ->.
Qed.

Lemma html_breadcrumbs_imap k items :
  html_breadcrumbs k items = imap (λ i, html_crumb (k + i)) items.
Proof.
  tidy. revert k. induction items as [|item items IH]; intros k; [done|].
  cbn [html_breadcrumbs imap]. rewrite IH, Nat.add_0_r.
  rewrite (imap_ext ((λ i, html_crumb (k + i)) ∘ S)
             (λ i, html_crumb (S k + i)) items)
    by (intros i x _; simpl; f_equal; lia).
  unfold html_crumb.
  by destruct (li_anchor item) as [[text [href|]]|].
Qed.

(** X8. Missing markup is never a failure.  On a page whose JSON-LD
    scripts are malformed texts, objects of other types or well-formed
    breadcrumb lists, extraction succeeds: the title, the heading, the
    description and the canonical URL are the page's or absent, and the
    two lengths are the numbers of characters (not of bytes) of the title
    and of the description, 0 when absent. *)
Theorem missing_markup_is_absent_not_an_error doc blocks :
  Forall2 script_items (doc_json_ld doc) blocks →
  ∃ m, extract_meta repr_composite doc = Ok m ∧
       md_title m = doc_title doc ∧
       md_title_length m = from_option py_len 0%nat (doc_title doc) ∧
       md_meta_description m = mjoin (doc_meta_description doc) ∧
       md_meta_description_length m
         = from_option py_len 0%nat (mjoin (doc_meta_description doc)) ∧
       md_h1_title m = doc_h1 doc ∧
       md_canonical_url m = mjoin (doc_canonical doc).
Proof.
  intros Hscripts. unfold extract_meta.
  rewrite (json_ld_breadcrumbs_spec _ _ [] Hscripts).
  eexists. split; [reflexivity|]. simpl. by rewrite !len_or_zero_length.
Qed.

(** X9. The HTML fallback.  When the JSON-LD scripts contribute no item,
    the trail is made of the items of the breadcrumb container, numbered
    from 1 in document order, each with the text and [href] of its link,
    or with its own text and [No URL]; without a container, or with an
    empty one, there is no trail. *)
Theorem fallback_breadcrumbs_are_numbered_from_one doc blocks :
  Forall2 script_items (doc_json_ld doc) blocks →
  concat blocks = [] →
  ∃ m, extract_meta repr_composite doc = Ok m ∧
       md_breadcrumbs m =
         match doc_breadcrumb_items doc with
         | Some (item :: items) =>
             Some (join " > " (imap (λ i, html_crumb (S i)) (item :: items)))
         | _ => None
         end.
Proof.
  intros Hscripts Hnone. unfold extract_meta.
  rewrite (json_ld_breadcrumbs_spec _ _ [] Hscripts), Hnone.
  eexists. split; [reflexivity|]. cbn [md_breadcrumbs app fmap list_fmap].
  destruct (doc_breadcrumb_items doc) as [[|item items]|]; try done.
  by rewrite html_breadcrumbs_imap.
Qed.

Lemma breadcrumb_items_bad good bad more acc :
  (∀ item, bad ≠ JObj item) →
  breadcrumb_items repr_composite ((JObj <$> good) ++ bad :: more) acc
    = Raise AttributeError.
Proof.
  intros Hbad. revert acc. induction good as [|item good IH]; intros acc; simpl.
  - destruct bad; try done. by destruct (Hbad kv).
  - apply IH.
Qed.

Lemma script_raises_now sc e rest acc :
  script_raises sc e →
  json_ld_breadcrumbs repr_composite (sc :: rest) acc = Raise e.
Proof.
  intros Hsc. destruct Hsc as [|v Hv|kv Hty Hit|kv v Hty Hit Hv|kv good bad more Hty Hit Hbad];
    simpl.
  - done.
  - destruct v; try done. by destruct (Hv kv).
  - by rewrite Hty, Hit.
  - rewrite Hty, Hit. simpl. by destruct Hv as [->|[[b ->]|[z ->]]].
  - rewrite Hty, Hit. simpl. by rewrite breadcrumb_items_bad.
Qed.

(** X10. Only a text that does not parse is skipped.  After scripts that
    are skipped or well formed, a script without text, a text that parses
    to something other than an object, or a [BreadcrumbList] whose
    [itemListElement] is missing, cannot be iterated or holds something
    other than an object makes extraction raise [TypeError],
    [AttributeError] or [KeyError], whatever follows and whatever else
    the page holds. *)
Theorem ill_typed_json_ld_raises doc before blocks sc e rest :
  doc_json_ld doc = before ++ sc :: rest →
  Forall2 script_items before blocks →
  script_raises sc e →
  extract_meta repr_composite doc = Raise e.
Proof.
  intros Hdoc Hbefore Hsc. unfold extract_meta. rewrite Hdoc.
  assert (H : ∀ acc, json_ld_breadcrumbs repr_composite (before ++ sc :: rest) acc
                     = Raise e); [|by rewrite H].
  clear Hdoc. induction Hbefore as [|s items before blocks Hs _ IH]; intros acc.
  - by apply script_raises_now.
  - cbn [app json_ld_breadcrumbs].
    destruct Hs as [|kv Hty|kv items Hty Hitems].
    + apply IH.
    + destruct (dict_get "@type" kv) as [[| | |ty| |]|]; try apply IH.
      destruct (String.eqb ty "BreadcrumbList") eqn:Heq; [|apply IH].
      apply String.eqb_eq in Heq as ->. done.
    + rewrite Hty, Hitems. simpl. rewrite breadcrumb_items_spec. apply IH.
Qed.

(** *** More on whole runs *)

Lemma top_level_catches e msg : top_level e ≠ Uncaught (RequestException msg).
Proof. tidy. by destruct e. Qed.

(** The run, phase by phase. *)
Lemma scan_cases url d (n : net W) :
  ∃ r0 n1,
    get SeedProbe url n = (r0, n1) ∧
    (((∀ doc, r0 ≠ Response 200 doc) ∧
      ∃ text, scan url d n = (ErrorText ("Error: " +:+ text), n1)) ∨
     (∃ doc0 edges v n2 broken n3 sm n4,
        r0 = Response 200 doc0 ∧
        crawl d url ∅ n1 = (edges, v, n2) ∧
        validate edges n2 = (broken, n3) ∧
        sitemaps url n3 = (sm, n4) ∧
        match sm with
        | Raise e => scan url d n = (top_level e, n4)
        | Ok urls =>
            ∃ m n5,
              meta_of url n4 = (m, n5) ∧
              match m with
              | Raise e => scan url d n = (top_level e, n5)
              | Ok m =>
                  ∃ res n6,
                    collect_rows W http_get url_path repr_composite
                      (set_map url_path urls) edges
                      [(url, make_row url m
                               (bool_decide (url_path url
                                               ∈ (set_map url_path urls : gset string))))]
                      n5 = (res, n6) ∧
                    scan url d n =
                      (match res with
                       | Raise e => top_level e
                       | Ok results => Report results.*2 broken
                       end, n6)
              end
        end)).
Proof.
  unfold scan_and_check_links.
  destruct (get SeedProbe url n) as [r0 n1]. exists r0, n1. split; [done|].
  destruct r0 as [st doc0|msg].
  - destruct (st =? 200) eqn:Hst; simpl negb; cbv iota.
    + apply Z.eqb_eq in Hst as ->. right.
      destruct (crawl d url ∅ n1) as [[edges v] n2] eqn:Hc.
      destruct (validate edges n2) as [broken n3] eqn:Hv.
      destruct (sitemaps url n3) as [sm n4] eqn:Hs.
      exists doc0, edges, v, n2, broken, n3, sm, n4. split_and!; try done.
      destruct sm as [urls|e]; [|reflexivity].
      destruct (meta_of url n4) as [m n5] eqn:Hm. exists m, n5. split; [done|].
      destruct m as [m|e]; [|reflexivity].
      destruct (collect_rows W http_get url_path repr_composite
                  (set_map url_path urls) edges
                  [(url, make_row url m
                           (bool_decide (url_path url
                                           ∈ (set_map url_path urls : gset string))))]
                  n5) as [res n6] eqn:Hr.
      exists res, n6. split; [done|]. destruct res; reflexivity.
    + apply Z.eqb_neq in Hst. left. split; [by intros doc [= ? _]|].
      by exists ("Unable to access " +:+ url).
  - left. split; [done|]. by exists msg.
Qed.

(** The three shapes of the outcome of a run. *)
Lemma scan_outcome_shape url d (n : net W) :
  (∃ rows broken, (scan url d n).1 = Report rows broken) ∨
  (∃ rest, (scan url d n).1 = ErrorText ("Error: " +:+ rest)) ∨
  (∃ e, (scan url d n).1 = Uncaught e ∧ ∀ msg, e ≠ RequestException msg).
Proof.
  assert (Htop : ∀ e,
    (∃ rest, top_level e = ErrorText ("Error: " +:+ rest)) ∨
    (∃ e', top_level e = Uncaught e' ∧ ∀ msg, e' ≠ RequestException msg)).
  { intros [msg| | |]; [left; by exists msg|right..]; by eexists. }
  destruct (scan_cases url d n) as (r0 & n1 & _ & [[_ (text0 & Hs)]|Hrun]).
  { rewrite Hs. right. left. by exists text0. }
  destruct Hrun as (doc0 & edges & v & n2 & broken & n3 & sm & n4 & _ & _ & _ & _ & Hsm).
  destruct sm as [urls|e]; [|rewrite Hsm; right; apply Htop].
  destruct Hsm as (m & n5 & _ & Hm).
  destruct m as [m|e]; [|rewrite Hm; right; apply Htop].
  destruct Hm as (res & n6 & _ & ->). destruct res as [results|e]; simpl.
  - left. by eexists _, _.
  - right. apply Htop.
Qed.

(** X11. No [requests.RequestException] leaves [scan_and_check_links], and
    every error text it returns begins with [Error: ]. *)
Theorem request_errors_become_error_texts url d (n : net W) :
  (∀ msg, (scan url d n).1 ≠ Uncaught (RequestException msg)) ∧
  (∀ text, (scan url d n).1 = ErrorText text →
           ∃ rest, text = "Error: " +:+ rest).
Proof.
  destruct (scan_outcome_shape url d n)
    as [(rows & broken & ->)|[(rest & ->)|(e & -> & He)]].
  - split; [done|]. by intros text [=].
  - split; [done|]. intros text [= <-]. by exists rest.
  - split; [|by intros text [=]]. intros msg [= ->]. by apply (He msg).
Qed.

(** X20. The main block never prints an error that
    [scan_and_check_links] returns: unpacking the returned text into two
    names raises [ValueError], because the text has more than two
    characters.  A report goes to the spreadsheet, and an exception the
    run did not catch leaves the program. *)
Theorem main_never_prints_the_error url d (n : net W) email :
  (∀ text, after_scan (scan url d n).1 email ≠ Printed text) ∧
  (∀ text, (scan url d n).1 = ErrorText text →
           after_scan (scan url d n).1 email = Dies ValueError).
Proof.
  destruct (scan_outcome_shape url d n)
    as [(rows & broken & ->)|[(rest & ->)|(e & -> & He)]]; simpl.
  - split; [done|]. by intros text [=].
  - done.
  - split; [done|]. by intros text [=].
Qed.

Lemma validate_requests links (n : net W) :
  ∃ new : list event,
    trace (validate links n).2 = trace n ++ new ∧
    Forall (λ e, event_site e = Validate) new ∧
    event_url <$> new = links.*1.
Proof.
  tidy. revert n. induction links as [|[t p] links IH]; intros n.
  - exists []. simpl. by rewrite app_nil_r.
  - cbn [check_for_error_links].
    destruct (get Validate t n) as [r n1] eqn:Hget.
    apply requests_get_spec in Hget as [Htr _].
    destruct (IH n1) as (new & Htr2 & Hs & Hu).
    destruct (validate links n1) as [later n2]. simpl in *.
    exists ((Validate, t, r) :: new). split_and!.
    + by rewrite Htr2, Htr, <- app_assoc.
    + by constructor.
    + rewrite !fmap_cons. by rewrite Hu.
Qed.

Lemma get_meta_data_result u (n : net W) :
  ∃ r, trace (meta_of u n).2 = trace n ++ [(Metadata, u, r)] ∧
       (meta_of u n).1 = meta_result repr_composite r.
Proof. apply get_meta_data_spec. Qed.

Lemma collect_rows_more paths links results (n : net W) :
  let res := collect_rows W http_get url_path repr_composite paths links results n in
  ∃ new : list event,
    trace res.2 = trace n ++ new ∧
    (∀ ev e, ev ∈ new → meta_result repr_composite (event_response ev) = Raise e →
             res.1 = Raise e ∧ last new = Some ev) ∧
    match res.1 with
    | Ok results' =>
        results'.*1 = results.*1 ++ first_occurrences results.*1 links.*1
    | Raise e =>
        ∃ ev, last new = Some ev ∧
              meta_result repr_composite (event_response ev) = Raise e
    end.
Proof.
  cbv zeta. revert results n.
  induction links as [|[t p] links IH]; intros results n.
  - exists []. simpl. rewrite !app_nil_r. split_and!; try done.
    by intros ev e ?%elem_of_nil.
  - cbn [collect_rows fmap list_fmap first_occurrences fst].
    rewrite bool_decide_not. destruct (bool_decide (t ∈ results.*1)); simpl.
    + apply IH.
    + destruct (get_meta_data_result t n) as (r & Htr & Hm).
      destruct (meta_of t n) as [m n1]. simpl in Htr, Hm. subst m.
      destruct (meta_result repr_composite r) as [m|e] eqn:Hr.
      * specialize (IH (results ++
            [(t, make_row t m (bool_decide (url_path t ∈ paths)))]) n1).
        destruct (collect_rows W http_get url_path repr_composite paths links
                    _ n1) as [res n2].
        destruct IH as (new & Htr2 & Hfail & Hres). simpl in *.
        exists ((Metadata, t, r) :: new). split_and!.
        -- by rewrite Htr2, Htr, <- app_assoc.
        -- intros ev e [->|Hin]%elem_of_cons Hev.
           ++ simpl in Hev. congruence.
           ++ destruct (Hfail ev e Hin Hev) as [-> Hlast]. split; [done|].
              destruct new; [by apply elem_of_nil in Hin|done].
        -- destruct res as [results'|e].
           ++ rewrite Hres, fmap_app. simpl. by rewrite <- app_assoc.
           ++ destruct Hres as (ev & Hlast & Hev). exists ev. split; [|done].
              destruct new; [done|done].
      * exists [(Metadata, t, r)]. simpl. split_and!; try done.
        -- intros ev e' ->%list_elem_of_singleton Hev. simpl in Hev.
           split; [congruence|done].
        -- by exists (Metadata, t, r).
Qed.

Lemma requests_by_site url r0 (tC tV tS tM : list event) :
  Forall (λ e, event_site e = Traverse) tC →
  Forall (λ e, event_site e = Validate) tV →
  Forall (λ e, event_site e = Sitemap) tS →
  Forall (λ e, event_site e = Metadata) tM →
  requests_at SeedProbe ((SeedProbe, url, r0) :: tC ++ tV ++ tS ++ tM)
    = [(SeedProbe, url, r0)] ∧
  requests_at Traverse ((SeedProbe, url, r0) :: tC ++ tV ++ tS ++ tM) = tC.
Proof.
  tidy. intros HC HV HS HM. unfold requests_at.
  rewrite filter_cons_True, filter_cons_False by done. rewrite !filter_app.
  fold (requests_at SeedProbe tC) (requests_at SeedProbe tV)
       (requests_at SeedProbe tS) (requests_at SeedProbe tM)
       (requests_at Traverse tC) (requests_at Traverse tV)
       (requests_at Traverse tS) (requests_at Traverse tM).
  rewrite (requests_at_same _ _ HC).
  rewrite (requests_at_other SeedProbe Traverse tC),
    (requests_at_other SeedProbe Validate tV),
    (requests_at_other SeedProbe Sitemap tS),
    (requests_at_other SeedProbe Metadata tM),
    (requests_at_other Traverse Validate tV),
    (requests_at_other Traverse Sitemap tS),
    (requests_at_other Traverse Metadata tM) by done.
  by rewrite !app_nil_r.
Qed.

(** The requests of a run that starts with an empty trace, phase by phase,
    what makes the run fail and what a report is made of. *)
Lemma run_segments url d (w : W) :
  let res := scan url d (fresh w) in
  let c := crawl d url ∅ (get SeedProbe url (fresh w)).2 in
  ∃ r0 tC tV tS tM,
    trace res.2 = (SeedProbe, url, r0) :: tC ++ tV ++ tS ++ tM ∧
    Forall (λ e, event_site e = Traverse) tC ∧
    Forall (λ e, event_site e = Validate) tV ∧
    Forall (λ e, event_site e = Sitemap) tS ∧
    Forall (λ e, event_site e = Metadata) tM ∧
    (∀ ev doc, ev ∈ tS → event_response ev = Response 200 doc →
               None ∈ doc_sitemap_locs doc →
               res.1 = Uncaught AttributeError ∧ tM = []) ∧
    (∀ ev e, ev ∈ tM → meta_result repr_composite (event_response ev) = Raise e →
             res.1 = top_level e ∧ last tM = Some ev) ∧
    ∀ rows broken, res.1 = Report rows broken →
      length tC = size c.1.2 ∧
      event_url <$> tV = c.1.1.*1 ∧
      event_url <$> tS = urljoin url <$> sitemap_paths ∧
      event_url <$> tM = link <$> rows ∧
      link <$> rows = url :: first_occurrences [url] c.1.1.*1 ∧
      broken = (validate c.1.1 c.2).1.
Proof.
  cbv zeta.
  destruct (scan_cases url d (fresh w)) as (r0 & n1 & Hget & Hcases).
  rewrite Hget. cbn [snd].
  apply requests_get_spec in Hget as [Htr0 _]. simpl in Htr0.
  destruct Hcases as [[Hno (text & Hs)] | Hrun].
  { rewrite Hs. exists r0, [], [], [], []. simpl.
    split_and!; try done; try (by constructor).
    - by intros ev doc ?%elem_of_nil.
    - by intros ev e ?%elem_of_nil. }
  destruct Hrun as (doc0 & edges & v & n2 & broken & n3 & sm & n4
                    & -> & Hc & Hv & Hsm & Hrest).
  rewrite Hc. cbn [fst snd]. rewrite Hv. cbn [fst].
  destruct (crawl_step d url ∅ n1) as (tC & HtrC & HsC & HndC & HvC & _).
  rewrite Hc in HtrC, HvC. cbn [fst snd] in HtrC, HvC.
  destruct (validate_requests edges n2) as (tV & HtrV & HsV & HuV).
  rewrite Hv in HtrV. cbn [snd] in HtrV.
  destruct (probe_sitemaps_spec url sitemap_paths ∅ n3) as (tS & HtrS & HsS & _).
  destruct (probe_sitemaps_order url sitemap_paths ∅ n3)
    as (tS' & HtrS' & _ & HbadS & HresS).
  unfold get_sitemap_urls in Hsm. rewrite Hsm in HtrS, HtrS', HbadS, HresS.
  cbn [fst snd] in HtrS, HtrS', HbadS, HresS.
  assert (tS' = tS) as -> by (rewrite HtrS in HtrS'; by apply app_inv_head in HtrS').
  clear HtrS'.
  assert (HsS' : Forall (λ e, event_site e = Sitemap) tS).
  { eapply Forall_impl; [exact HsS|]. by intros e [? _]. }
  assert (HlenC : length tC = size v).
  { rewrite HvC, (left_id_L ∅ (∪)), size_list_to_set by done.
    by rewrite length_fmap. }
  destruct sm as [urls|e].
  2:{ destruct HresS as (-> & _). rewrite Hrest.
      exists (Response 200 doc0), tC, tV, tS, []. simpl.
      split_and!; try done; try (by constructor).
      all: try (by intros ev e ?%elem_of_nil).
      all: try (intros ev doc Hin Hr Hnone; by specialize (HbadS ev doc Hin Hr Hnone)).
      rewrite HtrS, HtrV, HtrC, Htr0, app_nil_r. simpl. by rewrite <- !app_assoc. }
  destruct Hrest as (m & n5 & Hm & Hrest).
  destruct (get_meta_data_result url n4) as (r & HtrM & Hmr).
  rewrite Hm in HtrM, Hmr. cbn [fst snd] in HtrM, Hmr.
  destruct m as [m|e].
  2:{ rewrite Hrest. exists (Response 200 doc0), tC, tV, tS, [(Metadata, url, r)].
      simpl. split_and!; try done; try (by repeat constructor).
      all: try (intros ev doc Hin Hr Hnone; by specialize (HbadS ev doc Hin Hr Hnone)).
      - rewrite HtrM, HtrS, HtrV, HtrC, Htr0. simpl. by rewrite <- !app_assoc.
      - intros ev e' ->%list_elem_of_singleton Hev. simpl in Hev.
        split; [congruence|done].
      - intros rows b Hrep. by apply top_level_no_report in Hrep. }
  destruct Hrest as (res & n6 & Hrows & ->). cbn [fst snd].
  set (paths := set_map url_path urls : gset string) in *.
  set (row0 := make_row url m (bool_decide (url_path url ∈ paths))) in *.
  destruct (collect_rows_spec paths edges [(url, row0)] n5)
    as (tM & HtrR & HsM & Hok); [apply NoDup_singleton|].
  destruct (collect_rows_more paths edges [(url, row0)] n5)
    as (tM' & HtrR' & Hfail & Hres).
  rewrite Hrows in HtrR, HtrR', Hok, Hfail, Hres.
  cbn [fst snd] in HtrR, HtrR', Hok, Hfail, Hres.
  assert (tM' = tM) as -> by (rewrite HtrR in HtrR'; by apply app_inv_head in HtrR').
  clear HtrR'.
  exists (Response 200 doc0), tC, tV, tS, ((Metadata, url, r) :: tM).
  split_and!; try done; try (by constructor).
  all: try (intros ev doc Hin Hr Hnone; by specialize (HbadS ev doc Hin Hr Hnone)).
  - rewrite HtrR, HtrM, HtrS, HtrV, HtrC, Htr0. simpl. by rewrite <- !app_assoc.
  - intros ev e [->|Hin]%elem_of_cons Hev.
    + simpl in Hev. congruence.
    + destruct (Hfail ev e Hin Hev) as [-> Hlast]. split; [done|].
      destruct tM; [by apply elem_of_nil in Hin|done].
  - intros rows b Hrep. destruct res as [results|e];
      [|by apply top_level_no_report in Hrep].
    injection Hrep as <- <-.
    destruct (Hok results eq_refl) as (added & -> & _ & _ & Hkeys & Hfrom).
    assert (Hlinks : link <$> ([(url, row0)] ++ added).*2
                     = ([(url, row0)] ++ added).*1).
    { rewrite !fmap_app, Hkeys. done. }
    split_and!; try done.
    + rewrite Hlinks, fmap_app, fmap_cons. simpl. f_equal.
      rewrite Hkeys. clear -Hfrom.
      induction Hfrom as [|e row tM rows' (_ & Hu & _) _ IH]; [done|].
      rewrite !fmap_cons. by rewrite Hu, IH.
    + rewrite Hlinks, Hres. done.
Qed.

Lemma validate_records_sublist links (n : net W) :
  sublist (record_edge <$> (validate links n).1) links.
Proof.
  tidy. revert n. induction links as [|[t p] links IH]; intros n; [done|].
  cbn [check_for_error_links].
  destruct (get Validate t n) as [r n1]. specialize (IH n1).
  destruct (validate links n1) as [later n2]. simpl in *.
  destruct r as [st doc|msg]; simpl.
  - destruct (st =? 404); [by constructor|].
    destruct (negb (st =? 200)); simpl; by constructor.
  - by constructor.
Qed.

(** X12. A failed extraction ends the run.  When the answer to a metadata
    request of a run is a transport failure, or a page on which
    extraction raises, that request is the last of the run and the run
    returns what its handler makes of the exception: the text
    [Error: ...] for a transport failure, the exception itself otherwise;
    in neither case a report. *)
Theorem failed_extraction_ends_the_run url d (w : W) ev e :
  ev ∈ requests_at Metadata (trace (scan url d (fresh w)).2) →
  meta_result repr_composite (event_response ev) = Raise e →
  (scan url d (fresh w)).1 = top_level e ∧
  last (trace (scan url d (fresh w)).2) = Some ev.
Proof.
  intros Hin Hev.
  destruct (run_segments url d w)
    as (r0 & tC & tV & tS & tM & Htr & HC & HV & HS & HM & _ & Hfail & _).
  rewrite Htr in Hin |- *.
  destruct (phases_split url r0 tC tV tS tM HC HV HS HM) as (_ & _ & EM).
  rewrite EM in Hin. destruct (Hfail ev e Hin Hev) as [-> Hlast].
  split; [done|].
  rewrite !app_assoc, (app_comm_cons _ tM), last_app, Hlast. done.
Qed.

(** X14. The rows of a report are in the order of first discovery: the
    seed, then the targets of the edges in the order of the edge list,
    each at its first occurrence. *)
Theorem rows_are_in_discovery_order url d (w : W) rows broken :
  (scan url d (fresh w)).1 = Report rows broken →
  link <$> rows =
    url :: first_occurrences [url]
             (crawl d url ∅ (get SeedProbe url (fresh w)).2).1.1.*1.
Proof.
  intros Hrep.
  destruct (run_segments url d w)
    as (r0 & tC & tV & tS & tM & _ & _ & _ & _ & _ & _ & _ & Hok).
  by destruct (Hok rows broken Hrep) as (_ & _ & _ & _ & ? & _).
Qed.

(** X15. The requests of a run that ends with a report: one probe of the
    seed, one request per visited URL by the traversal, one per edge by
    the validator, the three sitemap probes, and one per row by the
    metadata pass, in this order of phases. *)
Theorem requests_of_a_reported_run url d (w : W) rows broken :
  (scan url d (fresh w)).1 = Report rows broken →
  let c := crawl d url ∅ (get SeedProbe url (fresh w)).2 in
  let tr := trace (scan url d (fresh w)).2 in
  tr = requests_at SeedProbe tr ++ requests_at Traverse tr ++
       requests_at Validate tr ++ requests_at Sitemap tr ++
       requests_at Metadata tr ∧
  event_url <$> requests_at SeedProbe tr = [url] ∧
  length (requests_at Traverse tr) = size c.1.2 ∧
  event_url <$> requests_at Validate tr = c.1.1.*1 ∧
  event_url <$> requests_at Sitemap tr = urljoin url <$> sitemap_paths ∧
  event_url <$> requests_at Metadata tr = link <$> rows ∧
  length tr = (1 + size c.1.2 + length c.1.1 + 3 + length rows)%nat.
Proof.
  intros Hrep. cbv zeta.
  destruct (run_segments url d w)
    as (r0 & tC & tV & tS & tM & Htr & HC & HV & HS & HM & _ & _ & Hok).
  destruct (Hok rows broken Hrep) as (HlC & HuV & HuS & HuM & _ & _).
  rewrite Htr.
  destruct (phases_split url r0 tC tV tS tM HC HV HS HM) as (EV & ES & EM).
  destruct (requests_by_site url r0 tC tV tS tM HC HV HS HM) as (EP & EC).
  rewrite EV, ES, EM, EP, EC. split_and!; try done.
  simpl. rewrite !length_app, HlC.
  rewrite <- (length_fmap event_url tV), HuV, length_fmap.
  rewrite <- (length_fmap event_url tS), HuS, length_fmap.
  rewrite <- (length_fmap event_url tM), HuM, length_fmap. simpl. lia.
Qed.

(** X16. The broken links of a report are what the validator returns for
    the edges of the traversal, from the state the traversal leaves; their
    edges are a sublist of those edges, and every broken link has a row of
    its own in the report. *)
Theorem broken_links_of_a_report url d (w : W) rows broken :
  (scan url d (fresh w)).1 = Report rows broken →
  let c := crawl d url ∅ (get SeedProbe url (fresh w)).2 in
  broken = (validate c.1.1 c.2).1 ∧
  sublist (record_edge <$> broken) c.1.1 ∧
  Forall (λ b : broken_link, b.1.1 ∈ link <$> rows) broken.
Proof.
  intros Hrep. cbv zeta.
  destruct (run_segments url d w)
    as (r0 & tC & tV & tS & tM & _ & _ & _ & _ & _ & _ & _ & Hok).
  destruct (Hok rows broken Hrep) as (_ & _ & _ & _ & _ & ->).
  destruct (fresh_run url d w) as (_ & _ & Hrows).
  destruct (Hrows rows _ Hrep) as (urls & _ & _ & _ & Hmem).
  pose proof (validate_records_sublist
                (crawl d url ∅ (get SeedProbe url (fresh w)).2).1.1
                (crawl d url ∅ (get SeedProbe url (fresh w)).2).2) as Hsub.
  split_and!; [done|done|].
  apply Forall_forall. intros [[t p] o] Hb. simpl. apply Hmem. right.
  apply list_elem_of_fmap. exists (t, p). split; [done|].
  eapply elem_of_sublist; [|exact Hsub].
  apply list_elem_of_fmap. by exists (t, p, o).
Qed.

(** *** The depth bound and the hosts contacted *)

Lemma within_mono seed k k' u :
  within http_get netloc urljoin seed k u → (k ≤ k')%nat →
  within http_get netloc urljoin seed k' u.
Proof.
  tidy. intros H. revert k'.
  induction H as [k|k u w doc href _ IH Hget Hin Hhash Hdom]; intros k' Hle.
  - constructor.
  - destruct k' as [|k']; [lia|]. eapply within_link; eauto. apply IH. lia.
Qed.

Lemma within_trans a b c j k :
  within http_get netloc urljoin a j b →
  within http_get netloc urljoin b k c →
  within http_get netloc urljoin a (j + k) c.
Proof.
  tidy. intros Hab Hbc.
  induction Hbc as [k|k u w doc href _ IH Hget Hin Hhash Hdom].
  - eapply within_mono; [exact Hab|lia].
  - rewrite Nat.add_succ_r. eapply within_link; eauto.
Qed.

Lemma expand_depth rec d todo v (n : net W) :
  (∀ base v n,
     ∃ new : list event,
       trace (rec base v n).2 = trace n ++ new ∧
       (∀ u, u ∈ event_url <$> new → within http_get netloc urljoin base d u) ∧
       Forall (λ e : edge, within http_get netloc urljoin base (S d) e.1)
              (rec base v n).1.1) →
  ∃ new : list event,
    trace (expand W rec todo v n).2 = trace n ++ new ∧
    (∀ u, u ∈ event_url <$> new →
          ∃ t, t ∈ todo.*1 ∧ within http_get netloc urljoin t d u) ∧
    Forall (λ e : edge,
              ∃ t, t ∈ todo.*1 ∧ within http_get netloc urljoin t (S d) e.1)
           (expand W rec todo v n).1.1.
Proof.
  tidy. intros Hrec. revert v n.
  induction todo as [|[t p] todo IH]; intros v n; simpl.
  - exists []. rewrite app_nil_r. split_and!; [done| |constructor].
    by intros u ?%elem_of_nil.
  - specialize (Hrec t v n). destruct (rec t v n) as [[more v1] n1].
    specialize (IH v1 n1). destruct (expand W rec todo v1 n1) as [[later v2] n2].
    destruct Hrec as (new1 & Htr1 & Hu1 & He1).
    destruct IH as (new2 & Htr2 & Hu2 & He2).
    simpl in *. exists (new1 ++ new2). split_and!.
    + by rewrite Htr2, Htr1, app_assoc.
    + intros u. rewrite fmap_app, elem_of_app. intros [Hin|Hin].
      * exists t. split; [left|by apply Hu1].
      * destruct (Hu2 u Hin) as (t' & ? & ?). exists t'. split; [by right|done].
    + apply Forall_app. split.
      * eapply Forall_impl; [exact He1|]. simpl. intros e ?.
        exists t. split; [left|done].
      * eapply Forall_impl; [exact He2|]. simpl. intros e (t' & ? & ?).
        exists t'. split; [by right|done].
Qed.

Lemma crawl_depth d : ∀ base v (n : net W),
  ∃ new : list event,
    trace (crawl d base v n).2 = trace n ++ new ∧
    (∀ u, u ∈ event_url <$> new → within http_get netloc urljoin base d u) ∧
    Forall (λ e : edge, within http_get netloc urljoin base (S d) e.1)
           (crawl d base v n).1.1.
Proof.
  tidy.
  assert (Hstop : ∀ k base (n n1 : net W) r (v' : gset string),
    get Traverse base n = (r, n1) →
    ∃ new : list event,
      trace ((([] : list edge), v', n1)).2 = trace n ++ new ∧
      (∀ u, u ∈ event_url <$> new → within http_get netloc urljoin base k u) ∧
      Forall (λ e : edge, within http_get netloc urljoin base (S k) e.1)
             ((([] : list edge), v', n1)).1.1).
  { intros k base n n1 r v' [Htr _]%requests_get_spec.
    exists [(Traverse, base, r)]. simpl. split_and!; [done| |constructor].
    intros u ->%list_elem_of_singleton. constructor. }
  assert (Hpage : ∀ base v (n n1 : net W) doc,
    get Traverse base n = (Response 200 doc, n1) →
    Forall (λ e : edge, within http_get netloc urljoin base 1 e.1)
           (links_of base (netloc base) ({[base]} ∪ v) (doc_hrefs doc))).
  { intros base v n n1 doc [_ Hresp]%requests_get_spec.
    apply Forall_forall. intros [t p] Hin.
    apply elem_of_page_links in Hin as (-> & _ & ? & href & ? & ? & ->). simpl.
    eapply within_link; eauto. constructor. }
  induction d as [|d IH]; intros base v n; rewrite crawl_unfold;
    case_bool_decide as Hv.
  - exists []. simpl. rewrite app_nil_r. split_and!; [done| |constructor].
    by intros u ?%elem_of_nil.
  - destruct (get Traverse base n) as [r n1] eqn:Hget.
    destruct r as [st doc|msg]; [|by eapply Hstop].
    destruct (st =? 200) eqn:Hst; simpl negb; cbv iota; [|by eapply Hstop].
    apply Z.eqb_eq in Hst as ->.
    pose proof (Hpage base v n n1 doc Hget) as Hlinks.
    apply requests_get_spec in Hget as [Htr _].
    exists [(Traverse, base, Response 200 doc)]. simpl. split_and!; [done| |done].
    intros u ->%list_elem_of_singleton. constructor.
  - exists []. simpl. rewrite app_nil_r. split_and!; [done| |constructor].
    by intros u ?%elem_of_nil.
  - destruct (get Traverse base n) as [r n1] eqn:Hget.
    destruct r as [st doc|msg]; [|by eapply Hstop].
    destruct (st =? 200) eqn:Hst; simpl negb; cbv iota; [|by eapply Hstop].
    apply Z.eqb_eq in Hst as ->. cbv zeta.
    pose proof (Hpage base v n n1 doc Hget) as Hlinks.
    apply requests_get_spec in Hget as [Htr _].
    set (links := links_of base (netloc base) ({[base]} ∪ v) (doc_hrefs doc)) in *.
    destruct (expand_depth (crawl d) d links ({[base]} ∪ v) n1 IH)
      as (new & Htr2 & Hu2 & He2).
    destruct (expand W (crawl d) links ({[base]} ∪ v) n1) as [[more v2] n2].
    simpl in *.
    assert (Hroot : ∀ t, t ∈ links.*1 → within http_get netloc urljoin base 1 t).
    { intros t ([t' p] & -> & Hin)%list_elem_of_fmap.
      rewrite Forall_forall in Hlinks. by apply (Hlinks _ Hin). }
    exists ((Traverse, base, Response 200 doc) :: new). simpl. split_and!.
    + by rewrite Htr2, Htr, <- app_assoc.
    + intros u [->|Hin]%elem_of_cons; [constructor|].
      destruct (Hu2 u Hin) as (t & Ht & Hw).
      apply (within_trans base t u 1 d); [by apply Hroot|done].
    + apply Forall_app. split.
      * eapply Forall_impl; [exact Hlinks|]. simpl. intros e He.
        eapply within_mono; [exact He|lia].
      * eapply Forall_impl; [exact He2|]. simpl. intros e (t & Ht & Hw).
        apply (within_trans base t e.1 1 (S d)); [by apply Hroot|done].
Qed.

(** X21. The depth bound.  A traversal with [max_depth = d] requests only
    URLs at most [d] links away from the URL it is started on, and
    records only targets at most [d + 1] links away. *)
Theorem traversal_respects_the_depth d base visited (n : net W) :
  let res := crawl d base visited n in
  ∃ new : list event,
    trace res.2 = trace n ++ new ∧
    (∀ u, u ∈ event_url <$> new → within http_get netloc urljoin base d u) ∧
    Forall (λ e : edge, within http_get netloc urljoin base (S d) e.1) res.1.1.
Proof. tidy. apply crawl_depth. Qed.

Lemma collect_rows_urls paths links results (n : net W) :
  let res := collect_rows W http_get url_path repr_composite paths links results n in
  ∃ new : list event,
    trace res.2 = trace n ++ new ∧
    Forall (λ e, event_url e ∈ links.*1) new.
Proof.
  cbv zeta. revert results n.
  induction links as [|[t p] links IH]; intros results n.
  - exists []. simpl. by rewrite app_nil_r.
  - cbn [collect_rows fst]. destruct (bool_decide (t ∉ results.*1)).
    + destruct (get_meta_data_result t n) as (r & Htr & _).
      destruct (meta_of t n) as [m n1]. simpl in Htr.
      destruct m as [m|e].
      * destruct (IH (results ++
            [(t, make_row t m (bool_decide (url_path t ∈ paths)))]) n1)
          as (new & Htr2 & Hu).
        exists ((Metadata, t, r) :: new). split.
        -- by rewrite Htr2, Htr, <- app_assoc.
        -- constructor; [left|].
           eapply Forall_impl; [exact Hu|]. simpl. intros e ?. by right.
      * exists [(Metadata, t, r)]. split; [done|]. constructor; [left|constructor].
    + destruct (IH results n) as (new & Htr2 & Hu). exists new. split; [done|].
      eapply Forall_impl; [exact Hu|]. simpl. intros e ?. by right.
Qed.

(** X22. Apart from the sitemap probes, a run requests only the seed and
    targets of the edges of its traversal, whatever its outcome: it
    contacts no host but the seed's. *)
Theorem run_stays_on_the_seed_host url d (w : W) :
  let edges := (crawl d url ∅ (get SeedProbe url (fresh w)).2).1.1 in
  Forall (λ e, event_site e ≠ Sitemap →
               (event_url e = url ∨ event_url e ∈ edges.*1) ∧
               netloc (event_url e) = netloc url)
         (trace (scan url d (fresh w)).2).
Proof.
  cbv zeta.
  assert (Hhost : ∀ u,
    u = url ∨ u ∈ (crawl d url ∅ (get SeedProbe url (fresh w)).2).1.1.*1 →
    netloc u = netloc url).
  { intros u [->|([t p] & -> & Hin)%list_elem_of_fmap]; [done|].
    destruct (crawl_step d url ∅ (get SeedProbe url (fresh w)).2)
      as (_ & _ & _ & _ & _ & _ & He).
    rewrite Forall_forall in He.
    destruct (He _ Hin) as [(r & ->%list_elem_of_singleton & ? & _) _]. done. }
  eapply Forall_impl; [|intros e He Hs; split; [exact (He Hs)|apply Hhost, He, Hs]].
  destruct (scan_cases url d (fresh w)) as (r0 & n1 & Hget & Hcases).
  rewrite Hget. cbn [snd].
  apply requests_get_spec in Hget as [Htr0 _]. simpl in Htr0.
  assert (H0 : Forall (λ e : event, event_site e ≠ Sitemap →
                event_url e = url ∨ event_url e ∈ (crawl d url ∅ n1).1.1.*1)
                (trace n1)).
  { rewrite Htr0. constructor; [|constructor]. intros _. by left. }
  destruct Hcases as [[_ (text & ->)] | Hrun]; [done|].
  destruct Hrun as (doc0 & edges & v & n2 & broken & n3 & sm & n4
                    & -> & Hc & Hv & Hsm & Hrest).
  rewrite Hc in H0 |- *. cbn [fst snd] in H0 |- *.
  destruct (crawl_provenance d url ∅ n1) as (tC & HtrC & _ & _ & HuC).
  rewrite Hc in HtrC, HuC. cbn [fst snd] in HtrC, HuC.
  destruct (validate_requests edges n2) as (tV & HtrV & _ & HuV).
  rewrite Hv in HtrV. cbn [snd] in HtrV.
  destruct (probe_sitemaps_spec url sitemap_paths ∅ n3) as (tS & HtrS & HsS & _).
  unfold get_sitemap_urls in Hsm. rewrite Hsm in HtrS. cbn [snd] in HtrS.
  assert (H4 : Forall (λ e : event, event_site e ≠ Sitemap →
                event_url e = url ∨ event_url e ∈ edges.*1) (trace n4)).
  { rewrite HtrS, HtrV, HtrC. repeat apply Forall_app_2; try done.
    - apply Forall_forall. intros e He _.
      destruct (HuC (event_url e)) as [?%list_elem_of_singleton|?]; auto.
      apply list_elem_of_fmap. by exists e.
    - apply Forall_forall. intros e He _. right. rewrite <- HuV.
      apply list_elem_of_fmap. by exists e.
    - eapply Forall_impl; [exact HsS|]. simpl. by intros e [? _] ?. }
  destruct sm as [urls|e]; [|by rewrite Hrest].
  destruct Hrest as (m & n5 & Hm & Hrest).
  destruct (get_meta_data_result url n4) as (r & HtrM & _).
  rewrite Hm in HtrM. cbn [snd] in HtrM.
  assert (H5 : Forall (λ e : event, event_site e ≠ Sitemap →
                event_url e = url ∨ event_url e ∈ edges.*1) (trace n5)).
  { rewrite HtrM. apply Forall_app_2; [done|].
    constructor; [|constructor]. intros _. by left. }
  destruct m as [m|e]; [|by rewrite Hrest].
  destruct Hrest as (res & n6 & Hrows & ->). cbn [snd].
  destruct (collect_rows_urls (set_map url_path urls) edges
              [(url, make_row url m
                       (bool_decide (url_path url
                                       ∈ (set_map url_path urls : gset string))))]
              n5) as (tM & HtrR & HuM).
  rewrite Hrows in HtrR. cbn [snd] in HtrR.
  rewrite HtrR. apply Forall_app_2; [done|].
  eapply Forall_impl; [exact HuM|]. simpl. intros e ? _. by right.
Qed.

End Properties.

(** ** Properties of the program when [urllib.parse] raises *)

Section RaisingProperties.

Set Default Proof Using "Type".

Context {W : Type}.
Variable http_get : string → W → response * W.
Variable netloc : string → string.
Variable url_path : string → string.
Variable urljoin : string → string → string.
Variable repr_composite : json → string.
Variable urlparse_raises : string → bool.
Variable urljoin_raises : string → string → bool.

Local Ltac tidy :=
  try clear url_path; try clear repr_composite; try clear netloc;
  try clear urljoin; try clear urlparse_raises; try clear urljoin_raises;
  try clear http_get; try clear W.

Local Abbreviation crawl :=
  (Raising.extract_clickable_links_recursive W http_get netloc urljoin
     urlparse_raises urljoin_raises).
Local Abbreviation links_of :=
  (Raising.page_links netloc urljoin urlparse_raises urljoin_raises).
Local Abbreviation rejected :=
  (Raising.rejected urljoin urlparse_raises urljoin_raises).
Local Abbreviation get := (requests_get W http_get).
Local Abbreviation reachable := (reachable http_get netloc urljoin).
Local Abbreviation traversal_step := (traversal_step http_get netloc urljoin).
Local Abbreviation outcome_of res := (Raising.returned res.1.1, res.1.2, res.2).

(** *** The crawl engine *)

(** The loop over the hyperlinks of a page raises when one of them is
    rejected, and computes the links of the page otherwise. *)
Lemma page_links_checked base dom v hrefs :
  links_of base dom v hrefs =
  if existsb (rejected base) hrefs then Raising.Raises Raising.ValueError
  else Raising.Returns (page_links netloc urljoin base dom v hrefs).
Proof.
  tidy.
  induction hrefs as [|h hrefs IH]; [done|].
  cbn [Raising.page_links page_links existsb]. unfold Raising.rejected at 1.
  destruct (contains_hash h); simpl; [exact IH|].
  destruct (urljoin_raises base h); simpl; [done|].
  destruct (urlparse_raises (urljoin base h)); simpl; [done|].
  rewrite IH. destruct (existsb (rejected base) hrefs); [done|].
  by destruct (bool_decide (netloc (urljoin base h) = dom)
               && bool_decide (urljoin base h ∉ v)).
Qed.

Lemma checked_crawl_unfold d base v (n : net W) :
  crawl d base v n =
  if urlparse_raises base then (Raising.Raises Raising.ValueError, v, n)
  else if bool_decide (base ∈ v) then (Raising.Returns [], v, n)
  else
    let (r, n1) := get Traverse base n in
    match r with
    | ConnectionFailed _ => (Raising.Returns [], {[base]} ∪ v, n1)
    | Response status_code doc =>
        if negb (status_code =? 200) then (Raising.Returns [], {[base]} ∪ v, n1)
        else
          match links_of base (netloc base) ({[base]} ∪ v) (doc_hrefs doc) with
          | Raising.Raises e => (Raising.Raises e, {[base]} ∪ v, n1)
          | Raising.Returns links =>
              match d with
              | O => (Raising.Returns links, {[base]} ∪ v, n1)
              | S d' =>
                  let '(more, v2, n2) :=
                    Raising.expand W (crawl d') links ({[base]} ∪ v) n1 in
                  match more with
                  | Raising.Raises e => (Raising.Raises e, v2, n2)
                  | Raising.Returns more => (Raising.Returns (links ++ more), v2, n2)
                  end
              end
          end
    end.
Proof. destruct d; reflexivity. Qed.

Lemma checked_expand_step rec todo v (n : net W) :
  (∀ base v n, traversal_step [base] v ({[base]} ∪ v) n (outcome_of (rec base v n))) →
  traversal_step todo.*1 v v n (outcome_of (Raising.expand W rec todo v n)).
Proof.
  tidy.
  intros Hrec. revert v n. induction todo as [|[t p] todo IH]; intros v n; simpl.
  - exists []. simpl. rewrite app_nil_r.
    split_and!; [done | constructor | constructor | by rewrite (right_id_L ∅ (∪)) | | constructor].
    by intros u ?%elem_of_nil.
  - specialize (Hrec t v n). destruct (rec t v n) as [[more v1] n1].
    destruct Hrec as (new1 & Htr1 & Hs1 & Hnd1 & Hv1 & Hu1 & He1). simpl in *.
    assert (Hu1' : ∀ u, u ∈ event_url <$> new1 →
              (u ∉ v) ∧ ∃ r, r ∈ t :: todo.*1 ∧ reachable r u).
    { intros u Hin. apply Hu1 in Hin as [? (r & ->%list_elem_of_singleton & ?)].
      split; [done|]. exists t. by rewrite elem_of_cons; auto. }
    destruct more as [more|e].
    2:{ exists new1. simpl. split_and!; try done. }
    specialize (IH v1 n1).
    destruct (Raising.expand W rec todo v1 n1) as [[later v2] n2].
    destruct IH as (new2 & Htr2 & Hs2 & Hnd2 & Hv2 & Hu2 & He2). simpl in *.
    assert (Htr : trace n2 = trace n ++ new1 ++ new2)
      by (by rewrite Htr2, Htr1, app_assoc).
    assert (Hs : Forall (λ e, event_site e = Traverse) (new1 ++ new2))
      by (by apply Forall_app).
    assert (Hnd : NoDup (event_url <$> new1 ++ new2)).
    { rewrite fmap_app. apply NoDup_app. split_and!; try done.
      intros u Hin1 Hin2. apply Hu2 in Hin2 as [Hn _]. apply Hn.
      rewrite Hv1. set_solver. }
    assert (Hv : v2 = v ∪ list_to_set (event_url <$> new1 ++ new2)).
    { rewrite Hv2, Hv1, fmap_app, list_to_set_app_L. set_solver. }
    assert (Hu : ∀ u, u ∈ event_url <$> new1 ++ new2 →
              (u ∉ v) ∧ ∃ r, r ∈ t :: todo.*1 ∧ reachable r u).
    { intros u. rewrite fmap_app, elem_of_app. intros [Hin|Hin]; [by apply Hu1'|].
      apply Hu2 in Hin as [? (r & ? & ?)].
      split; [set_solver|]. exists r. by rewrite elem_of_cons; auto. }
    destruct later as [later|e]; exists (new1 ++ new2); simpl.
    2:{ split_and!; try done. }
    split_and!; try done.
    apply Forall_app. split.
    + eapply Forall_impl; [exact He1|]. simpl.
      intros e [(r & ->%list_elem_of_singleton & ?) ?]. split; [|set_solver].
      exists t. by rewrite elem_of_cons; auto.
    + eapply Forall_impl; [exact He2|]. simpl.
      intros e [(r & ? & ?) ?]. split; [|set_solver].
      exists r. by rewrite elem_of_cons; auto.
Qed.

Lemma checked_crawl_step d : ∀ base v (n : net W),
  traversal_step [base] v ({[base]} ∪ v) n (outcome_of (crawl d base v n)).
Proof.
  tidy.
  assert (Hnone : ∀ base v (n : net W),
    traversal_step [base] v ({[base]} ∪ v) n ([], v, n)).
  { intros base v n. exists []. simpl. rewrite app_nil_r.
    split_and!; [done | constructor | constructor | by rewrite (right_id_L ∅ (∪)) | | constructor].
    by intros u ?%elem_of_nil. }
  assert (Hstop : ∀ base v (n n1 : net W) r,
    base ∉ v → get Traverse base n = (r, n1) →
    traversal_step [base] v ({[base]} ∪ v) n ([], {[base]} ∪ v, n1)).
  { intros base v n n1 r Hv [Htr _]%requests_get_spec.
    exists [(Traverse, base, r)]. simpl. split_and!; try done.
    - by repeat constructor.
    - apply NoDup_singleton.
    - set_solver.
    - intros u ->%list_elem_of_singleton. split; [done|].
      exists base. split; [by apply list_elem_of_singleton | constructor]. }
  induction d as [|d IH]; intros base v n; rewrite checked_crawl_unfold;
    (destruct (urlparse_raises base); [by apply Hnone|]);
    (case_bool_decide as Hv; [by apply Hnone|]);
    destruct (get Traverse base n) as [r n1] eqn:Hget;
    (destruct r as [st doc|msg]; [|by eapply Hstop]);
    (destruct (st =? 200) eqn:Hst; simpl; [|by eapply Hstop]);
    apply Z.eqb_eq in Hst as ->;
    rewrite page_links_checked;
    (destruct (existsb (rejected base) (doc_hrefs doc)); simpl; [by eapply Hstop|]).
  - destruct (Hstop base v n n1 _ Hv Hget) as (new & Htr & Hs & Hnd & Hv' & Hu & _).
    exists new. simpl. split_and!; try done.
    apply Forall_forall. intros [t p] (-> & ? & ? & _)%elem_of_page_links.
    simpl. split; [|done]. exists base. by rewrite list_elem_of_singleton.
  - pose proof (requests_get_spec _ _ _ _ _ _ Hget) as [Htr Hresp].
    set (links := page_links netloc urljoin base (netloc base) ({[base]} ∪ v)
                    (doc_hrefs doc)).
    pose proof (checked_expand_step (crawl d) links ({[base]} ∪ v) n1 IH) as Hexp.
    destruct (Raising.expand W (crawl d) links ({[base]} ∪ v) n1) as [[more v2] n2].
    destruct Hexp as (new & Htr2 & Hs2 & Hnd2 & Hv2 & Hu2 & He2). simpl in *.
    assert (Hlinks : ∀ t, t ∈ links.*1 →
              netloc t = netloc base ∧ (t ∉ {[base]} ∪ v) ∧ reachable base t).
    { intros t ([t' p] & -> & Hin)%list_elem_of_fmap. simpl.
      apply elem_of_page_links in Hin as (-> & ? & ? & href & ? & ? & ->).
      split_and!; try done.
      eapply reach_link; eauto using reach_seed. }
    assert (Hreq : ∀ u, u ∈ base :: (event_url <$> new) →
              (u ∉ v) ∧ ∃ r, r ∈ [base] ∧ reachable r u).
    { intros u [->|Hin]%elem_of_cons.
      * split; [done|]. exists base. split; [by apply list_elem_of_singleton
                                            | constructor].
      * apply Hu2 in Hin as [Hn (r & Hr & Hreach)]. split; [set_solver|].
        exists base. split; [by apply list_elem_of_singleton|].
        eapply reachable_trans; [|exact Hreach]. by apply Hlinks. }
    assert (Hnd : NoDup (base :: (event_url <$> new))).
    { constructor; [|done]. intros Hin. apply Hu2 in Hin as [Hn _]. set_solver. }
    destruct more as [more|e];
      exists ((Traverse, base, Response 200 doc) :: new); simpl.
    2:{ split_and!; try done.
        - by rewrite Htr2, Htr, <- app_assoc.
        - by constructor.
        - rewrite Hv2. set_solver. }
    split_and!; try done.
    + by rewrite Htr2, Htr, <- app_assoc.
    + by constructor.
    + rewrite Hv2. set_solver.
    + apply Forall_app. split.
      * apply Forall_forall. intros [t p] Hin.
        apply elem_of_page_links in Hin as (-> & ? & ? & _).
        simpl. split; [|done]. exists base. by rewrite list_elem_of_singleton.
      * eapply Forall_impl; [exact He2|]. simpl.
        intros e [(r & Hr & Ht & Hp) ?]. split; [|done].
        apply Hlinks in Hr as [Hr _]. exists base.
        rewrite list_elem_of_singleton. by rewrite Ht, Hp, Hr.
Qed.


(** A traversal that returns has done what the traversal of the program
    without exceptions does. *)
Lemma checked_expand_returns rec rec' todo v (n : net W) edges v' n' :
  (∀ base v n edges v' n',
     rec base v n = (Raising.Returns edges, v', n') → rec' base v n = (edges, v', n')) →
  Raising.expand W rec todo v n = (Raising.Returns edges, v', n') →
  expand W rec' todo v n = (edges, v', n').
Proof.
  tidy.
  intros Hrec. revert v n edges v' n'. induction todo as [|[t p] todo IH];
    intros v n edges v' n'; simpl.
  - by intros [= <- <- <-].
  - destruct (rec t v n) as [[more v1] n1] eqn:Hr.
    destruct more as [more|e]; [|done].
    rewrite (Hrec _ _ _ _ _ _ Hr).
    destruct (Raising.expand W rec todo v1 n1) as [[later v2] n2] eqn:He.
    destruct later as [later|e]; [|done].
    rewrite (IH _ _ _ _ _ He). by intros [= <- <- <-].
Qed.

Lemma checked_crawl_returns d : ∀ base v (n : net W) edges v' n',
  crawl d base v n = (Raising.Returns edges, v', n') →
  extract_clickable_links_recursive W http_get netloc urljoin d base v n
    = (edges, v', n').
Proof.
  tidy.
  induction d as [|d IH]; intros base v n edges v' n';
    rewrite checked_crawl_unfold, crawl_unfold;
    (destruct (urlparse_raises base); [done|]);
    (case_bool_decide; [by intros [= <- <- <-]|]);
    destruct (get Traverse base n) as [r n1];
    (destruct r as [st doc|msg]; [|by intros [= <- <- <-]]);
    (destruct (negb (st =? 200)); [by intros [= <- <- <-]|]);
    rewrite page_links_checked;
    (destruct (existsb (rejected base) (doc_hrefs doc)); [done|]).
  - by intros [= <- <- <-].
  - cbv zeta.
    destruct (Raising.expand W (crawl d)
                (page_links netloc urljoin base (netloc base) ({[base]} ∪ v)
                   (doc_hrefs doc)) ({[base]} ∪ v) n1)
      as [[more v2] n2] eqn:He.
    destruct more as [more|e]; [|done].
    rewrite (checked_expand_returns _ _ _ _ _ _ _ _ IH He).
    by intros [= <- <- <-].
Qed.

(** C4, as the code has it.  With [max_depth = 0] the traversal of a seed
    that [urlparse] accepts makes one request, to the seed.  When no
    hyperlink of the seed page is rejected by [urljoin] or [urlparse], it
    returns the edges [(t, seed)] for the links [t] of the seed page
    (served with status 200) that are on the seed's host and are not the
    seed itself, and no other edge; when one is rejected, it raises
    [ValueError].  On a seed that [urlparse] rejects it raises [ValueError]
    before any request. *)
Theorem depth_zero_only_direct_links seed (n : net W) :
  let r := (http_get seed (world n)).1 in
  let res := crawl 0 seed ∅ n in
  (urlparse_raises seed = true →
     res = (Raising.Raises Raising.ValueError, ∅, n)) ∧
  (urlparse_raises seed = false →
     trace res.2 = trace n ++ [(Traverse, seed, r)] ∧
     (∀ doc, r = Response 200 doc →
             existsb (rejected seed) (doc_hrefs doc) = true →
             res.1.1 = Raising.Raises Raising.ValueError) ∧
     ((∀ doc, r = Response 200 doc →
              existsb (rejected seed) (doc_hrefs doc) = false) →
      ∃ edges, res.1.1 = Raising.Returns edges ∧
        ∀ t p, (t, p) ∈ edges ↔
          p = seed ∧ t ≠ seed ∧ netloc t = netloc seed ∧
          ∃ doc href, r = Response 200 doc ∧ href ∈ doc_hrefs doc ∧
                      contains_hash href = false ∧ t = urljoin seed href)).
Proof.
  tidy.
  cbv zeta. rewrite checked_crawl_unfold.
  split; intros Hseed; rewrite Hseed; [done|].
  rewrite bool_decide_eq_false_2 by set_solver.
  destruct (get Traverse seed n) as [r n1] eqn:Hget.
  apply requests_get_spec in Hget as [Htr <-].
  destruct (http_get seed (world n)).1 as [st doc|msg]; simpl.
  - destruct (st =? 200) eqn:Hst; simpl.
    + apply Z.eqb_eq in Hst as ->. rewrite page_links_checked.
      destruct (existsb (rejected seed) (doc_hrefs doc)) eqn:Hrej; simpl.
      * split_and!; [exact Htr | done |]. intros Hok.
        by rewrite (Hok doc eq_refl) in Hrej.
      * split_and!; [exact Htr | intros doc' [= <-] ?; congruence |]. intros _.
        eexists. split; [done|]. intros t p.
        rewrite elem_of_page_links. split.
        -- intros (-> & Hv & Hd & href & ? & ? & ->).
           split_and!; [done | set_solver | done |]. by exists doc, href.
        -- intros (-> & Hv & Hd & doc' & href & [= <-] & ? & ? & ->).
           split_and!; [done | set_solver | done |]. by exists href.
    + split_and!; [exact Htr | by intros doc' [= -> _] |]. intros _.
      exists []. split; [done|]. intros t p. split; [by intros ?%elem_of_nil|].
      intros (_ & _ & _ & doc' & href & [= -> _] & _). done.
  - split_and!; [exact Htr | done |]. intros _.
    exists []. split; [done|]. intros t p. split; [by intros ?%elem_of_nil|].
    by intros (_ & _ & _ & doc' & href & [=] & _).
Qed.

(** C5. A traversal started with an empty visited set ends for every depth
    and every link graph, cyclic or not, whether it returns or raises.  Its
    requests are all issued by the traversal, no URL is requested twice,
    and their number is the size of the visited set the traversal leaves;
    it is at most the length of any list of the URLs reachable from the
    seed. *)
Theorem traversal_fetches_each_url_once d seed (n : net W) :
  let res := crawl d seed ∅ n in
  ∃ new : list event,
    trace res.2 = trace n ++ new ∧
    Forall (λ e, event_site e = Traverse) new ∧
    NoDup (event_url <$> new) ∧
    length new = size res.1.2 ∧
    ∀ L : list string,
      (∀ u, reachable seed u → u ∈ L) → (length new ≤ length L)%nat.
Proof.
  tidy.
  cbv zeta.
  destruct (checked_crawl_step d seed ∅ n) as (new & Htr & Hs & Hnd & Hv & Hu & _).
  simpl in *. exists new. split_and!; try done.
  - rewrite Hv, (left_id_L ∅ (∪)), size_list_to_set by done.
    by rewrite length_fmap.
  - intros L HL. rewrite <- (length_fmap event_url new).
    apply submseteq_length, NoDup_submseteq; [done|].
    intros u Hin. apply Hu in Hin as [_ (r & ->%list_elem_of_singleton & ?)].
    by apply HL.
Qed.

(** C7, as the code has it.  When no hyperlink of a page is rejected by
    [urljoin] or [urlparse], the links of the page are the resolved URLs of
    its hyperlinks without [#] that are on the page's host and not yet
    visited, in document order and one per occurrence; when one is
    rejected, the loop over the hyperlinks raises [ValueError].  The
    traversal requests no URL twice. *)
Theorem links_kept_per_occurrence d base visited hrefs (n : net W) :
  (existsb (rejected base) hrefs = false →
   ∃ links,
     links_of base (netloc base) visited hrefs = Raising.Returns links ∧
     links.*1 =
       filter (λ t, netloc t = netloc base ∧ t ∉ visited)
              (urljoin base <$> filter (λ h, contains_hash h = false) hrefs) ∧
     links.*2 = replicate (length links) base) ∧
  (existsb (rejected base) hrefs = true →
   links_of base (netloc base) visited hrefs = Raising.Raises Raising.ValueError) ∧
  ∃ new : list event,
    trace (crawl d base visited n).2 = trace n ++ new ∧
    NoDup (event_url <$> new).
Proof.
  tidy.
  rewrite page_links_checked. split_and!.
  - intros ->. eexists. split; [done|].
    clear. induction hrefs as [|h hrefs [IH1 IH2]]; [done|]. cbn [page_links].
    destruct (contains_hash h) eqn:Hh.
    + rewrite filter_cons_False by (rewrite Hh; done). done.
    + rewrite filter_cons_True by done. rewrite fmap_cons.
      destruct (bool_decide (netloc (urljoin base h) = netloc base)
                && bool_decide (urljoin base h ∉ visited)) eqn:Hk.
      * apply andb_true_iff in Hk as [?%bool_decide_eq_true ?%bool_decide_eq_true].
        rewrite filter_cons_True by done. rewrite !fmap_cons. simpl.
        by rewrite IH1, IH2.
      * rewrite filter_cons_False; [done|]. intros [? ?].
        apply andb_false_iff in Hk as [?%bool_decide_eq_false
                                      | ?%bool_decide_eq_false]; done.
  - by intros ->.
  - destruct (checked_crawl_step d base visited n) as (new & Htr & _ & Hnd & _).
    by exists new.
Qed.


(** *** The sitemap resolver *)

Local Abbreviation entries_of := (Raising.sitemap_entries urljoin urljoin_raises).
Local Abbreviation probe := (Raising.probe_sitemaps W http_get urljoin urljoin_raises).
Local Abbreviation sitemaps := (Raising.get_sitemap_urls W http_get urljoin urljoin_raises).
Local Abbreviation entry_failure := (Raising.entry_failure urljoin_raises).

(** The loop over the entries of a sitemap raises at its first failing
    entry, and collects the resolved locations when there is none. *)
Lemma checked_sitemap_entries base entries acc :
  entries_of base entries acc =
  match entry_failure base entries with
  | Some e => Raising.Raises e
  | None => Raising.Returns (list_to_set (urljoin base <$> omap id entries) ∪ acc)
  end.
Proof.
  tidy. revert acc. induction entries as [|[loc|] entries IH]; intros acc; simpl.
  - by rewrite (left_id_L ∅ (∪)).
  - destruct (urljoin_raises base loc); [done|]. rewrite IH.
    destruct (entry_failure base entries); [done|]. f_equal. set_solver.
  - done.
Qed.

Lemma entry_failure_cases base entries e :
  entry_failure base entries = Some e →
  e = Raising.ValueError ∨ e = Raising.Other AttributeError.
Proof.
  tidy. induction entries as [|[loc|] entries IH]; simpl; [done| |].
  - destruct (urljoin_raises base loc); [|done]. intros [= <-]. by left.
  - intros [= <-]. by right.
Qed.

Lemma checked_probe_order base paths acc (n : net W) :
  let res := probe base paths acc n in
  ∃ new : list event,
    trace res.2 = trace n ++ new ∧
    Forall (λ e, event_site e = Sitemap) new ∧
    event_url <$> new `prefix_of` (urljoin base <$> paths) ∧
    (∀ ev doc e, ev ∈ new → event_response ev = Response 200 doc →
       entry_failure base (doc_sitemap_locs doc) = Some e →
       res.1 = Raising.Raises e ∧ last new = Some ev) ∧
    (∀ i path, paths !! i = Some path → urljoin_raises base path = true →
       (length new ≤ i)%nat ∧ ∃ e, res.1 = Raising.Raises e) ∧
    match res.1 with
    | Raising.Returns _ => event_url <$> new = urljoin base <$> paths
    | Raising.Raises e =>
        (e = Raising.ValueError ∧
         ∃ path, paths !! length new = Some path ∧ urljoin_raises base path = true)
        ∨ (∃ ev doc, last new = Some ev ∧ event_response ev = Response 200 doc ∧
                     entry_failure base (doc_sitemap_locs doc) = Some e)
    end.
Proof.
  tidy. cbv zeta. revert acc n. induction paths as [|sp paths IH]; intros acc n.
  - exists []. simpl. rewrite app_nil_r. split_and!; try done.
    by intros ev doc e ?%elem_of_nil.
  - cbn [Raising.probe_sitemaps].
    destruct (urljoin_raises base sp) eqn:Hsp.
    { exists []. simpl. rewrite app_nil_r. split_and!; try done.
      - apply prefix_nil.
      - by intros ev doc e ?%elem_of_nil.
      - intros i path _ _. split; [lia|by eexists].
      - left. split; [done|]. by exists sp. }
    destruct (get Sitemap (urljoin base sp) n) as [r n1] eqn:Hget.
    apply requests_get_spec in Hget as [Htr _].
    assert (Hskip : ∀ acc',
      (∀ doc e, r = Response 200 doc →
                entry_failure base (doc_sitemap_locs doc) ≠ Some e) →
      let res := probe base paths acc' n1 in
      ∃ new : list event,
        trace res.2 = trace n ++ new ∧
        Forall (λ e, event_site e = Sitemap) new ∧
        event_url <$> new `prefix_of` (urljoin base <$> sp :: paths) ∧
        (∀ ev doc e, ev ∈ new → event_response ev = Response 200 doc →
           entry_failure base (doc_sitemap_locs doc) = Some e →
           res.1 = Raising.Raises e ∧ last new = Some ev) ∧
        (∀ i path, (sp :: paths) !! i = Some path →
           urljoin_raises base path = true →
           (length new ≤ i)%nat ∧ ∃ e, res.1 = Raising.Raises e) ∧
        match res.1 with
        | Raising.Returns _ => event_url <$> new = urljoin base <$> sp :: paths
        | Raising.Raises e =>
            (e = Raising.ValueError ∧
             ∃ path, (sp :: paths) !! length new = Some path ∧
                     urljoin_raises base path = true)
            ∨ (∃ ev doc, last new = Some ev ∧
                         event_response ev = Response 200 doc ∧
                         entry_failure base (doc_sitemap_locs doc) = Some e)
        end).
    { intros acc' Hgood. cbv zeta. specialize (IH acc' n1).
      destruct (probe base paths acc' n1) as [res n2].
      destruct IH as (new & Htr2 & Hs & Hpre & Hbad & Hloc & Hres). simpl in *.
      exists ((Sitemap, urljoin base sp, r) :: new). split_and!.
      - by rewrite Htr2, Htr, <- app_assoc.
      - by constructor.
      - rewrite !fmap_cons. by apply prefix_cons.
      - intros ev doc e [->|Hin]%elem_of_cons Hr Hf.
        + simpl in Hr. by destruct (Hgood doc e Hr).
        + destruct (Hbad ev doc e Hin Hr Hf) as [-> Hlast]. split; [done|].
          destruct new; [by apply elem_of_nil in Hin|done].
      - intros [|i] path Hi Hp; simpl in Hi.
        + injection Hi as <-. congruence.
        + destruct (Hloc i path Hi Hp) as [? ?]. split; [simpl; lia|done].
      - destruct res as [urls|e].
        + rewrite !fmap_cons. by rewrite Hres.
        + destruct Hres as [(-> & path & Hi & Hp) | (ev & doc & Hlast & Hr & Hf)].
          * left. split; [done|]. by exists path.
          * right. exists ev, doc. split_and!; try done.
            destruct new; [done|]. done. }
    destruct r as [st doc|msg].
    + destruct (st =? 200) eqn:Hst; simpl.
      * apply Z.eqb_eq in Hst as ->. rewrite checked_sitemap_entries.
        destruct (entry_failure base (doc_sitemap_locs doc)) as [e|] eqn:Hf.
        -- exists [(Sitemap, urljoin base sp, Response 200 doc)]. simpl.
           split_and!; try done.
           ++ by repeat constructor.
           ++ by exists (urljoin base <$> paths).
           ++ intros ev doc' e' ->%list_elem_of_singleton [= <-] Hf'.
              split; [congruence|done].
           ++ intros [|i] path Hi Hp; simpl in Hi.
              ** injection Hi as <-. congruence.
              ** split; [lia|by eexists].
           ++ right. by exists (Sitemap, urljoin base sp, Response 200 doc), doc.
        -- apply Hskip. intros doc' e [= <-]. congruence.
      * apply Z.eqb_neq in Hst. apply Hskip. by intros doc' e [= ? _].
    + apply Hskip. by intros doc' e [=].
Qed.

(** X7. The resolver probes the three fixed locations, resolved against
    the base, in their order.  When it returns a set it has probed all
    three.  It raises only [ValueError] or [AttributeError], and probes no
    further: [ValueError] when [urljoin] rejects the next location, which
    is then not requested; the exception of the first failing entry when
    the sitemap of the last probe, answered with status 200, has an entry
    without [<loc>] ([AttributeError]) or with a [<loc>] that [urljoin]
    rejects ([ValueError]).  Every probed sitemap with a failing entry and
    every rejected location makes it raise. *)
Theorem sitemap_probes_in_order base (n : net W) :
  let res := sitemaps base n in
  ∃ new : list event,
    trace res.2 = trace n ++ new ∧
    Forall (λ e, event_site e = Sitemap) new ∧
    event_url <$> new `prefix_of` (urljoin base <$> sitemap_paths) ∧
    (∀ urls, res.1 = Raising.Returns urls →
       event_url <$> new = urljoin base <$> sitemap_paths) ∧
    (∀ e, res.1 = Raising.Raises e →
       (e = Raising.ValueError ∨ e = Raising.Other AttributeError) ∧
       ((e = Raising.ValueError ∧
         ∃ path, sitemap_paths !! length new = Some path ∧
                 urljoin_raises base path = true)
        ∨ (∃ ev doc, last new = Some ev ∧ event_response ev = Response 200 doc ∧
                     entry_failure base (doc_sitemap_locs doc) = Some e))) ∧
    (∀ ev doc e, ev ∈ new → event_response ev = Response 200 doc →
       entry_failure base (doc_sitemap_locs doc) = Some e →
       res.1 = Raising.Raises e ∧ last new = Some ev) ∧
    (∀ i path, sitemap_paths !! i = Some path → urljoin_raises base path = true →
       (length new ≤ i)%nat ∧ ∃ e, res.1 = Raising.Raises e).
Proof.
  tidy. cbv zeta. unfold Raising.get_sitemap_urls.
  destruct (checked_probe_order base sitemap_paths ∅ n)
    as (new & Htr & Hs & Hpre & Hbad & Hloc & Hres).
  exists new. split_and!; try done.
  - intros urls Heq. by rewrite Heq in Hres.
  - intros e Heq. rewrite Heq in Hres. split; [|exact Hres].
    destruct Hres as [[-> _] | (ev & doc & _ & _ & Hf)]; [by left|].
    by eapply entry_failure_cases.
Qed.

(** *** Whole runs *)

Local Abbreviation validate := (check_for_error_links W http_get).
Local Abbreviation meta_of := (get_meta_data W http_get repr_composite).
Local Abbreviation rows_of :=
  (Raising.collect_rows W http_get url_path repr_composite urlparse_raises).
Local Abbreviation scan :=
  (Raising.scan_and_check_links W http_get netloc url_path urljoin repr_composite
     urlparse_raises urljoin_raises).

Lemma checked_collect_rows_trace paths links results (n : net W) :
  ∃ new : list event,
    trace (rows_of paths links results n).2 = trace n ++ new ∧
    Forall (λ e, event_site e = Metadata) new.
Proof.
  tidy. revert results n. induction links as [|[t p] links IH]; intros results n;
    cbn [Raising.collect_rows fst].
  - exists []. by rewrite app_nil_r.
  - case_bool_decide; [|apply IH].
    destruct (get_meta_data_result http_get repr_composite t n) as (r & Htr & _).
    destruct (meta_of t n) as [m n1]. simpl in Htr.
    destruct m as [m|e]; [destruct (urlparse_raises t)|].
    + exists [(Metadata, t, r)]. split; [done|by repeat constructor].
    + match goal with
      | |- context [rows_of paths links ?rs n1] =>
          destruct (IH rs n1) as (new & Htr2 & Hs)
      end.
      exists ((Metadata, t, r) :: new). rewrite Htr2, Htr, <- app_assoc.
      split; [done|by constructor].
    + exists [(Metadata, t, r)]. split; [done|by repeat constructor].
Qed.

(** The requests of a run that starts with an empty trace, phase by phase,
    and what a failing sitemap entry does to the run. *)
Lemma checked_run_segments url d (w : W) :
  let res := scan url d (fresh w) in
  ∃ r0 tC tV tS tM,
    trace res.2 = (SeedProbe, url, r0) :: tC ++ tV ++ tS ++ tM ∧
    Forall (λ e, event_site e = Traverse) tC ∧
    Forall (λ e, event_site e = Validate) tV ∧
    Forall (λ e, event_site e = Sitemap) tS ∧
    Forall (λ e, event_site e = Metadata) tM ∧
    ∀ ev doc e, ev ∈ tS → event_response ev = Response 200 doc →
      entry_failure url (doc_sitemap_locs doc) = Some e →
      res.1 = Raising.Escapes e ∧ tM = [].
Proof.
  cbv zeta. unfold Raising.scan_and_check_links.
  destruct (get SeedProbe url (fresh w)) as [r n1] eqn:Hget.
  apply requests_get_spec in Hget as [Htr0 _]. simpl in Htr0.
  assert (Hearly : ∀ o : Raising.run, ∃ r0 tC tV tS tM,
    trace (o, n1).2 = (SeedProbe, url, r0) :: tC ++ tV ++ tS ++ tM ∧
    Forall (λ e, event_site e = Traverse) tC ∧
    Forall (λ e, event_site e = Validate) tV ∧
    Forall (λ e, event_site e = Sitemap) tS ∧
    Forall (λ e, event_site e = Metadata) tM ∧
    ∀ ev doc e, ev ∈ tS → event_response ev = Response 200 doc →
      entry_failure url (doc_sitemap_locs doc) = Some e →
      (o, n1).1 = Raising.Escapes e ∧ tM = []).
  { intros o. exists r, [], [], [], []. simpl.
    split_and!; try done. by intros ev doc e ?%elem_of_nil. }
  destruct r as [st doc0|msg]; [|apply Hearly].
  destruct (negb (st =? 200)); [apply Hearly|]. clear Hearly.
  destruct (checked_crawl_step d url ∅ n1) as (tC & HtrC & HsC & _).
  destruct (crawl d url ∅ n1) as [[cl v] n2]. simpl in HtrC.
  destruct cl as [edges|e0].
  2:{ exists (Response st doc0), tC, [], [], []. simpl.
      split_and!; try done.
      - by rewrite HtrC, Htr0, !app_nil_r.
      - by intros ev doc e ?%elem_of_nil. }
  destruct (validate_requests http_get edges n2) as (tV & HtrV & HsV & _).
  destruct (validate edges n2) as [broken n3]. simpl in HtrV.
  destruct (checked_probe_order url sitemap_paths ∅ n3)
    as (tS & HtrS & HsS & _ & Hbad & _).
  unfold Raising.get_sitemap_urls.
  destruct (probe url sitemap_paths ∅ n3) as [sm n4]. simpl in HtrS, Hbad.
  assert (Htr4 : trace n4 = (SeedProbe, url, Response st doc0) :: tC ++ tV ++ tS).
  { rewrite HtrS, HtrV, HtrC, Htr0. simpl. by rewrite <- !app_assoc. }
  destruct sm as [urls|e0].
  2:{ exists (Response st doc0), tC, tV, tS, []. simpl.
      split_and!; try done.
      - by rewrite Htr4, !app_nil_r.
      - intros ev doc e Hin Hr Hf.
        destruct (Hbad ev doc e Hin Hr Hf) as [[= ->] _]. split; [|done].
        by destruct (entry_failure_cases _ _ _ Hf) as [-> | ->]. }
  assert (Hno : ∀ (o : Raising.run) (tM : list event) ev doc e,
    ev ∈ tS → event_response ev = Response 200 doc →
    entry_failure url (doc_sitemap_locs doc) = Some e →
    o = Raising.Escapes e ∧ tM = []).
  { intros o tM ev doc e Hin Hr Hf. by destruct (Hbad ev doc e Hin Hr Hf) as [? _]. }
  assert (Hstop : ∀ o : Raising.run, ∃ r0 tC tV tS tM,
    trace (o, n4).2 = (SeedProbe, url, r0) :: tC ++ tV ++ tS ++ tM ∧
    Forall (λ e, event_site e = Traverse) tC ∧
    Forall (λ e, event_site e = Validate) tV ∧
    Forall (λ e, event_site e = Sitemap) tS ∧
    Forall (λ e, event_site e = Metadata) tM ∧
    ∀ ev doc e, ev ∈ tS → event_response ev = Response 200 doc →
      entry_failure url (doc_sitemap_locs doc) = Some e →
      (o, n4).1 = Raising.Escapes e ∧ tM = []).
  { intros o. exists (Response st doc0), tC, tV, tS, []. simpl.
    split_and!; try done; [by rewrite Htr4, !app_nil_r | apply Hno]. }
  destruct (urlparse_raises url); [apply Hstop|].
  destruct (bool_decide _); [apply Hstop|]. clear Hstop.
  destruct (get_meta_data_result http_get repr_composite url n4) as (r & HtrM & _).
  destruct (meta_of url n4) as [m n5]. simpl in HtrM.
  destruct m as [m|e0].
  2:{ exists (Response st doc0), tC, tV, tS, [(Metadata, url, r)]. simpl.
      split_and!; try done.
      - rewrite HtrM, Htr4. simpl. by rewrite <- !app_assoc.
      - by repeat constructor.
      - apply Hno. }
  match goal with
  | |- context [rows_of ?ps edges ?rs n5] =>
      destruct (checked_collect_rows_trace ps edges rs n5) as (tM & HtrR & HsM);
      destruct (rows_of ps edges rs n5) as [results n6]
  end.
  simpl in HtrR.
  exists (Response st doc0), tC, tV, tS, ((Metadata, url, r) :: tM).
  split_and!; try done.
  - destruct results; simpl; rewrite HtrR, HtrM, Htr4; simpl;
      by rewrite <- !app_assoc.
  - by constructor.
  - destruct results; apply Hno.
Qed.

(** X13. A sitemap answered with status 200 that has a failing entry (one
    without [<loc>], or one whose [<loc>] [urljoin] rejects) ends the run:
    the exception of its first failing entry, [AttributeError] or
    [ValueError], is not caught, and no metadata is requested. *)
Theorem failing_sitemap_entry_ends_the_run url d (w : W) ev doc e :
  ev ∈ requests_at Sitemap (trace (scan url d (fresh w)).2) →
  event_response ev = Response 200 doc →
  entry_failure url (doc_sitemap_locs doc) = Some e →
  (scan url d (fresh w)).1 = Raising.Escapes e ∧
  requests_at Metadata (trace (scan url d (fresh w)).2) = [].
Proof.
  intros Hin Hr Hf.
  destruct (checked_run_segments url d w)
    as (r0 & tC & tV & tS & tM & Htr & HC & HV & HS & HM & Hbad).
  rewrite Htr in Hin |- *.
  destruct (phases_split url r0 tC tV tS tM HC HV HS HM) as (_ & ES & EM).
  rewrite ES in Hin. rewrite EM. by apply (Hbad ev doc).
Qed.


(** *** Runs without [ValueError] *)

Lemma checked_sitemap_entries_plain base entries acc r :
  Raising.plain (entries_of base entries acc) = Some r →
  sitemap_entries urljoin base entries acc = r.
Proof.
  tidy. revert acc. induction entries as [|[loc|] entries IH]; intros acc; simpl.
  - by intros [= <-].
  - destruct (urljoin_raises base loc); [done|]. apply IH.
  - by intros [= <-].
Qed.

Lemma checked_probe_plain base paths acc (n : net W) r :
  Raising.plain (probe base paths acc n).1 = Some r →
  probe_sitemaps W http_get urljoin base paths acc n = (r, (probe base paths acc n).2).
Proof.
  tidy. revert acc n. induction paths as [|sp paths IH]; intros acc n;
    cbn [Raising.probe_sitemaps probe_sitemaps].
  - by intros [= <-].
  - destruct (urljoin_raises base sp); [done|].
    destruct (get Sitemap (urljoin base sp) n) as [r0 n1].
    destruct r0 as [st doc|msg]; [|apply IH].
    destruct (negb (st =? 200)); [apply IH|].
    destruct (entries_of base (doc_sitemap_locs doc) ∅) as [found|e] eqn:He.
    + rewrite (checked_sitemap_entries_plain _ _ _ (Ok found)) by (by rewrite He).
      apply IH.
    + destruct e as [|e]; [done|]. intros [= <-].
      by rewrite (checked_sitemap_entries_plain _ _ _ (Raise e)) by (by rewrite He).
Qed.

Lemma checked_collect_rows_plain paths links results (n : net W) r :
  Raising.plain (rows_of paths links results n).1 = Some r →
  collect_rows W http_get url_path repr_composite paths links results n
    = (r, (rows_of paths links results n).2).
Proof.
  tidy. revert results n. induction links as [|[t p] links IH]; intros results n;
    cbn [Raising.collect_rows collect_rows fst].
  - by intros [= <-].
  - case_bool_decide; [|apply IH].
    destruct (meta_of t n) as [m n1]. destruct m as [m|e]; [|by intros [= <-]].
    destruct (urlparse_raises t); [done|]. apply IH.
Qed.

(** The traversal raises nothing but [ValueError]. *)
Lemma checked_expand_raises rec todo v (n : net W) e :
  (∀ base v n e, (rec base v n).1.1 = Raising.Raises e → e = Raising.ValueError) →
  (Raising.expand W rec todo v n).1.1 = Raising.Raises e → e = Raising.ValueError.
Proof.
  tidy. intros Hrec. revert v n. induction todo as [|[t p] todo IH]; intros v n;
    simpl; [done|].
  specialize (Hrec t v n). destruct (rec t v n) as [[more v1] n1].
  destruct more as [more|e1]; simpl in *.
  - specialize (IH v1 n1).
    destruct (Raising.expand W rec todo v1 n1) as [[later v2] n2].
    destruct later as [later|e2]; simpl in *; [done|]. intros [= <-]. by apply IH.
  - intros [= <-]. by apply Hrec.
Qed.

Lemma checked_crawl_raises d : ∀ base v (n : net W) e,
  (crawl d base v n).1.1 = Raising.Raises e → e = Raising.ValueError.
Proof.
  tidy.
  induction d as [|d IH]; intros base v n e; rewrite checked_crawl_unfold;
    (destruct (urlparse_raises base); [by intros [= <-]|]);
    (case_bool_decide; [done|]);
    destruct (get Traverse base n) as [r n1];
    (destruct r as [st doc|msg]; [|done]);
    (destruct (negb (st =? 200)); [done|]);
    rewrite page_links_checked;
    (destruct (existsb (rejected base) (doc_hrefs doc)); [by intros [= <-]|]);
    [done|].
  pose proof (checked_expand_raises (crawl d)
                (page_links netloc urljoin base (netloc base) ({[base]} ∪ v)
                   (doc_hrefs doc)) ({[base]} ∪ v) n1 e IH) as Hexp.
  destruct (Raising.expand W (crawl d) _ _ n1) as [[more v2] n2].
  destruct more as [more|e']; [done|]. simpl in *. intros [= <-]. by apply Hexp.
Qed.

Lemma checked_top_level_plain e o :
  Raising.plain_run (Raising.top_level e) = Some o →
  ∃ e', e = Raising.Other e' ∧ o = top_level e'.
Proof. tidy. destruct e as [|[]]; simpl; [done|..]; intros [= <-]; by eexists. Qed.

(** X23. A run that does not end with [ValueError] has met no exception
    of [urllib.parse]: it is, request by request and in its outcome, the
    run of the program written without these exceptions. *)
Theorem run_without_value_error url d (n : net W) o :
  Raising.plain_run (scan url d n).1 = Some o →
  scan_and_check_links W http_get netloc url_path urljoin repr_composite url d n
    = (o, (scan url d n).2).
Proof.
  unfold Raising.scan_and_check_links, scan_and_check_links.
  destruct (get SeedProbe url n) as [r n1].
  destruct r as [st doc0|msg]; [|by intros [= <-]].
  destruct (negb (st =? 200)); [by intros [= <-]|].
  pose proof (checked_crawl_raises d url ∅ n1) as Hraise.
  destruct (crawl d url ∅ n1) as [[cl v] n2] eqn:Hc.
  destruct cl as [edges|e]; simpl in Hraise.
  2:{ by rewrite (Hraise e eq_refl). }
  rewrite (checked_crawl_returns _ _ _ _ _ _ _ Hc).
  destruct (validate edges n2) as [found n3].
  unfold Raising.get_sitemap_urls, get_sitemap_urls.
  pose proof (checked_probe_plain url sitemap_paths ∅ n3) as Hp.
  destruct (probe url sitemap_paths ∅ n3) as [sm n4]. cbn [fst snd] in Hp.
  destruct sm as [urls|e].
  2:{ cbn [fst snd]. intros (e' & -> & ->)%checked_top_level_plain.
      by rewrite (Hp (Raise e') eq_refl). }
  rewrite (Hp (Ok urls) eq_refl).
  destruct (urlparse_raises url); [done|].
  destruct (bool_decide _); [done|].
  destruct (meta_of url n4) as [m n5]. destruct m as [m|e].
  2:{ cbn [fst snd]. by intros (e' & [= <-] & ->)%checked_top_level_plain. }
  match goal with
  | |- context [rows_of ?ps edges ?rs n5] =>
      pose proof (checked_collect_rows_plain ps edges rs n5) as Hr;
      destruct (rows_of ps edges rs n5) as [results n6]
  end.
  simpl in Hr. destruct results as [results|e].
  - rewrite (Hr (Ok results) eq_refl). by intros [= <-].
  - cbn [fst snd]. intros (e' & -> & ->)%checked_top_level_plain.
    by rewrite (Hr (Raise e') eq_refl).
Qed.

End RaisingProperties.

(** ** Properties of the export and of the command line *)

Lemma column_width_requests_lookup k config i :
  column_width_requests_from k config !! i =
  (λ cw : string * Z,
     UpdateDimensionProperties
       {| dr_sheetId := 0; dr_dimension := "COLUMNS";
          dr_startIndex := k + i; dr_endIndex := k + i + 1 |}
       cw.2 "pixelSize") <$> config !! i.
Proof.
  revert k i. induction config as [|[name width] config IH]; intros k i; [done|].
  destruct i as [|i]; simpl.
  - by rewrite Nat.add_0_r.
  - rewrite IH. by replace (S k + i)%nat with (k + S i)%nat by lia.
Qed.

(** X17. [create_column_width_requests] gives the column at place [i] of
    the configuration one request, at place [i]: it sets the width
    configured for that column on the columns [i] to [i + 1] (the column
    [i] alone) of the sheet with id 0; there is no other request. *)
Theorem column_widths_follow_the_config config i :
  create_column_width_requests config !! i =
  (λ cw : string * Z,
     UpdateDimensionProperties
       {| dr_sheetId := 0; dr_dimension := "COLUMNS";
          dr_startIndex := i; dr_endIndex := i + 1 |}
       cw.2 "pixelSize") <$> config !! i.
Proof. apply (column_width_requests_lookup 0). Qed.

(** X18. What is written fits what is formatted.  Both sheets are
    rectangular: a header and one row per result, 9 cells wide, as many
    as configured columns, and a header and one row per broken link, 3
    cells wide.  When the two sheets have different ids, every cell range
    of the formatting requests starts at the first row and column, spans
    the full width of its sheet and ends within its rows. *)
Theorem formatting_fits_the_sheets data broken meta_id broken_id :
  meta_id ≠ broken_id →
  let sd := seo_sheet_data data in
  let bd := broken_links_sheet_data broken in
  length sd = S (length data) ∧
  Forall (λ row, length row = length column_config) sd ∧
  length bd = S (length broken) ∧
  Forall (λ row, length row = 3%nat) bd ∧
  ∀ range format fields,
    RepeatCell range format fields ∈ format_requests meta_id broken_id sd bd →
    gr_startRowIndex range = 0%nat ∧ gr_startColumnIndex range = 0%nat ∧
    (gr_sheetId range = meta_id ∧ gr_endColumnIndex range = 9%nat ∧
       (1 ≤ gr_endRowIndex range ≤ length sd)%nat
     ∨ gr_sheetId range = broken_id ∧ gr_endColumnIndex range = 3%nat ∧
       (1 ≤ gr_endRowIndex range ≤ length bd)%nat).
Proof.
  intros Hne. cbv zeta. split_and!.
  - unfold seo_sheet_data. simpl. by rewrite length_fmap.
  - unfold seo_sheet_data. constructor; [done|].
    apply Forall_fmap, Forall_true. done.
  - unfold broken_links_sheet_data. simpl. by rewrite length_fmap.
  - unfold broken_links_sheet_data. constructor; [done|].
    apply Forall_fmap, Forall_true. done.
  - intros range format fields. unfold format_requests.
    rewrite !elem_of_app. intros [Hin|[Hin|[Hin|[Hin|Hin]]]].
    + apply list_elem_of_lookup in Hin as [i Hi].
      unfold create_column_width_requests in Hi.
      rewrite column_width_requests_lookup in Hi.
      by destruct (column_config !! i).
    + apply list_elem_of_singleton in Hin. injection Hin as -> -> ->. simpl.
      split_and!; try done. left. split_and!; try done; simpl; lia.
    + apply list_elem_of_singleton in Hin. injection Hin as -> -> ->. simpl.
      split_and!; try done. right. split_and!; try done; simpl; lia.
    + simpl in Hin. apply elem_of_cons in Hin as [Hin|Hin%list_elem_of_singleton];
        injection Hin as -> -> ->; simpl; (split_and!; try done).
      * left. rewrite Z.eqb_refl. split_and!; try done; simpl; lia.
      * right. assert ((broken_id =? meta_id) = false) as -> by (apply Z.eqb_neq; congruence).
        split_and!; try done; simpl; lia.
    + simpl in Hin. by apply list_elem_of_singleton in Hin.
Qed.

Lemma prefix_split p s :
  String.prefix p s = true → ∃ rest, s = p +:+ rest.
Proof.
  revert s. induction p as [|c p IH]; intros [|c' s]; simpl; try done.
  - by exists "".
  - by exists (String c' s).
  - destruct (Ascii.ascii_dec c c') as [->|]; [|done].
    intros (rest & ->)%IH. by exists rest.
Qed.

(** X19. The URL the main block scans always begins with [http://] or
    [https://]; a URL typed with one of these schemes is scanned as it
    is, and normalising twice changes nothing. *)
Theorem normalized_url_has_a_scheme url :
  (startswith (normalize_url url) "http://" = true
   ∨ startswith (normalize_url url) "https://" = true) ∧
  (startswith url "http://" = true ∨ startswith url "https://" = true →
   normalize_url url = url) ∧
  normalize_url (normalize_url url) = normalize_url url.
Proof.
  assert (Hkeep : ∀ u,
    startswith u "http://" = true ∨ startswith u "https://" = true →
    normalize_url u = u).
  { intros u [(rest & ->)%prefix_split|(rest & ->)%prefix_split];
      by destruct rest. }
  assert (Hscheme :
    startswith (normalize_url url) "http://" = true
    ∨ startswith (normalize_url url) "https://" = true).
  { unfold normalize_url. destruct (String.eqb url ""); [by left|].
    destruct (startswith url "www."); [right; by destruct url|].
    destruct (startswith url "http://") eqn:H1; [by left|].
    destruct (startswith url "https://") eqn:H2; [by right|].
    right. by destruct url. }
  split_and!; [done|apply Hkeep|by apply Hkeep].
Qed.

(** ** The properties on concrete sites *)

(** C1, at a site whose one link does not answer: the traversal and the
    validator turn the failure into data, an edge and a broken-link record,
    and the metadata pass then lets it end the run, which returns an error
    text and no report. *)
Lemma dead_link_aborts_the_run :
  (Sites.crawl Sites.dead_link 2 "http://x/" ∅ Sites.start).1.1
    = [("http://x/b", "http://x/")] ∧
  (Sites.validate Sites.dead_link [("http://x/b", "http://x/")] Sites.start).1
    = [("http://x/b", "http://x/", RequestError "Request error: unreachable")] ∧
  (Sites.scan Sites.dead_link "http://x/" 2 Sites.start).1
    = ErrorText "Error: unreachable".
Proof. split_and!; vm_compute; reflexivity. Qed.

(** C3 fails when the array is not in the order of the positions: the
    trail follows the array. *)
Lemma breadcrumbs_follow_the_array_not_the_positions :
  ∃ m, extract_meta Sites.repr_composite
         (Sites.with_json_ld [Sites.breadcrumb_list Sites.items_out_of_order])
       = Ok m ∧
       md_breadcrumbs m = Some "2: B (urlB) > 1: A (urlA) > 3: C (urlC)" ∧
       md_breadcrumbs m ≠ Some "1: A (urlA) > 2: B (urlB) > 3: C (urlC)".
Proof. eexists. split_and!; [vm_compute; reflexivity | reflexivity | discriminate]. Qed.

(** Three items whose positions 1, 2, 3 follow the array. *)
Lemma breadcrumbs_in_document_order_witness :
  ∃ m, extract_meta Sites.repr_composite
         (Sites.with_json_ld [Sites.breadcrumb_list Sites.items_in_order])
       = Ok m ∧
       md_breadcrumbs m = Some "1: A (urlA) > 2: B (urlB) > 3: C (urlC)".
Proof.
  apply (breadcrumbs_in_document_order Sites.repr_composite
           (Sites.with_json_ld [Sites.breadcrumb_list Sites.items_in_order])
           [Sites.items_in_order]).
  - constructor; [|constructor]. by apply items_breadcrumbs.
  - discriminate.
Defined.

Lemma cycle_closed u :
  reachable (Sites.static Sites.cycle) Sites.netloc Sites.urljoin "http://x/a" u →
  u ∈ ["http://x/a"; "http://x/b"].
Proof.
  induction 1 as [|u w doc href _ IH Hget Hin _ _]; [left|].
  apply elem_of_cons in IH as [->|IH];
    [|apply list_elem_of_singleton in IH as ->];
    vm_compute in Hget; injection Hget as Hdoc; subst doc;
    apply list_elem_of_singleton in Hin as ->.
  - right. left.
  - left.
Qed.

(** The cyclic site A → B → A: two requests at most, at any depth. *)
Lemma traversal_fetches_each_url_once_witness :
  let res := Sites.checked_crawl Sites.cycle 5 "http://x/a" ∅ Sites.start in
  ∃ new : list event,
    trace res.2 = trace Sites.start ++ new ∧
    Forall (λ e, event_site e = Traverse) new ∧
    NoDup (event_url <$> new) ∧
    length new = size res.1.2 ∧
    (length new ≤ 2)%nat.
Proof.
  destruct (traversal_fetches_each_url_once (Sites.static Sites.cycle)
              Sites.netloc Sites.urljoin Sites.urlparse_raises
              Sites.urljoin_raises 5 "http://x/a" Sites.start)
    as (new & Htr & Hs & Hnd & Hlen & Hle).
  exists new.
  exact (conj Htr (conj Hs (conj Hnd (conj Hlen
           (Hle ["http://x/a"; "http://x/b"] cycle_closed))))).
Defined.

(** C7 fails on a page that carries a hyperlink twice: both occurrences
    are extracted and both are recorded as edges. *)
Lemma duplicate_links_are_kept :
  (Sites.crawl Sites.twice 0 "http://x/" ∅ Sites.start).1.1
    = [("http://x/b", "http://x/"); ("http://x/b", "http://x/")] ∧
  ¬ NoDup (Sites.crawl Sites.twice 0 "http://x/" ∅ Sites.start).1.1.*1 ∧
  (Sites.checked_crawl Sites.twice 0 "http://x/" ∅ Sites.start).1.1
    = Raising.Returns [("http://x/b", "http://x/"); ("http://x/b", "http://x/")].
Proof.
  assert (H : (Sites.crawl Sites.twice 0 "http://x/" ∅ Sites.start).1.1
              = [("http://x/b", "http://x/"); ("http://x/b", "http://x/")])
    by (vm_compute; reflexivity).
  split_and!; [exact H | | vm_compute; reflexivity]. rewrite H. simpl.
  intros [Hnot _]%NoDup_cons. apply Hnot. left.
Qed.

Lemma with_sitemap_report :
  (Sites.scan Sites.with_sitemap "http://x/" 2 Sites.start).1
    = Report Sites.with_sitemap_rows [].
Proof. vm_compute. reflexivity. Qed.

(** On that site the seed, whose path no sitemap declares, is marked
    [false] and the linked page, which the root sitemap declares, [true]. *)
Lemma with_sitemap_flags :
  (λ row, (link row, in_sitemap row)) <$> Sites.with_sitemap_rows
    = [("http://x/", false); ("http://x/b", true)].
Proof. reflexivity. Qed.

(** The site with a root sitemap and two missing ones. *)
Lemma in_sitemap_iff_path_declared_witness :
  let probes :=
    requests_at Sitemap
      (trace (Sites.scan Sites.with_sitemap "http://x/" 2 Sites.start).2) in
  Forall (λ e, ∃ sp, sp ∈ sitemap_paths ∧
                     event_url e = Sites.urljoin "http://x/" sp) probes ∧
  (∀ row, row ∈ Sites.with_sitemap_rows →
     in_sitemap row = true ↔
     ∃ e doc loc, e ∈ probes ∧ event_response e = Response 200 doc ∧
                  Some loc ∈ doc_sitemap_locs doc ∧
                  Sites.url_path (Sites.urljoin "http://x/" loc)
                    = Sites.url_path (link row)) ∧
  ((∀ e doc, e ∈ probes → event_response e ≠ Response 200 doc) →
     ∀ row, row ∈ Sites.with_sitemap_rows → in_sitemap row = false) ∧
  (∀ w', let res := get_sitemap_urls unit (Sites.static Sites.with_sitemap)
                      Sites.urljoin "http://x/" (fresh w') in
     (∀ e doc, e ∈ trace res.2 → event_response e ≠ Response 200 doc) →
     res.1 = Ok ∅).
Proof.
  apply (in_sitemap_iff_path_declared (Sites.static Sites.with_sitemap)
           Sites.netloc Sites.url_path Sites.urljoin Sites.repr_composite
           "http://x/" 2 tt Sites.with_sitemap_rows []).
  vm_compute. reflexivity.
Defined.

(** The same site: two rows, two metadata requests. *)
Lemma one_row_per_url_witness :
  let edges :=
    (Sites.crawl Sites.with_sitemap 2 "http://x/" ∅
       (requests_get unit (Sites.static Sites.with_sitemap) SeedProbe
          "http://x/" Sites.start).2).1.1 in
  let extractions :=
    requests_at Metadata
      (trace (Sites.scan Sites.with_sitemap "http://x/" 2 Sites.start).2) in
  NoDup (link <$> Sites.with_sitemap_rows) ∧
  (∀ u, u ∈ link <$> Sites.with_sitemap_rows ↔ u = "http://x/" ∨ u ∈ edges.*1) ∧
  event_url <$> extractions = link <$> Sites.with_sitemap_rows ∧
  ∃ paths,
    Forall2 (row_from Sites.url_path Sites.repr_composite paths)
            extractions Sites.with_sitemap_rows.
Proof.
  apply (one_row_per_url (Sites.static Sites.with_sitemap)
           Sites.netloc Sites.url_path Sites.urljoin Sites.repr_composite
           "http://x/" 2 tt Sites.with_sitemap_rows []).
  vm_compute. reflexivity.
Defined.

(** ** More properties on concrete sites *)

(** The page [landing]: a title of four characters, no description. *)
Lemma missing_markup_is_absent_not_an_error_witness :
  ∃ m, extract_meta Sites.repr_composite Sites.landing = Ok m ∧
       md_title m = Some "Café" ∧
       md_title_length m = 4%nat ∧
       md_meta_description m = None ∧
       md_meta_description_length m = 0%nat ∧
       md_h1_title m = None ∧
       md_canonical_url m = Some "http://x/".
Proof.
  apply (missing_markup_is_absent_not_an_error Sites.repr_composite
           Sites.landing [[]]).
  repeat constructor.
Defined.

(** A linked item and a plain one. *)
Lemma fallback_breadcrumbs_are_numbered_from_one_witness :
  ∃ m, extract_meta Sites.repr_composite Sites.with_html_breadcrumbs = Ok m ∧
       md_breadcrumbs m = Some "1: Home (http://x/) > 2: Current Page (No URL)".
Proof.
  apply (fallback_breadcrumbs_are_numbered_from_one Sites.repr_composite
           Sites.with_html_breadcrumbs []).
  - constructor.
  - reflexivity.
Defined.

(** A JSON-LD script that is an array, after one that does not parse. *)
Lemma ill_typed_json_ld_raises_witness :
  extract_meta Sites.repr_composite Sites.with_json_ld_array
    = Raise AttributeError.
Proof.
  apply (ill_typed_json_ld_raises Sites.repr_composite Sites.with_json_ld_array
           [LdMalformed] [[]]
           (LdJson (JArr [JObj [("@type", JStr "WebSite")]])) AttributeError []).
  - reflexivity.
  - repeat constructor.
  - by apply raises_not_object.
Defined.

(** The site with a link that does not answer: the metadata request for
    the link is the last request of the run. *)
Lemma failed_extraction_ends_the_run_witness :
  (Sites.scan Sites.dead_link "http://x/" 2 Sites.start).1
    = ErrorText "Error: unreachable" ∧
  last (trace (Sites.scan Sites.dead_link "http://x/" 2 Sites.start).2)
    = Some (Metadata, "http://x/b", ConnectionFailed "unreachable").
Proof.
  apply (failed_extraction_ends_the_run (Sites.static Sites.dead_link)
           Sites.netloc Sites.url_path Sites.urljoin Sites.repr_composite
           "http://x/" 2 tt
           (Metadata, "http://x/b", ConnectionFailed "unreachable")
           (RequestException "unreachable")).
  - vm_compute. right. left.
  - reflexivity.
Defined.

(** The site whose root sitemap has a [<loc>] with an unmatched bracket,
    followed by an entry without [<loc>]. *)
Lemma failing_sitemap_entry_ends_the_run_witness :
  (Sites.checked_scan Sites.with_bad_loc "http://x/" 2 Sites.start).1
    = Raising.Escapes Raising.ValueError ∧
  requests_at Metadata
    (trace (Sites.checked_scan Sites.with_bad_loc "http://x/" 2 Sites.start).2) = [].
Proof.
  apply (failing_sitemap_entry_ends_the_run
           (Sites.static Sites.with_bad_loc)
           Sites.netloc Sites.url_path Sites.urljoin Sites.repr_composite
           Sites.urlparse_raises Sites.urljoin_raises
           "http://x/" 2 tt
           (Sitemap, "http://x/sitemap.xml",
            Response 200 (Sites.sitemap [Some "http://["; None]))
           (Sites.sitemap [Some "http://["; None])).
  - vm_compute. left.
  - reflexivity.
  - reflexivity.
Defined.

Lemma with_missing_page_report :
  (Sites.scan Sites.with_missing_page "http://x/" 2 Sites.start).1
    = Report Sites.with_missing_page_rows Sites.with_missing_page_broken.
Proof. vm_compute. reflexivity. Qed.

(** On the site with the missing page [c], linked from the seed and from
    [b]: three rows, the seed first, [c] once; two broken links. *)
Lemma rows_are_in_discovery_order_witness :
  link <$> Sites.with_missing_page_rows
    = ["http://x/"; "http://x/b"; "http://x/c"].
Proof.
  etransitivity.
  - apply (rows_are_in_discovery_order (Sites.static Sites.with_missing_page)
             Sites.netloc Sites.url_path Sites.urljoin Sites.repr_composite
             "http://x/" 2 tt Sites.with_missing_page_rows
             Sites.with_missing_page_broken).
    exact with_missing_page_report.
  - vm_compute. reflexivity.
Defined.

Lemma requests_of_a_reported_run_witness :
  let c := Sites.crawl Sites.with_missing_page 2 "http://x/" ∅
             (requests_get unit (Sites.static Sites.with_missing_page) SeedProbe
                "http://x/" Sites.start).2 in
  let tr := trace (Sites.scan Sites.with_missing_page "http://x/" 2 Sites.start).2 in
  tr = requests_at SeedProbe tr ++ requests_at Traverse tr ++
       requests_at Validate tr ++ requests_at Sitemap tr ++
       requests_at Metadata tr ∧
  event_url <$> requests_at SeedProbe tr = ["http://x/"] ∧
  length (requests_at Traverse tr) = size c.1.2 ∧
  event_url <$> requests_at Validate tr = c.1.1.*1 ∧
  event_url <$> requests_at Sitemap tr
    = Sites.urljoin "http://x/" <$> sitemap_paths ∧
  event_url <$> requests_at Metadata tr = link <$> Sites.with_missing_page_rows ∧
  length tr
    = (1 + size c.1.2 + length c.1.1 + 3
       + length Sites.with_missing_page_rows)%nat.
Proof.
  apply (requests_of_a_reported_run (Sites.static Sites.with_missing_page)
           Sites.netloc Sites.url_path Sites.urljoin Sites.repr_composite
           "http://x/" 2 tt Sites.with_missing_page_rows
           Sites.with_missing_page_broken).
  exact with_missing_page_report.
Defined.

Lemma broken_links_of_a_report_witness :
  let c := Sites.crawl Sites.with_missing_page 2 "http://x/" ∅
             (requests_get unit (Sites.static Sites.with_missing_page) SeedProbe
                "http://x/" Sites.start).2 in
  Sites.with_missing_page_broken
    = (Sites.validate Sites.with_missing_page c.1.1 c.2).1 ∧
  sublist (record_edge <$> Sites.with_missing_page_broken) c.1.1 ∧
  Forall (λ b : broken_link, b.1.1 ∈ link <$> Sites.with_missing_page_rows)
         Sites.with_missing_page_broken.
Proof.
  apply (broken_links_of_a_report (Sites.static Sites.with_missing_page)
           Sites.netloc Sites.url_path Sites.urljoin Sites.repr_composite
           "http://x/" 2 tt Sites.with_missing_page_rows
           Sites.with_missing_page_broken).
  exact with_missing_page_report.
Defined.

(** The broken links of that site: the missing page, once per edge. *)
Lemma with_missing_page_broken_links :
  Sites.with_missing_page_broken
    = [("http://x/c", "http://x/", StatusCode 404);
       ("http://x/c", "http://x/b", StatusCode 404)].
Proof. reflexivity. Qed.

(** Two results, one broken link, sheets with ids 0 and 7. *)
Lemma formatting_fits_the_sheets_witness :
  let sd := seo_sheet_data Sites.with_sitemap_rows in
  let bd := broken_links_sheet_data
              [("http://x/c", "http://x/", StatusCode 404)] in
  length sd = 3%nat ∧
  Forall (λ row, length row = length column_config) sd ∧
  length bd = 2%nat ∧
  Forall (λ row, length row = 3%nat) bd ∧
  ∀ range format fields,
    RepeatCell range format fields ∈ format_requests 0 7 sd bd →
    gr_startRowIndex range = 0%nat ∧ gr_startColumnIndex range = 0%nat ∧
    (gr_sheetId range = 0 ∧ gr_endColumnIndex range = 9%nat ∧
       (1 ≤ gr_endRowIndex range ≤ length sd)%nat
     ∨ gr_sheetId range = 7 ∧ gr_endColumnIndex range = 3%nat ∧
       (1 ≤ gr_endRowIndex range ≤ length bd)%nat).
Proof.
  apply (formatting_fits_the_sheets Sites.with_sitemap_rows
           [("http://x/c", "http://x/", StatusCode 404)] 0 7).
  lia.
Defined.


(** ** The properties on sites with malformed URLs *)

(** C4 fails on a seed page with a hyperlink that [urljoin] rejects: the
    page, served with status 200, links to [http://x/b] on the seed's host,
    and the traversal with [max_depth = 0] raises [ValueError] after its
    one request and returns no edge. *)
Lemma rejected_link_aborts_the_traversal :
  let res := Sites.checked_crawl Sites.with_bad_href 0 "http://x/" ∅ Sites.start in
  Sites.with_bad_href "http://x/"
    = Response 200 (Sites.page ["http://x/b"; "http://["]) ∧
  Sites.netloc "http://x/b" = Sites.netloc "http://x/" ∧
  Sites.urljoin_raises "http://x/" "http://[" = true ∧
  res.1.1 = Raising.Raises Raising.ValueError ∧
  event_url <$> trace res.2 = ["http://x/"] ∧
  ¬ ∃ edges, res.1.1 = Raising.Returns edges ∧ ("http://x/b", "http://x/") ∈ edges.
Proof.
  cbv zeta.
  assert (H : (Sites.checked_crawl Sites.with_bad_href 0 "http://x/" ∅
                 Sites.start).1.1 = Raising.Raises Raising.ValueError)
    by (vm_compute; reflexivity).
  split_and!; [reflexivity | reflexivity | reflexivity | exact H
               | vm_compute; reflexivity |].
  rewrite H. by intros (edges & [=] & _).
Qed.

(** The site with a root sitemap: its run reports, and is the run of the
    program written without [ValueError]. *)
Lemma run_without_value_error_witness :
  Sites.scan Sites.with_sitemap "http://x/" 2 Sites.start
    = (Report Sites.with_sitemap_rows [],
       (Sites.checked_scan Sites.with_sitemap "http://x/" 2 Sites.start).2).
Proof.
  apply (run_without_value_error (Sites.static Sites.with_sitemap)
           Sites.netloc Sites.url_path Sites.urljoin Sites.repr_composite
           Sites.urlparse_raises Sites.urljoin_raises
           "http://x/" 2 Sites.start (Report Sites.with_sitemap_rows [])).
  vm_compute. reflexivity.
Defined.

(** A root sitemap with an entry without [<loc>]: the resolver raises at
    the first probe and makes no other. *)
Lemma bad_sitemap_entry_stops_the_probes :
  let res := Sites.checked_sitemaps Sites.with_bad_sitemap "http://x/" Sites.start in
  res.1 = Raising.Raises (Raising.Other AttributeError) ∧
  event_url <$> trace res.2 = ["http://x/sitemap.xml"].
Proof. split; vm_compute; reflexivity. Qed.

(** The resolver can probe all three locations and return no set: here
    the third sitemap has an entry without [<loc>]. *)
Lemma all_probed_and_no_set :
  let res := Sites.checked_sitemaps Sites.with_bad_last_sitemap "http://x/"
               Sites.start in
  res.1 = Raising.Raises (Raising.Other AttributeError) ∧
  event_url <$> trace res.2
    = Sites.urljoin "http://x/" <$> sitemap_paths.
Proof. split; vm_compute; reflexivity. Qed.
